(** * Interactive array / matrix editors: a shallow embedding

    The development follows [utility/array_input.py] and
    [utility/matrix_input.py].  Python text is [string] (characters are the
    code points 0..255), Python [int] is [Z], a Python list is a [list], and a
    call that may raise returns a [result].  The keyboard ([getch]) is the list
    of characters still to be read. *)

From Stdlib Require Import ZArith Bool List Ascii String Lia.
Import ListNotations.

Local Open Scope string_scope.
Local Open Scope Z_scope.

(** ** The Python built-ins the two modules rely on *)

Module Py.

(** The exceptions that can leave the code under study. *)
Inductive exn : Type :=
| ValueError
| OverflowError
| TypeError
| IndexError.

(** The outcome of a Python call: a value, or a raised exception. *)
Inductive result (A : Type) : Type :=
| Ok (a : A)
| Raise (e : exn).

Arguments Ok {A} a.
Arguments Raise {A} e.

Definition bind {A B : Type} (r : result A) (k : A -> result B) : result B :=
  match r with
  | Ok a => k a
  | Raise e => Raise e
  end.

Notation "x <- r ;; k" := (bind r (fun x => k))
  (at level 61, r at next level, right associativity).

(** [try: ... except ValueError: ...] *)
Definition except_ValueError {A : Type} (r : result A) (h : result A) : result A :=
  match r with
  | Raise ValueError => h
  | _ => r
  end.

(** *** Characters and text *)

Definition ord (c : ascii) : Z := Z.of_N (N_of_ascii c).

Definition is_digit (c : ascii) : bool := (48 <=? ord c) && (ord c <=? 57).

(** The white space [float] strips from both ends of its argument, on the
    code points below 256: the white space of C (codes 9 to 13 and 32) and
    the two other white-space characters, 133 and 160, which [float] turns
    into a space first.  The separators 28 to 31, for which [str.isspace]
    holds as well, are left in place. *)
Definition float_space (c : ascii) : bool :=
  let n := ord c in
  ((9 <=? n) && (n <=? 13)) || (n =? 32) || (n =? 133) || (n =? 160).

(** [str.isprintable] on one character (code points below 256). *)
Definition isprintable (c : ascii) : bool :=
  let n := ord c in
  ((32 <=? n) && (n <=? 126)) || ((161 <=? n) && (n <=? 255) && negb (n =? 173)).

(** [len(s)] *)
Definition len (s : string) : Z := Z.of_nat (String.length s).

(** Truth value of a string: [if s:] *)
Definition truthy (s : string) : bool :=
  match s with
  | EmptyString => false
  | String _ _ => true
  end.

(** [c in s] for a single character [c]. *)
Fixpoint contains (c : ascii) (s : string) : bool :=
  match s with
  | EmptyString => false
  | String a r => Ascii.eqb a c || contains c r
  end.

(** [s.rstrip(c)] for a single character [c]; [rstrip_if] strips every
    trailing character satisfying a test. *)
Fixpoint rstrip_if (p : ascii -> bool) (s : string) : string :=
  match s with
  | EmptyString => EmptyString
  | String a r =>
      match rstrip_if p r with
      | EmptyString => if p a then EmptyString else String a EmptyString
      | r' => String a r'
      end
  end.

Definition rstrip (c : ascii) (s : string) : string := rstrip_if (Ascii.eqb c) s.

Fixpoint lstrip_if (p : ascii -> bool) (s : string) : string :=
  match s with
  | EmptyString => EmptyString
  | String a r => if p a then lstrip_if p r else s
  end.

(** The first character of a text, [d] when there is none. *)
Definition head (d : ascii) (s : string) : ascii :=
  match s with
  | EmptyString => d
  | String a _ => a
  end.

(** [s[:-1]] *)
Fixpoint drop_last (s : string) : string :=
  match s with
  | EmptyString => EmptyString
  | String a EmptyString => EmptyString
  | String a r => String a (drop_last r)
  end.

(** [s + c] *)
Definition snoc (s : string) (c : ascii) : string := s ++ String c EmptyString.

(** ASCII lower-casing, as used when the float parser matches inf / nan. *)
Definition lower (c : ascii) : ascii :=
  let n := ord c in
  if (65 <=? n) && (n <=? 90) then ascii_of_N (Z.to_N (n + 32)) else c.

Fixpoint lower_str (s : string) : string :=
  match s with
  | EmptyString => EmptyString
  | String a r => String (lower a) (lower_str r)
  end.

(** *** Decimal numerals *)

Definition digit_char (d : Z) : ascii := ascii_of_N (Z.to_N (48 + d)).
Definition digit_val (c : ascii) : Z := ord c - 48.

(** Most significant digit first; [acc] is the text already produced. *)
Fixpoint digits_fuel (fuel : nat) (n : Z) (acc : string) : string :=
  match fuel with
  | O => acc
  | S f =>
      let acc' := String (digit_char (n mod 10)) acc in
      if n <? 10 then acc' else digits_fuel f (n / 10) acc'
  end.

(** The decimal numeral of [n >= 0]. *)
Definition digits (n : Z) : string :=
  digits_fuel (S (Z.to_nat (Z.log2 n))) n EmptyString.

(** [str(n)] for an [int]. *)
Definition str_int (n : Z) : string :=
  if n <? 0 then String "-" (digits (- n)) else digits n.

Fixpoint digits_value_acc (s : string) (acc : Z) : Z :=
  match s with
  | EmptyString => acc
  | String a r => digits_value_acc r (10 * acc + digit_val a)
  end.

Definition digits_value (s : string) : Z := digits_value_acc s 0.

(** Longest prefix of decimal digits, and what follows it. *)
Fixpoint span_digits (s : string) : string * string :=
  match s with
  | EmptyString => (EmptyString, EmptyString)
  | String a r =>
      if is_digit a then
        let (d, rest) := span_digits r in (String a d, rest)
      else (EmptyString, s)
  end.

Definition split_sign (s : string) : bool * string :=
  match s with
  | String "-" r => (true, r)
  | String "+" r => (false, r)
  | _ => (false, s)
  end.

(** *** Floats (IEEE 754 binary64)

    A finite float is [(-1)^neg * m * 2^e] with [0 <= m < 2^53] and
    [-1074 <= e <= 971]; the mantissa is at least [2^52] unless
    [e = -1074].  Every function below is exact integer arithmetic. *)

Inductive float : Type :=
| Finite (neg : bool) (m e : Z)
| Infinity (neg : bool)
| NaN.

Definition float_eqb (x y : float) : bool :=
  match x, y with
  | Finite s m e, Finite s' m' e' => Bool.eqb s s' && (m =? m') && (e =? e')
  | Infinity s, Infinity s' => Bool.eqb s s'
  | _, _ => false
  end.

(** The integer nearest to [n / d], ties to even ([0 <= n], [0 < d]). *)
Definition round_half_even (n d : Z) : Z :=
  let q := n / d in
  match 2 * (n mod d) ?= d with
  | Lt => q
  | Gt => q + 1
  | Eq => if Z.even q then q else q + 1
  end.

(** [n * b^k / d] as a fraction of non-negative integers, for any sign of [k]. *)
Definition scaled (b n d k : Z) : Z * Z :=
  if 0 <=? k then (n * b ^ k, d) else (n, d * b ^ (- k)).

(** [floor (log2 (n / d))] for [0 < n], [0 < d]. *)
Definition floor_log2_ratio (n d : Z) : Z :=
  let l := Z.log2 n - Z.log2 d in
  let (n', d') := scaled 2 n d (- l) in
  if d' <=? n' then l else l - 1.

(** The float nearest to [n / d] ([0 <= n], [0 < d]), ties to even;
    infinity when the rounded value exceeds the largest finite float. *)
Definition nearest_float (neg : bool) (n d : Z) : float :=
  if n =? 0 then Finite neg 0 (-1074) else
  let q := Z.max (floor_log2_ratio n d - 52) (-1074) in
  let (n', d') := scaled 2 n d (- q) in
  let m := round_half_even n' d' in
  let (m', q') := if m =? 2 ^ 53 then (2 ^ 52, q + 1) else (m, q) in
  if 971 <? q' then Infinity neg else Finite neg m' q'.

(** The float nearest to [D * 10^E]. *)
Definition float_of_decimal (neg : bool) (D E : Z) : float :=
  let (n, d) := scaled 10 D 1 E in nearest_float neg n d.

(** The decimal grammar of [float()]:
    [sign? (digit+ ('.' digit* )? | '.' digit+) ([eE] sign? digit+)?],
    read as sign, digits [D] and exponent [E] with value [D * 10^E]. *)
Definition parse_decimal (s : string) : option (bool * Z * Z) :=
  let (neg, s1) := split_sign s in
  let (ip, s2) := span_digits s1 in
  let (fp, s3) :=
    match s2 with
    | String "." r => span_digits r
    | _ => (EmptyString, s2)
    end in
  if len ip + len fp =? 0 then None else
  let D := digits_value (ip ++ fp) in
  match s3 with
  | EmptyString => Some (neg, D, - len fp)
  | String c r =>
      if Ascii.eqb (lower c) "e" then
        let (eneg, r1) := split_sign r in
        let (ep, r2) := span_digits r1 in
        if (len ep =? 0) || truthy r2 then None
        else Some (neg, D, (if eneg then - digits_value ep else digits_value ep) - len fp)
      else None
  end.

(** [sign? ("inf" | "infinity" | "nan")], letters in either case. *)
Definition parse_inf_or_nan (s : string) : option float :=
  let (neg, s1) := split_sign s in
  let w := lower_str s1 in
  if String.eqb w "inf" || String.eqb w "infinity" then Some (Infinity neg)
  else if String.eqb w "nan" then Some NaN
  else None.

(** Single underscores are allowed between two digits, and dropped. *)
Fixpoint remove_underscores (prev : ascii) (s : string) : option string :=
  match s with
  | EmptyString => if Ascii.eqb prev "_" then None else Some EmptyString
  | String c r =>
      if Ascii.eqb c "_" then
        if is_digit prev then remove_underscores c r else None
      else if Ascii.eqb prev "_" && negb (is_digit c) then None
      else option_map (String c) (remove_underscores c r)
  end.

(** What [float] parses: the text without the white space at its ends. *)
Definition strip (s : string) : string :=
  rstrip_if float_space (lstrip_if float_space s).

(** [float(s)] for a [str] argument; [None] is [ValueError]. *)
Definition parse_float (s : string) : option float :=
  match remove_underscores zero (strip s) with
  | None => None
  | Some t =>
      match parse_decimal t with
      | Some (neg, D, E) => Some (float_of_decimal neg D E)
      | None => parse_inf_or_nan t
      end
  end.

Definition float_of_str (s : string) : result float :=
  match parse_float s with
  | Some f => Ok f
  | None => Raise ValueError
  end.

(** [int(x)] for a [float] argument: truncation towards zero. *)
Definition int_of_float (x : float) : result Z :=
  match x with
  | Finite neg m e =>
      let a := if 0 <=? e then m * 2 ^ e else m / 2 ^ (- e) in
      Ok (if neg then - a else a)
  | Infinity _ => Raise OverflowError
  | NaN => Raise ValueError
  end.

(** **** [repr] of a float: the shortest decimal that reads back *)

(** [floor (log10 (n / d))] for [0 < n], [0 < d]. *)
Definition floor_log10_ratio (n d : Z) : Z :=
  let t := len (digits n) - len (digits d) in
  let (n', d') := scaled 10 n d (- t) in
  if d' <=? n' then t else t - 1.

(** The [k]-digit decimals just below and just above [m * 2^q] with their
    common exponent; of those that read back as [m * 2^q], the nearer one. *)
Definition candidate (m q k : Z) : option (Z * Z) :=
  let (n, d) := scaled 2 m 1 q in
  let E := floor_log10_ratio n d - k + 1 in
  let (n', d') := scaled 10 n d (- E) in
  let lo := n' / d' in
  let hi := lo + 1 in
  let back c := float_eqb (float_of_decimal false c E) (Finite false m q) in
  let lo_nearer :=
    match 2 * (n' mod d') ?= d' with
    | Lt => true
    | Gt => false
    | Eq => Z.even lo
    end in
  match back lo, back hi with
  | true, true => Some (if lo_nearer then lo else hi, E)
  | true, false => Some (lo, E)
  | false, true => Some (hi, E)
  | false, false => None
  end.

Fixpoint shortest (fuel : nat) (m q k : Z) : Z * Z :=
  match fuel with
  | O => (m, 0)
  | S f =>
      match candidate m q k with
      | Some c => c
      | None => shortest f m q (k + 1)
      end
  end.

Fixpoint zeros (n : nat) : string :=
  match n with
  | O => EmptyString
  | S k => String "0" (zeros k)
  end.

(** The text of a decimal exponent: a sign and at least two digits. *)
Definition exponent_text (x : Z) : string :=
  let a := digits (Z.abs x) in
  String (if x <? 0 then "-"%char else "+"%char) (if len a <? 2 then String "0" a else a).

(** The leading digit of a numeral and the digits after it, the trailing
    zeros of those dropped. *)
Definition significant (num : string) : ascii * string :=
  match num with
  | EmptyString => ("0"%char, EmptyString)
  | String a r => (a, rstrip "0" r)
  end.

(** The digits [a :: r] with the decimal point after the first [decpt] of
    them, in fixed or in exponent notation, as [repr] lays them out. *)
Definition layout (a : ascii) (r : string) (decpt : Z) : string :=
  if (decpt <=? -4) || (16 <? decpt) then
    String a ((if truthy r then String "." r else EmptyString)
              ++ String "e" (exponent_text (decpt - 1)))
  else if decpt <=? 0 then
    String "0" (String "." (zeros (Z.to_nat (- decpt)) ++ String a r))
  else
    let ds := String a r in
    let n := Z.to_nat decpt in
    if len ds <=? decpt then ds ++ zeros (n - String.length ds) ++ ".0"
    else substring 0 n ds ++ String "." (substring n (String.length ds - n) ds).

(** The text of the finite magnitude [m * 2^e]. *)
Definition repr_magnitude (m e : Z) : string :=
  if m =? 0 then "0.0"
  else
    let (c, E) := shortest 17 m e 1 in
    let num := digits c in
    let (a, r) := significant num in
    layout a r (E + len num).

(** [repr(x)], which is also [str(x)] and [f"{x}"]. *)
Definition repr_float (x : float) : string :=
  match x with
  | NaN => "nan"
  | Infinity neg => if neg then "-inf" else "inf"
  | Finite neg m e =>
      if neg then String "-" (repr_magnitude m e) else repr_magnitude m e
  end.

(** *** Lists *)

(** [l[i]]: a negative index counts from the end, an index out of range
    raises [IndexError]. *)
Definition index_of {A : Type} (l : list A) (i : Z) : result nat :=
  let n := Z.of_nat (List.length l) in
  let j := if i <? 0 then i + n else i in
  if (0 <=? j) && (j <? n) then Ok (Z.to_nat j) else Raise IndexError.

Definition getitem {A : Type} (l : list A) (i : Z) : result A :=
  j <- index_of l i ;;
  match nth_error l j with
  | Some x => Ok x
  | None => Raise IndexError
  end.

Fixpoint update {A : Type} (l : list A) (j : nat) (v : A) : list A :=
  match l, j with
  | [], _ => []
  | _ :: r, O => v :: r
  | x :: r, S k => x :: update r k v
  end.

(** [l[i] = v] *)
Definition setitem {A : Type} (l : list A) (i : Z) (v : A) : result (list A) :=
  j <- index_of l i ;; Ok (update l j v).

(** [range(a, b)] with [n] the number of elements still to produce. *)
Fixpoint range_from (a : Z) (n : nat) : list Z :=
  match n with
  | O => []
  | S k => a :: range_from (a + 1) k
  end.

Definition range (a b : Z) : list Z := range_from a (Z.to_nat (b - a)).

(** [[f(x) for x in l]] where [f] may raise. *)
Fixpoint map_result {A B : Type} (f : A -> result B) (l : list A) : result (list B) :=
  match l with
  | [] => Ok []
  | x :: r => y <- f x ;; ys <- map_result f r ;; Ok (y :: ys)
  end.

(** What the body of a [for] loop does at one element: it goes on to the
    next one, leaves the loop ([break]) or leaves the function ([return]). *)
Inductive control (B : Type) : Type :=
| Next
| Break
| Return (b : B).

Arguments Next {B}.
Arguments Break {B}.
Arguments Return {B} b.

(** A [for] loop: the value returned from inside it, [None] when the loop
    ends or is broken out of. *)
Fixpoint for_loop {A B : Type} (l : list A) (body : A -> result (control B))
  : result (option B) :=
  match l with
  | [] => Ok None
  | x :: r =>
      c <- body x ;;
      match c with
      | Next => for_loop r body
      | Break => Ok None
      | Return b => Ok (Some b)
      end
  end.

(** A [return] inside an inner loop leaves the outer loop as well. *)
Definition propagate {B : Type} (o : option B) : control B :=
  match o with
  | Some b => Return b
  | None => Next
  end.

(** Code that reads and assigns the variables [S] of an enclosing function
    and may raise: an assignment made before a [raise] is still there when
    the exception is caught. *)
Definition M (S A : Type) : Type := S -> result A * S.

Definition ret {S A : Type} (a : A) : M S A := fun s => (Ok a, s).

Definition bindM {S A B : Type} (m : M S A) (k : A -> M S B) : M S B :=
  fun s =>
    match m s with
    | (Ok a, s') => k a s'
    | (Raise e, s') => (Raise e, s')
    end.

Definition gets {S A : Type} (f : S -> A) : M S A := fun s => (Ok (f s), s).
Definition modify {S : Type} (f : S -> S) : M S unit := fun s => (Ok tt, f s).
Definition lift {S A : Type} (r : result A) : M S A := fun s => (r, s).

(** [try: m except ValueError: h] *)
Definition try_except_ValueError {S A : Type} (m h : M S A) : M S A :=
  fun s =>
    match m s with
    | (Raise ValueError, s') => h s'
    | other => other
    end.

Notation "x <~ m ;; k" := (bindM m (fun x => k))
  (at level 61, m at next level, right associativity).
Notation "m >> k" := (bindM m (fun _ => k))
  (at level 61, right associativity).

(** [cell != ''] *)
Definition nonempty (cell : string) : bool := negb (String.eqb cell EmptyString).

(** What a caller-supplied validator does on a text: it returns a verdict
    and a message, or raises. *)
Definition validator : Type := string -> result (bool * string).

(** What an editor session comes to on a finite supply of key presses: the
    entry point returns, or raises, or still waits in [getch] in state [st]. *)
Inductive outcome (S V : Type) : Type :=
| Returned (v : V)
| Raised (e : exn)
| Waiting (st : S).

Arguments Returned {S V} v.
Arguments Raised {S V} e.
Arguments Waiting {S V} st.

Definition CR : ascii := "013"%char.
Definition LF : ascii := "010"%char.
Definition DEL : ascii := "127"%char.
Definition ESC : ascii := "027"%char.

End Py.

Import Py.

(** ** [utility/array_input.py] *)

Module ArrayInput.

Definition format_number (value : string) (as_int : bool) : result string :=
  except_ValueError
    (if as_int then
       x <- float_of_str value ;;
       n <- int_of_float x ;;
       Ok (str_int n)
     else
       num <- float_of_str value ;;
       let s := repr_float num in
       Ok (if contains "." s then rstrip "." (rstrip "0" s) else s))
    (Ok value).

Definition invalid_number : string := "Введите корректное число".

Definition default_validator (as_int : bool) : validator := fun value =>
  except_ValueError
    (if as_int then
       x <- float_of_str value ;;
       _ <- int_of_float x ;;
       Ok (true, EmptyString)
     else
       _ <- float_of_str value ;;
       Ok (true, EmptyString))
    (Ok (false, invalid_number)).

(** The variables of [input_array] that its loop reads and assigns.  The
    last two fields are history only, the code does not have them:
    [validated] lists the texts handed to the validator and [committed] the
    positions assigned by a commit, most recent first. *)
Record state : Type := mkState {
  array : list string;
  current_pos : Z;
  current_value : string;
  error_message : string;
  validated : list string;
  committed : list Z
}.

Definition is_complete (st : state) : bool := forallb nonempty (array st).

Section Loop.

Variable size : Z.
Variable as_int : bool.
Variable validate : validator.

Definition initial : state :=
  mkState (repeat EmptyString (Z.to_nat size)) 0 EmptyString EmptyString [] [].

(** The [Enter] branch. *)
Definition on_enter (st : state) : result state :=
  if truthy (current_value st) then
    let log := current_value st :: validated st in
    verdict <- validate (current_value st) ;;
    let (is_valid, error) := verdict : bool * string in
    if is_valid then
      formatted <- format_number (current_value st) as_int ;;
      arr <- setitem (array st) (current_pos st) formatted ;;
      Ok (mkState arr
            (if current_pos st <? size - 1 then current_pos st + 1 else current_pos st)
            EmptyString EmptyString log (current_pos st :: committed st))
    else
      Ok (mkState (array st) (current_pos st) (current_value st) error log (committed st))
  else if current_pos st <? size - 1 then
    Ok (mkState (array st) (current_pos st + 1) (current_value st) (error_message st)
          (validated st) (committed st))
  else Ok st.

(** The [Backspace] branch. *)
Definition on_backspace (st : state) : state :=
  if truthy (current_value st) then
    mkState (array st) (current_pos st) (drop_last (current_value st)) EmptyString
      (validated st) (committed st)
  else st.

(** The arrow-key branch: [direction] is the third character of the
    escape sequence. *)
Definition on_arrow (direction : ascii) (st : state) : state :=
  if Ascii.eqb direction "D" && (0 <? current_pos st) then
    mkState (array st) (current_pos st - 1) EmptyString EmptyString
      (validated st) (committed st)
  else if Ascii.eqb direction "C" && (current_pos st <? size - 1) then
    mkState (array st) (current_pos st + 1) EmptyString EmptyString
      (validated st) (committed st)
  else st.

(** The branch of a printable character. *)
Definition on_char (char : ascii) (st : state) : state :=
  mkState (array st) (current_pos st) (snoc (current_value st) char) EmptyString
    (validated st) (committed st).

(** The end of one turn of the loop: the completion check. *)
Definition turn_end (next : state -> outcome state (option (list string)))
    (r : result state) : outcome state (option (list string)) :=
  match r with
  | Raise e => Raised e
  | Ok st => if is_complete st then Returned (Some (array st)) else next st
  end.

(** The [while True] loop; [keys] is what [getch] will deliver. *)
Fixpoint loop (st : state) (keys : list ascii) : outcome state (option (list string)) :=
  match keys with
  | [] => Waiting st
  | char :: keys1 =>
      if Ascii.eqb char CR || Ascii.eqb char LF then
        turn_end (fun st' => loop st' keys1) (on_enter st)
      else if Ascii.eqb char DEL then
        turn_end (fun st' => loop st' keys1) (Ok (on_backspace st))
      else if Ascii.eqb char ESC then
        match keys1 with
        | [] => Waiting st
        | next_char :: keys2 =>
            if Ascii.eqb next_char "[" then
              match keys2 with
              | [] => Waiting st
              | direction :: keys3 =>
                  turn_end (fun st' => loop st' keys3) (Ok (on_arrow direction st))
              end
            else Returned None
        end
      else if isprintable char then
        turn_end (fun st' => loop st' keys1) (Ok (on_char char st))
      else
        turn_end (fun st' => loop st' keys1) (Ok st)
  end.

End Loop.

Definition input_array (size : Z) (as_int : bool) (v : option validator)
    (keys : list ascii) : outcome state (option (list string)) :=
  let validate :=
    match v with
    | None => default_validator as_int
    | Some f => f
    end in
  loop size as_int validate (initial size) keys.

(** The value a wrapper returns from what [input_array] returned. *)
Definition convert {A : Type} (f : string -> result A)
    (o : outcome state (option (list string))) : outcome state (option (list A)) :=
  match o with
  | Returned (Some arr) =>
      match map_result f arr with
      | Ok l => Returned (Some l)
      | Raise e => Raised e
      end
  | Returned None => Returned None
  | Raised e => Raised e
  | Waiting st => Waiting st
  end.

Definition input_float_array (size : Z) (v : option validator) (keys : list ascii)
  : outcome state (option (list float)) :=
  convert float_of_str (input_array size false v keys).

Definition input_int_array (size : Z) (v : option validator) (keys : list ascii)
  : outcome state (option (list Z)) :=
  convert (fun val => x <- float_of_str val ;; int_of_float x)
    (input_array size true v keys).

End ArrayInput.

(** ** [utility/matrix_input.py] *)

Module MatrixInput.

Definition grid : Type := list (list string).

Definition format_number (value : string) (as_int as_symbol : bool) : result string :=
  if as_symbol then Ok value else
  except_ValueError
    (if as_int then
       x <- float_of_str value ;;
       n <- int_of_float x ;;
       Ok (str_int n)
     else
       num <- float_of_str value ;;
       let s := repr_float num in
       Ok (if contains "." s then rstrip "." (rstrip "0" s) else s))
    (Ok value).

Definition invalid_number : string := "Введите корректное число".
Definition invalid_symbol : string := "Введите один символ".

Definition default_validator (as_int as_symbol : bool) : validator := fun value =>
  if as_symbol then
    if len value =? 1 then Ok (true, EmptyString)
    else Ok (false, invalid_symbol)
  else
  except_ValueError
    (if as_int then
       x <- float_of_str value ;;
       _ <- int_of_float x ;;
       Ok (true, EmptyString)
     else
       _ <- float_of_str value ;;
       Ok (true, EmptyString))
    (Ok (false, invalid_number)).

(** The variables of [input_matrix] that its loop reads and assigns.  The
    last two fields are history only, the code does not have them:
    [validated] lists the texts handed to the validator and [committed] the
    cells assigned by a commit, most recent first. *)
Record state : Type := mkState {
  matrix : grid;
  current_row : Z;
  current_col : Z;
  current_value : string;
  error_message : string;
  validated : list string;
  committed : list (Z * Z)
}.

Definition set_matrix (m : grid) (st : state) : state :=
  mkState m (current_row st) (current_col st) (current_value st) (error_message st)
    (validated st) (committed st).
Definition set_cursor (p : Z * Z) (st : state) : state :=
  mkState (matrix st) (fst p) (snd p) (current_value st) (error_message st)
    (validated st) (committed st).
Definition set_value (v : string) (st : state) : state :=
  mkState (matrix st) (current_row st) (current_col st) v (error_message st)
    (validated st) (committed st).
Definition set_error (e : string) (st : state) : state :=
  mkState (matrix st) (current_row st) (current_col st) (current_value st) e
    (validated st) (committed st).
Definition note_validated (v : string) (st : state) : state :=
  mkState (matrix st) (current_row st) (current_col st) (current_value st)
    (error_message st) (v :: validated st) (committed st).
Definition note_committed (p : Z * Z) (st : state) : state :=
  mkState (matrix st) (current_row st) (current_col st) (current_value st)
    (error_message st) (validated st) (p :: committed st).

(** The variables right after the assignments of a commit that gave the
    cell under the cursor the text [m'] holds there. *)
Definition after_commit (st : state) (m' : grid) : state :=
  mkState m' (current_row st) (current_col st) EmptyString EmptyString
    (current_value st :: validated st)
    ((current_row st, current_col st) :: committed st).

(** [matrix[i][j]] *)
Definition cell (m : grid) (i j : Z) : result string :=
  r <- getitem m i ;; getitem r j.

(** [matrix[i][j] = v] *)
Definition set_cell (m : grid) (i j : Z) (v : string) : result grid :=
  r <- getitem m i ;;
  r' <- setitem r j v ;;
  setitem m i r'.

Definition is_matrix_complete (m : grid) : bool :=
  forallb (fun row => forallb nonempty row) m.

Section Loop.

Variables rows cols : Z.
Variables as_int as_symbol : bool.
Variable validate : validator.

Definition initial : state :=
  mkState (repeat (repeat EmptyString (Z.to_nat cols)) (Z.to_nat rows))
    0 0 EmptyString EmptyString [] [].

Definition find_next_empty (m : grid) (row col : Z) : result (option (Z * Z)) :=
  let next_col := col + 1 in
  for_loop (range row rows) (fun i =>
    let start_col := if i =? row then next_col else 0 in
    found <- for_loop (range start_col cols) (fun j =>
      c <- cell m i j ;;
      Ok (if String.eqb c EmptyString then Return (i, j) else Next)) ;;
    Ok (propagate found)).

Definition find_prev_empty (m : grid) (row col : Z) : result (option (Z * Z)) :=
  for_loop (range 0 (row + 1)) (fun i =>
    found <- for_loop (range 0 cols) (fun j =>
      if (i =? row) && (col <=? j) then Ok Break else
      c <- cell m i j ;;
      Ok (if String.eqb c EmptyString then Return (i, j) else Next)) ;;
    Ok (propagate found)).

(** The format check that comes before the validator. *)
Definition format_check (value : string) : result unit :=
  if as_int then
    x <- float_of_str value ;; _ <- int_of_float x ;; Ok tt
  else if as_symbol then Ok tt
  else
    _ <- float_of_str value ;; Ok tt.

(** The [Enter] branch; [Some matrix] is [return matrix]. *)
Definition on_enter : M state (option grid) :=
  value <~ gets current_value ;;
  if truthy value then
    try_except_ValueError
      (lift (format_check value) >>
       modify (note_validated value) >>
       verdict <~ lift (validate value) ;;
       let (is_valid, error) := verdict : bool * string in
       if is_valid then
         formatted_value <~ lift (format_number value as_int as_symbol) ;;
         row <~ gets current_row ;;
         col <~ gets current_col ;;
         m <~ gets matrix ;;
         m' <~ lift (set_cell m row col formatted_value) ;;
         modify (set_matrix m') >>
         modify (note_committed (row, col)) >>
         modify (set_value EmptyString) >>
         modify (set_error EmptyString) >>
         next_empty <~ lift (find_next_empty m' row col) ;;
         match next_empty with
         | Some p => modify (set_cursor p) >> ret None
         | None =>
             prev_empty <~ lift (find_prev_empty m' row col) ;;
             match prev_empty with
             | Some p => modify (set_cursor p) >> ret None
             | None => ret (Some m')
             end
         end
       else
         modify (set_error error) >> ret None)
      (modify (set_error invalid_number) >> ret None)
  else ret None.

(** The [Backspace] branch. *)
Definition on_backspace (st : state) : state :=
  if truthy (current_value st) then
    set_error EmptyString (set_value (drop_last (current_value st)) st)
  else st.

(** The arrow-key branch: [direction] is the third character of the
    escape sequence. *)
Definition on_arrow (direction : ascii) (st : state) : state :=
  let moved p := set_error EmptyString (set_value EmptyString (set_cursor p st)) in
  if Ascii.eqb direction "A" && (0 <? current_row st) then
    moved (current_row st - 1, current_col st)
  else if Ascii.eqb direction "B" && (current_row st <? rows - 1) then
    moved (current_row st + 1, current_col st)
  else if Ascii.eqb direction "D" && (0 <? current_col st) then
    moved (current_row st, current_col st - 1)
  else if Ascii.eqb direction "C" && (current_col st <? cols - 1) then
    moved (current_row st, current_col st + 1)
  else st.

(** The branch of a printable character. *)
Definition on_char (char : ascii) (st : state) : state :=
  set_error EmptyString (set_value (snoc (current_value st) char) st).

(** The [while True] loop; [keys] is what [getch] will deliver. *)
Fixpoint loop (st : state) (keys : list ascii) : outcome state (option grid) :=
  match keys with
  | [] => Waiting st
  | char :: keys1 =>
      if ord char =? 27 then
        match keys1 with
        | [] => Waiting st
        | next_char :: keys2 =>
            if Ascii.eqb next_char "[" then
              match keys2 with
              | [] => Waiting st
              | direction :: keys3 => loop (on_arrow direction st) keys3
              end
            else Returned None
        end
      else if ord char =? 13 then
        match on_enter st with
        | (Raise e, _) => Raised e
        | (Ok (Some m), _) => Returned (Some m)
        | (Ok None, st') => loop st' keys1
        end
      else if ord char =? 127 then loop (on_backspace st) keys1
      else if isprintable char then loop (on_char char st) keys1
      else loop st keys1
  end.

End Loop.

Definition input_matrix (rows cols : Z) (as_int as_symbol : bool) (v : option validator)
    (keys : list ascii) : outcome state (option grid) :=
  let validate :=
    match v with
    | None => default_validator as_int as_symbol
    | Some f => f
    end in
  loop rows cols as_int as_symbol validate (initial rows cols) keys.

(** [[[f(val) for val in row] for row in matrix]]: iterating over [None]
    raises [TypeError]. *)
Definition convert {A : Type} (f : string -> result A)
    (o : outcome state (option grid)) : outcome state (list (list A)) :=
  match o with
  | Returned (Some m) =>
      match map_result (map_result f) m with
      | Ok l => Returned l
      | Raise e => Raised e
      end
  | Returned None => Raised TypeError
  | Raised e => Raised e
  | Waiting st => Waiting st
  end.

Definition input_float_matrix (rows cols : Z) (v : option validator) (keys : list ascii)
  : outcome state (list (list float)) :=
  convert float_of_str (input_matrix rows cols false false v keys).

Definition input_int_matrix (rows cols : Z) (v : option validator) (keys : list ascii)
  : outcome state (list (list Z)) :=
  convert (fun val => x <- float_of_str val ;; int_of_float x)
    (input_matrix rows cols true false v keys).

Definition input_symbol_matrix (rows cols : Z) (v : option validator) (keys : list ascii)
  : outcome state (option grid) :=
  input_matrix rows cols false true v keys.

End MatrixInput.

(** ** Vocabulary of the specification *)

Local Open Scope list_scope.

Module Spec.

(** The key presses that type a text. *)
Definition keys_of (s : string) : list ascii := list_ascii_of_string s.

(** The escape sequence of an arrow key. *)
Definition arrow (direction : ascii) : list ascii := [ESC; "["%char; direction].

(** A caller-supplied validator that accepts every text. *)
Definition accept_all : validator := fun _ => Ok (true, EmptyString).

(** "The text parses as the base numeric kind": [float(text)] returns and,
    in integer mode, [int] of it returns too. *)
Definition parses_as_base (as_int : bool) (text : string) : Prop :=
  exists x, float_of_str text = Ok x /\
            (as_int = true -> exists n, int_of_float x = Ok n).

(** Row-major order on cells. *)
Definition precedes (p q : Z * Z) : bool :=
  (fst p <? fst q) || ((fst p =? fst q) && (snd p <? snd q)).

(** The cells of a [rows] x [cols] grid in row-major order. *)
Definition row_major (rows cols : Z) : list (Z * Z) :=
  flat_map (fun i => map (fun j => (i, j)) (range 0 cols)) (range 0 rows).

(** "The cell is empty". *)
Definition empty_at (m : MatrixInput.grid) (p : Z * Z) : bool :=
  match MatrixInput.cell m (fst p) (snd p) with
  | Ok c => String.eqb c EmptyString
  | Raise _ => false
  end.

(** "The first empty cell found by scanning forward in row-major order
    starting just after [p]". *)
Definition first_empty_after (rows cols : Z) (m : MatrixInput.grid) (p : Z * Z)
  : option (Z * Z) :=
  find (empty_at m) (filter (precedes p) (row_major rows cols)).

(** "The first empty cell found by scanning from the very first cell up to
    (but excluding) [p]". *)
Definition first_empty_before (rows cols : Z) (m : MatrixInput.grid) (p : Z * Z)
  : option (Z * Z) :=
  find (empty_at m) (filter (fun q => precedes q p) (row_major rows cols)).

(** A grid of [rows] rows of [cols] cells each. *)
Definition shaped (rows cols : Z) (m : MatrixInput.grid) : Prop :=
  List.length m = Z.to_nat rows /\
  Forall (fun r => List.length r = Z.to_nat cols) m.

(** The cursor of the matrix editor is on a cell of the grid. *)
Definition on_grid (rows cols : Z) (st : MatrixInput.state) : Prop :=
  0 <= MatrixInput.current_row st < rows /\ 0 <= MatrixInput.current_col st < cols.

(** "Every cell has a committed value." *)
Definition all_committed_array (size : Z) (st : ArrayInput.state) : Prop :=
  forall i, 0 <= i < size -> In i (ArrayInput.committed st).

Definition all_committed_matrix (rows cols : Z) (st : MatrixInput.state) : Prop :=
  forall i j, 0 <= i < rows -> 0 <= j < cols -> In (i, j) (MatrixInput.committed st).

(** What every state of an array session satisfies: the array has [size]
    cells, the cursor is on one of them when there is one, and the cells
    holding a text are those a commit assigned. *)
Definition array_inv (size : Z) (st : ArrayInput.state) : Prop :=
  List.length (ArrayInput.array st) = Z.to_nat size /\
  0 <= ArrayInput.current_pos st /\
  (1 <= size -> ArrayInput.current_pos st < size) /\
  forall i c, 0 <= i < size ->
              nth_error (ArrayInput.array st) (Z.to_nat i) = Some c ->
              (c <> EmptyString <-> In i (ArrayInput.committed st)).

(** What every state of a matrix session satisfies: the grid has its shape,
    the cursor is on a cell when there is one, and the cells holding a text
    are those a commit assigned. *)
Definition matrix_inv (rows cols : Z) (st : MatrixInput.state) : Prop :=
  shaped rows cols (MatrixInput.matrix st) /\
  0 <= MatrixInput.current_row st /\ 0 <= MatrixInput.current_col st /\
  (1 <= rows -> 1 <= cols -> on_grid rows cols st) /\
  forall i j c, 0 <= i < rows -> 0 <= j < cols ->
                MatrixInput.cell (MatrixInput.matrix st) i j = Ok c ->
                (c <> EmptyString <-> In (i, j) (MatrixInput.committed st)).

End Spec.

(** ** The example validators under [__main__] *)

Module FloatOrder.

(** [n <= x] and [x <= n] for an integer [n] and a float [x]: Python
    compares the exact values, and every comparison with nan is false. *)
Definition int_le_float (n : Z) (x : float) : bool :=
  match x with
  | Finite neg m e =>
      let s := if neg then - m else m in
      if 0 <=? e then n <=? s * 2 ^ e else n * 2 ^ (- e) <=? s
  | Infinity neg => negb neg
  | NaN => false
  end.

Definition float_le_int (x : float) (n : Z) : bool :=
  match x with
  | Finite neg m e =>
      let s := if neg then - m else m in
      if 0 <=? e then s * 2 ^ e <=? n else s <=? n * 2 ^ (- e)
  | Infinity neg => neg
  | NaN => false
  end.

End FloatOrder.

Module ArrayMain.

Definition out_of_range : string := "Значение должно быть от -100 до 100".

(** [custom_validator] of [array_input.py]. *)
Definition custom_validator : validator := fun value =>
  except_ValueError
    (num <- float_of_str value ;;
     if FloatOrder.int_le_float (-100) num && FloatOrder.float_le_int num 100
     then Ok (true, EmptyString)
     else Ok (false, out_of_range))
    (Ok (false, ArrayInput.invalid_number)).

End ArrayMain.

Module MatrixMain.

Definition out_of_range : string := "Число должно быть от -100 до 100".

(** [custom_validator] of [matrix_input.py]. *)
Definition custom_validator : validator := fun value =>
  except_ValueError
    (num <- float_of_str value ;;
     if FloatOrder.int_le_float (-100) num && FloatOrder.float_le_int num 100
     then Ok (true, EmptyString)
     else Ok (false, out_of_range))
    (Ok (false, MatrixInput.invalid_number)).

End MatrixMain.

(** ** Vocabulary for whole sessions *)

Module Session.

(** The text ends with the character [c]. *)
Fixpoint ends_with (c : ascii) (s : string) : bool :=
  match s with
  | EmptyString => false
  | String a EmptyString => Ascii.eqb a c
  | String _ r => ends_with c r
  end.

(** Every character of the text is a decimal digit. *)
Fixpoint all_digits (s : string) : bool :=
  match s with
  | EmptyString => true
  | String a r => is_digit a && all_digits r
  end.

(** The state of the array editor once [text] has been typed after the
    buffer. *)
Definition array_typed (st : ArrayInput.state) (text : string) : ArrayInput.state :=
  ArrayInput.mkState (ArrayInput.array st) (ArrayInput.current_pos st)
    (ArrayInput.current_value st ++ text) EmptyString
    (ArrayInput.validated st) (ArrayInput.committed st).

(** The state of the matrix editor once [text] has been typed after the
    buffer. *)
Definition matrix_typed (st : MatrixInput.state) (text : string) : MatrixInput.state :=
  MatrixInput.set_error EmptyString
    (MatrixInput.set_value (MatrixInput.current_value st ++ text) st).

(** [n] presses of Backspace. *)
Definition backspaces (n : nat) : list ascii := repeat DEL n.

(** The cells of a grid, row after row. *)
Definition cells (m : MatrixInput.grid) : list string := List.concat m.

(** A cell of a grid of symbols that is being filled: empty, or one
    character long. *)
Definition symbol_or_empty (c : string) : Prop := c = EmptyString \/ len c = 1.

(** The decimal numeral of an integer: digits, after a minus sign or not. *)
Definition is_numeral (s : string) : bool :=
  match s with
  | EmptyString => false
  | String a r => if Ascii.eqb a "-" then truthy r && all_digits r else all_digits s
  end.

(** The validator a session runs with. *)
Definition array_validator (as_int : bool) (v : option validator) : validator :=
  match v with
  | None => ArrayInput.default_validator as_int
  | Some f => f
  end.

Definition matrix_validator (as_int as_symbol : bool) (v : option validator)
  : validator :=
  match v with
  | None => MatrixInput.default_validator as_int as_symbol
  | Some f => f
  end.

(** The text is made of printable characters. *)
Definition printable (t : string) : Prop :=
  Forall (fun c => isprintable c = true) (Spec.keys_of t).

(** The keys that type each text of a list and confirm it. *)
Definition entered (texts : list string) : list ascii :=
  List.concat (map (fun t => Spec.keys_of t ++ [CR]) texts).

(** The text [t] can be typed, passes [check], is accepted by [validate]
    and is formatted as [f]. *)
Definition accepted_as (check : string -> result unit) (validate : validator)
    (format : string -> result string) (t f : string) : Prop :=
  t <> EmptyString /\
  Forall (fun c => isprintable c = true) (Spec.keys_of t) /\
  check t = Ok tt /\
  (exists e, validate t = Ok (true, e)) /\
  format t = Ok f.

(** Where a session of the array editor that started in [st] can stand,
    for a property [P] of the states it goes through: it waits in a state
    with [P], the start or one with an empty cell; it has returned the cells
    of a complete state with [P]; or [Enter] raised in a state with [P]. *)
Definition array_stands (P : ArrayInput.state -> Prop)
    (enter : ArrayInput.state -> result ArrayInput.state) (st : ArrayInput.state)
    (o : outcome ArrayInput.state (option (list string))) : Prop :=
  match o with
  | Waiting st' => P st' /\ (st' = st \/ ArrayInput.is_complete st' = false)
  | Returned None => True
  | Returned (Some arr) =>
      exists s, P s /\ ArrayInput.is_complete s = true /\ arr = ArrayInput.array s
  | Raised e => exists s, P s /\ enter s = Raise e
  end.

(** The same for the matrix editor, which returns and raises from [Enter]
    only. *)
Definition matrix_stands (P : MatrixInput.state -> Prop)
    (enter : M MatrixInput.state (option MatrixInput.grid))
    (o : outcome MatrixInput.state (option MatrixInput.grid)) : Prop :=
  match o with
  | Waiting st' => P st'
  | Returned None => True
  | Returned (Some m) => exists s s', P s /\ enter s = (Ok (Some m), s')
  | Raised e => exists s s', P s /\ enter s = (Raise e, s')
  end.

End Session.

(** ** Proof steps shared by the facts below *)

(** Case analysis on every test and call a hypothesis still branches on. *)
Ltac branches H :=
  repeat match type of H with
         | context [match ?x with _ => _ end] =>
             lazymatch x with
             | context [match _ with _ => _ end] => fail
             | _ => let E := fresh "E" in destruct x eqn:E; simpl in H
             end
         end.

Ltac unfold_monad :=
  unfold try_except_ValueError, bindM, gets, modify, lift, ret.

(** ** Facts about the built-ins *)

Module PyFacts.

Lemma truthy_true (s : string) : truthy s = true <-> s <> EmptyString.
Proof. destruct s; simpl; split; congruence. Qed.

Lemma truthy_false (s : string) : truthy s = false <-> s = EmptyString.
Proof. destruct s; simpl; split; congruence. Qed.

Lemma nonempty_true (s : string) : nonempty s = true <-> s <> EmptyString.
Proof.
  unfold nonempty. destruct (String.eqb_spec s EmptyString); simpl; split; congruence.
Qed.

(** What [rstrip] removes entirely consisted of the stripped character. *)
Lemma rstrip_if_empty (p : ascii -> bool) (s : string) (c : ascii) :
  rstrip_if p s = EmptyString -> contains c s = true -> p c = true.
Proof.
  induction s as [|a r IH]; simpl; [discriminate|].
  destruct (rstrip_if p r) eqn:Hr; [|discriminate].
  destruct (p a) eqn:Hpa; [|discriminate].
  intros _ Hc. apply orb_true_iff in Hc as [Hc|Hc].
  - apply Ascii.eqb_eq in Hc. now subst.
  - now apply IH.
Qed.

(** [rstrip] keeps the first character unless it removes everything. *)
Lemma rstrip_if_head (p : ascii -> bool) (a : ascii) (r : string) :
  rstrip_if p (String a r) = EmptyString \/
  exists r', rstrip_if p (String a r) = String a r'.
Proof.
  simpl. destruct (rstrip_if p r).
  - destruct (p a); [now left | right; now eexists].
  - right; now eexists.
Qed.

Lemma rstrip_if_keeps (p : ascii -> bool) (a : ascii) (r : string) :
  p a = false -> rstrip_if p (String a r) <> EmptyString.
Proof.
  intros Hpa. simpl. destruct (rstrip_if p r); [rewrite Hpa|]; discriminate.
Qed.

(** Stripping the zeros and then the point of a text that has a point and
    does not begin with one leaves something. *)
Lemma strip_zeros_point_nonempty (a : ascii) (r : string) :
  a <> "."%char -> contains "." (String a r) = true ->
  rstrip "." (rstrip "0" (String a r)) <> EmptyString.
Proof.
  intros Ha Hc. unfold rstrip.
  destruct (rstrip_if_head (Ascii.eqb "0") a r) as [He|[r' He]].
  - apply rstrip_if_empty with (c := "."%char) in He; [discriminate | exact Hc].
  - rewrite He. apply rstrip_if_keeps.
    apply Ascii.eqb_neq. congruence.
Qed.

Lemma is_digit_digit_char (n : Z) : is_digit (digit_char (n mod 10)) = true.
Proof.
  assert (H : 0 <= n mod 10 < 10) by (apply Z.mod_pos_bound; lia).
  assert (E : n mod 10 = 0 \/ n mod 10 = 1 \/ n mod 10 = 2 \/ n mod 10 = 3 \/
              n mod 10 = 4 \/ n mod 10 = 5 \/ n mod 10 = 6 \/ n mod 10 = 7 \/
              n mod 10 = 8 \/ n mod 10 = 9) by lia.
  repeat (destruct E as [E|E]; [rewrite E; reflexivity|]).
  rewrite E; reflexivity.
Qed.

Lemma digits_fuel_head (fuel : nat) (n : Z) (acc : string) :
  is_digit (head "0" acc) = true ->
  is_digit (head "0" (digits_fuel fuel n acc)) = true /\
  (acc <> EmptyString -> digits_fuel fuel n acc <> EmptyString).
Proof.
  revert n acc. induction fuel as [|f IH]; intros n acc Hacc; simpl.
  - now split.
  - destruct (n <? 10).
    + simpl. split; [apply is_digit_digit_char | discriminate].
    + destruct (IH (n / 10) (String (digit_char (n mod 10)) acc)) as [H1 H2].
      * simpl. apply is_digit_digit_char.
      * split; [exact H1 | intros _; apply H2; discriminate].
Qed.

(** A decimal numeral starts with a digit. *)
Lemma digits_head (n : Z) :
  exists a r, digits n = String a r /\ is_digit a = true.
Proof.
  unfold digits. simpl.
  destruct (n <? 10).
  - do 2 eexists. split; [reflexivity | apply is_digit_digit_char].
  - destruct (digits_fuel_head (Z.to_nat (Z.log2 n)) (n / 10)
                (String (digit_char (n mod 10)) EmptyString)) as [H1 H2].
    + simpl. apply is_digit_digit_char.
    + destruct (digits_fuel _ _ _) as [|a r] eqn:E.
      * exfalso. apply H2; [discriminate | reflexivity].
      * now exists a, r.
Qed.

Lemma str_int_nonempty (n : Z) : str_int n <> EmptyString.
Proof.
  unfold str_int. destruct (n <? 0); [discriminate|].
  destruct (digits_head n) as (a & r & E & _). rewrite E. discriminate.
Qed.

Lemma layout_head (a : ascii) (r : string) (decpt : Z) :
  is_digit a = true ->
  exists b t, layout a r decpt = String b t /\ is_digit b = true.
Proof.
  intros Ha. unfold layout.
  destruct ((decpt <=? -4) || (16 <? decpt)).
  - now do 2 eexists.
  - destruct (decpt <=? 0) eqn:Hd.
    + do 2 eexists. split; reflexivity.
    + destruct (len (String a r) <=? decpt).
      * simpl. now do 2 eexists.
      * apply Z.leb_gt in Hd.
        destruct (Z.to_nat decpt) as [|k] eqn:Hk; [lia|].
        simpl. now do 2 eexists.
Qed.

(** The text of a float starts with a digit, a minus sign or a letter. *)
Lemma repr_magnitude_head (m e : Z) :
  exists b t, repr_magnitude m e = String b t /\ is_digit b = true.
Proof.
  unfold repr_magnitude.
  destruct (m =? 0); [do 2 eexists; split; reflexivity|].
  destruct (shortest 17 m e 1) as [c E].
  destruct (digits_head c) as (a & r & Hd & Ha).
  cbv zeta. rewrite Hd. unfold significant.
  apply layout_head; exact Ha.
Qed.

Lemma repr_float_head (x : float) :
  exists a r, repr_float x = String a r /\ a <> "."%char.
Proof.
  destruct x as [neg m e|neg|]; unfold repr_float.
  - destruct (repr_magnitude_head m e) as (b & t & Hb & Hdig). rewrite Hb.
    destruct neg.
    + do 2 eexists. split; [reflexivity | discriminate].
    + do 2 eexists. split; [reflexivity|].
      intros ->. discriminate.
  - destruct neg; do 2 eexists; (split; [reflexivity | discriminate]).
  - do 2 eexists; (split; [reflexivity | discriminate]).
Qed.

(** The trimmed text of a float is never empty. *)
Lemma trimmed_repr_nonempty (x : float) :
  let s := repr_float x in
  (if contains "." s then rstrip "." (rstrip "0" s) else s) <> EmptyString.
Proof.
  cbv zeta. destruct (repr_float_head x) as (a & r & E & Ha). rewrite E.
  destruct (contains "." (String a r)) eqn:Hc.
  - now apply strip_zeros_point_nonempty.
  - discriminate.
Qed.

End PyFacts.

(** ** Formatting and default validation *)

Module FormatFacts.

Import PyFacts.

Lemma numeric_text_nonempty (value : string) (as_int : bool) (v : string) :
  except_ValueError
    (if as_int then
       x <- float_of_str value ;;
       n <- int_of_float x ;;
       Ok (str_int n)
     else
       num <- float_of_str value ;;
       let s := repr_float num in
       Ok (if contains "." s then rstrip "." (rstrip "0" s) else s))
    (Ok value) = Ok v ->
  value <> EmptyString -> v <> EmptyString.
Proof.
  intros H Hv. unfold float_of_str in H.
  destruct (parse_float value) as [x|]; simpl in H.
  - destruct as_int; simpl in H.
    + destruct (int_of_float x) as [n|e] eqn:Hi; simpl in H.
      * injection H as <-. apply str_int_nonempty.
      * destruct e; try discriminate. now injection H as <-.
    + injection H as <-. apply trimmed_repr_nonempty.
  - destruct as_int; simpl in H; now injection H as <-.
Qed.

(** What [format_number] returns for a non-empty text is not empty. *)
Lemma array_format_number_nonempty (value : string) (as_int : bool) (v : string) :
  ArrayInput.format_number value as_int = Ok v ->
  value <> EmptyString -> v <> EmptyString.
Proof. apply numeric_text_nonempty. Qed.

Lemma matrix_format_number_nonempty (value : string) (as_int as_symbol : bool)
    (v : string) :
  MatrixInput.format_number value as_int as_symbol = Ok v ->
  value <> EmptyString -> v <> EmptyString.
Proof.
  unfold MatrixInput.format_number. destruct as_symbol.
  - intros [= <-]. auto.
  - apply numeric_text_nonempty.
Qed.

End FormatFacts.

(** ** The claims on formatting, validation and the wrappers *)

(** C1 (the code departs from the claim): on a cancelled session the real
    and the integer matrix wrappers do not return the cancellation marker,
    they raise [TypeError] while iterating over it; the array wrappers and
    the symbol wrapper return the marker. *)
Theorem matrix_wrappers_raise_on_cancel :
  MatrixInput.input_float_matrix 1 1 None [ESC; "x"%char] = Raised TypeError /\
  MatrixInput.input_int_matrix 1 1 None [ESC; "x"%char] = Raised TypeError /\
  MatrixInput.input_symbol_matrix 1 1 None [ESC; "x"%char] = Returned None /\
  ArrayInput.input_float_array 1 None [ESC; "x"%char] = Returned None /\
  ArrayInput.input_int_array 1 None [ESC; "x"%char] = Returned None.
Proof. repeat split. Qed.

(** C7 (the code departs from the claim): formatting the real text 1.5e20
    gives 1.5e+2, because the trailing zero of the exponent is stripped, and
    formatting that again gives 150; in both modules. *)
Theorem format_number_real_not_idempotent :
  ArrayInput.format_number "1.5e20" false = Ok "1.5e+2" /\
  ArrayInput.format_number "1.5e+2" false = Ok "150" /\
  MatrixInput.format_number "1.5e20" false false = Ok "1.5e+2" /\
  MatrixInput.format_number "1.5e+2" false false = Ok "150".
Proof. vm_compute. repeat split. Qed.

(** C8, as stated, fails: the text nan parses as a real number, and in
    integer mode the default validator of either module rejects it. *)
Lemma default_validator_int_rejects_nan :
  float_of_str "nan" = Ok NaN /\
  ArrayInput.default_validator true "nan" = Ok (false, ArrayInput.invalid_number) /\
  MatrixInput.default_validator true false "nan"
  = Ok (false, MatrixInput.invalid_number).
Proof. repeat split. Qed.

(** C8, amended: in real mode the default validator accepts exactly the
    texts that parse as a real number; in integer mode it accepts the texts
    that parse as a finite real number and rejects those that do not parse
    or parse as nan; a rejection carries the message asking for a valid
    number.  This holds in both modules. *)
Theorem default_validator_verdict (text : string) :
  let accept := Ok (true, EmptyString) in
  let real_verdict (reject : result (bool * string)) :=
    match parse_float text with
    | Some _ => accept
    | None => reject
    end in
  let int_verdict (v reject : result (bool * string)) :=
    match parse_float text with
    | Some (Finite _ _ _) => v = accept
    | Some NaN | None => v = reject
    | Some (Infinity _) => True
    end in
  ArrayInput.default_validator false text
    = real_verdict (Ok (false, ArrayInput.invalid_number)) /\
  MatrixInput.default_validator false false text
    = real_verdict (Ok (false, MatrixInput.invalid_number)) /\
  int_verdict (ArrayInput.default_validator true text)
    (Ok (false, ArrayInput.invalid_number)) /\
  int_verdict (MatrixInput.default_validator true false text)
    (Ok (false, MatrixInput.invalid_number)).
Proof.
  cbv zeta.
  unfold ArrayInput.default_validator, MatrixInput.default_validator, float_of_str.
  destruct (parse_float text) as [[neg m e|neg|]|]; repeat split.
Qed.

(** ** One turn of the editors *)

Module StepFacts.

Import PyFacts.

(** A text that passes the format check of a numeric mode parses as the
    base kind. *)
Lemma format_check_parses (as_int : bool) (text : string) (u : unit) :
  MatrixInput.format_check as_int false text = Ok u ->
  Spec.parses_as_base as_int text.
Proof.
  unfold MatrixInput.format_check, Spec.parses_as_base. intros H.
  destruct (float_of_str text) as [x|e]; simpl in H.
  - exists x. split; [reflexivity|]. intros ->. simpl in H.
    destruct (int_of_float x) as [n|e]; [now exists n | discriminate].
  - destruct as_int; discriminate.
Qed.

(** The matrix editor's [Enter] on an empty buffer does nothing. *)
Lemma matrix_enter_empty (rows cols : Z) (as_int as_symbol : bool)
    (validate : validator) (st : MatrixInput.state) :
  MatrixInput.current_value st = EmptyString ->
  MatrixInput.on_enter rows cols as_int as_symbol validate st = (Ok None, st).
Proof.
  intros H. unfold MatrixInput.on_enter. unfold_monad. now rewrite H.
Qed.

(** The texts handed to the validator by one [Enter] of the matrix editor. *)
Lemma matrix_enter_validated (rows cols : Z) (as_int as_symbol : bool)
    (validate : validator) (st st' : MatrixInput.state)
    (r : result (option MatrixInput.grid)) :
  MatrixInput.on_enter rows cols as_int as_symbol validate st = (r, st') ->
  MatrixInput.validated st' = MatrixInput.validated st \/
  (MatrixInput.validated st'
     = MatrixInput.current_value st :: MatrixInput.validated st /\
   MatrixInput.current_value st <> EmptyString /\
   MatrixInput.format_check as_int as_symbol (MatrixInput.current_value st) = Ok tt).
Proof.
  unfold MatrixInput.on_enter. unfold_monad. intros H.
  destruct (truthy (MatrixInput.current_value st)) eqn:Ht.
  2:{ injection H as _ <-. now left. }
  apply truthy_true in Ht.
  destruct (MatrixInput.format_check as_int as_symbol (MatrixInput.current_value st))
    as [[]|e] eqn:Hc.
  2:{ destruct e; injection H as _ <-; now left. }
  right. split; [|now split].
  simpl in H. branches H; injection H as _ <-; reflexivity.
Qed.

End StepFacts.

(** ** Lists, ranges and loops *)

Module LoopFacts.

Lemma in_range_from (x a : Z) (n : nat) :
  In x (range_from a n) <-> a <= x < a + Z.of_nat n.
Proof.
  revert a. induction n as [|n IH]; intros a; simpl.
  - lia.
  - rewrite IH. lia.
Qed.

Lemma in_range (x a b : Z) : In x (range a b) <-> a <= x < b.
Proof. unfold range. rewrite in_range_from. lia. Qed.

Lemma range_from_app (a : Z) (n k : nat) :
  range_from a (n + k) = range_from a n ++ range_from (a + Z.of_nat n) k.
Proof.
  revert a. induction n as [|n IH]; intros a.
  - simpl. f_equal. lia.
  - cbn [Nat.add range_from app]. f_equal. rewrite IH. do 2 f_equal. lia.
Qed.

Lemma range_split (a b c : Z) :
  a <= b <= c -> range a c = range a b ++ range b c.
Proof.
  intros H. unfold range.
  replace (Z.to_nat (c - a)) with (Z.to_nat (b - a) + Z.to_nat (c - b))%nat by lia.
  rewrite range_from_app. do 2 f_equal. lia.
Qed.

Lemma range_first (a b : Z) : a < b -> range a b = a :: range (a + 1) b.
Proof.
  intros H. unfold range.
  replace (Z.to_nat (b - a)) with (S (Z.to_nat (b - (a + 1)))) by lia.
  reflexivity.
Qed.

Lemma filter_all {A : Type} (f : A -> bool) (l : list A) :
  (forall x, In x l -> f x = true) -> filter f l = l.
Proof.
  induction l as [|x l IH]; intros H; simpl; [reflexivity|].
  rewrite (H x (or_introl eq_refl)). f_equal. apply IH. intros; apply H; now right.
Qed.

Lemma filter_none {A : Type} (f : A -> bool) (l : list A) :
  (forall x, In x l -> f x = false) -> filter f l = [].
Proof.
  induction l as [|x l IH]; intros H; simpl; [reflexivity|].
  rewrite (H x (or_introl eq_refl)). apply IH. intros; apply H; now right.
Qed.

Lemma filter_agree {A : Type} (f g : A -> bool) (l : list A) :
  (forall x, In x l -> f x = g x) -> filter f l = filter g l.
Proof.
  induction l as [|x l IH]; intros H; simpl; [reflexivity|].
  rewrite (H x (or_introl eq_refl)), IH; [reflexivity|]. intros; apply H; now right.
Qed.

Lemma filter_map_swap {A B : Type} (f : B -> bool) (g : A -> B) (l : list A) :
  filter f (map g l) = map g (filter (fun x => f (g x)) l).
Proof.
  induction l as [|x l IH]; simpl; [reflexivity|].
  rewrite IH. now destruct (f (g x)).
Qed.

Lemma filter_flat_map_swap {A B : Type} (f : B -> bool) (g : A -> list B)
    (l : list A) :
  filter f (flat_map g l) = flat_map (fun x => filter f (g x)) l.
Proof.
  induction l as [|x l IH]; simpl; [reflexivity|].
  now rewrite filter_app, IH.
Qed.

Lemma flat_map_agree {A B : Type} (f g : A -> list B) (l : list A) :
  (forall x, In x l -> f x = g x) -> flat_map f l = flat_map g l.
Proof.
  induction l as [|x l IH]; intros H; simpl; [reflexivity|].
  rewrite (H x (or_introl eq_refl)), IH; [reflexivity|]. intros; apply H; now right.
Qed.

Lemma flat_map_nil {A B : Type} (f : A -> list B) (l : list A) :
  (forall x, In x l -> f x = []) -> flat_map f l = [].
Proof.
  induction l as [|x l IH]; intros H; simpl; [reflexivity|].
  rewrite (H x (or_introl eq_refl)), IH; [reflexivity|]. intros; apply H; now right.
Qed.

Lemma find_append {A : Type} (f : A -> bool) (l l' : list A) :
  find f (l ++ l') = match find f l with
                     | Some x => Some x
                     | None => find f l'
                     end.
Proof.
  induction l as [|x l IH]; simpl; [reflexivity|]. now destruct (f x).
Qed.

Lemma find_nothing {A : Type} (f : A -> bool) (l : list A) :
  find f l = None <-> forall x, In x l -> f x = false.
Proof.
  split; [apply find_none|].
  induction l as [|x l IH]; intros H; simpl; [reflexivity|].
  rewrite (H x (or_introl eq_refl)). apply IH. intros; apply H; now right.
Qed.

(** The columns above a bound, and those below one. *)
Lemma filter_range_above (c cols : Z) :
  0 <= c + 1 ->
  filter (fun j => c <? j) (range 0 cols) = range (c + 1) cols.
Proof.
  intros H. destruct (Z.le_gt_cases (c + 1) cols) as [Hle|Hgt].
  - rewrite (range_split 0 (c + 1) cols) by lia. rewrite filter_app.
    rewrite filter_none, filter_all; [reflexivity| |];
      intros x Hx; apply in_range in Hx; lia.
  - rewrite filter_none.
    + unfold range. now replace (Z.to_nat (cols - (c + 1))) with O by lia.
    + intros x Hx; apply in_range in Hx; lia.
Qed.

(** A loop over a range that breaks from some bound on runs over the
    elements below the bound. *)
Lemma for_loop_break {B : Type} (bound : Z) (f : Z -> result (control B))
    (a : Z) (n : nat) :
  for_loop (range_from a n) (fun j => if bound <=? j then Ok Break else f j)
  = for_loop (filter (fun j => j <? bound) (range_from a n)) f.
Proof.
  revert a. induction n as [|n IH]; intros a; [reflexivity|].
  cbn [range_from for_loop filter].
  destruct (Z.leb_spec bound a) as [Hb|Hb].
  - replace (a <? bound) with false by lia. simpl.
    rewrite filter_none; [reflexivity|].
    intros x Hx. apply in_range_from in Hx. lia.
  - replace (a <? bound) with true by lia. cbn [for_loop].
    destruct (f a) as [[| |b]|e]; simpl; auto.
Qed.

(** A loop that returns the first element passing a test. *)
Lemma for_loop_find {A B : Type} (l : list A) (body : A -> result (control B))
    (test : A -> bool) (value : A -> B) :
  (forall x, In x l -> body x = Ok (if test x then Return (value x) else Next)) ->
  for_loop l body = Ok (option_map value (find test l)).
Proof.
  induction l as [|x l IH]; intros H; simpl; [reflexivity|].
  rewrite (H x (or_introl eq_refl)). simpl.
  destruct (test x); [reflexivity|]. apply IH. intros; apply H; now right.
Qed.

(** Two nested loops that return the first pair passing a test. *)
Lemma for_loop_nested {A B : Type} (l : list A) (inner : A -> list B)
    (body : A -> B -> result (control (A * B))) (test : A * B -> bool) :
  (forall x y, In x l -> In y (inner x) ->
     body x y = Ok (if test (x, y) then Return (x, y) else Next)) ->
  for_loop l (fun x =>
    found <- for_loop (inner x) (body x) ;; Ok (propagate found))
  = Ok (find test (flat_map (fun x => map (pair x) (inner x)) l)).
Proof.
  induction l as [|x l IH]; intros H; simpl; [reflexivity|].
  rewrite (for_loop_find (inner x) (body x) (fun y => test (x, y)) (pair x)).
  2:{ intros y Hy. apply H; [now left | exact Hy]. }
  simpl. rewrite find_append.
  assert (E : find test (map (pair x) (inner x))
              = option_map (pair x) (find (fun y => test (x, y)) (inner x))).
  { clear. induction (inner x) as [|y t IHt]; simpl; [reflexivity|].
    now destruct (test (x, y)). }
  rewrite E. destruct (find (fun y => test (x, y)) (inner x)); simpl; [reflexivity|].
  apply IH. intros; apply H; [now right | assumption].
Qed.

(** Reading and assigning list elements. *)
Lemma getitem_inside {A : Type} (l : list A) (i : Z) :
  0 <= i < Z.of_nat (List.length l) ->
  exists x, getitem l i = Ok x /\ nth_error l (Z.to_nat i) = Some x.
Proof.
  intros H. unfold getitem, index_of.
  replace (i <? 0) with false by lia.
  replace ((0 <=? i) && (i <? Z.of_nat (List.length l))) with true by lia.
  simpl. destruct (nth_error l (Z.to_nat i)) as [x|] eqn:E.
  - now exists x.
  - apply nth_error_None in E. lia.
Qed.

Lemma setitem_inside {A : Type} (l : list A) (i : Z) (v : A) :
  0 <= i < Z.of_nat (List.length l) ->
  setitem l i v = Ok (update l (Z.to_nat i) v).
Proof.
  intros H. unfold setitem, index_of.
  replace (i <? 0) with false by lia.
  now replace ((0 <=? i) && (i <? Z.of_nat (List.length l))) with true by lia.
Qed.

Lemma update_length {A : Type} (l : list A) (j : nat) (v : A) :
  List.length (update l j v) = List.length l.
Proof.
  revert j. induction l as [|x l IH]; intros [|j]; simpl; auto.
Qed.

Lemma update_nth_same {A : Type} (l : list A) (j : nat) (v : A) :
  (j < List.length l)%nat -> nth_error (update l j v) j = Some v.
Proof.
  revert j. induction l as [|x l IH]; intros [|j] H; simpl in *; try lia; auto.
  apply IH. lia.
Qed.

Lemma update_nth_other {A : Type} (l : list A) (j k : nat) (v : A) :
  j <> k -> nth_error (update l j v) k = nth_error l k.
Proof.
  revert j k. induction l as [|x l IH]; intros [|j] [|k] H; simpl; auto; try lia.
Qed.

Lemma update_forall {A : Type} (P : A -> Prop) (l : list A) (j : nat) (v : A) :
  Forall P l -> P v -> Forall P (update l j v).
Proof.
  intros Hl Hv. revert j. induction Hl as [|x l Hx Hl IH]; intros [|j]; simpl; auto.
Qed.

End LoopFacts.

(** ** The grid of the matrix editor and its two scans *)

Module ScanFacts.

Import LoopFacts.
Import MatrixInput.

Lemma for_loop_agree {A B : Type} (l : list A) (f g : A -> result (control B)) :
  (forall x, In x l -> f x = g x) -> for_loop l f = for_loop l g.
Proof.
  induction l as [|x l IH]; intros H; simpl; [reflexivity|].
  rewrite (H x (or_introl eq_refl)).
  destruct (g x) as [[| |b]|e]; simpl; auto.
  apply IH. intros; apply H; now right.
Qed.

Lemma in_row_major (rows cols : Z) (p : Z * Z) :
  In p (Spec.row_major rows cols) <-> 0 <= fst p < rows /\ 0 <= snd p < cols.
Proof.
  unfold Spec.row_major. rewrite in_flat_map. split.
  - intros (i & Hi & Hp). apply in_map_iff in Hp as (j & <- & Hj).
    apply in_range in Hi, Hj. simpl. lia.
  - intros [Hi Hj]. exists (fst p). split; [apply in_range; lia|].
    apply in_map_iff. exists (snd p). split; [now destruct p | apply in_range; lia].
Qed.

(** Inside a grid of the right shape every cell can be read. *)
Lemma cell_inside (rows cols : Z) (m : grid) (i j : Z) :
  Spec.shaped rows cols m -> 0 <= i < rows -> 0 <= j < cols ->
  exists r c, nth_error m (Z.to_nat i) = Some r /\
              nth_error r (Z.to_nat j) = Some c /\
              cell m i j = Ok c.
Proof.
  intros [Hlen Hrows] Hi Hj.
  destruct (getitem_inside m i) as (r & Hg & Hn); [lia|].
  assert (Hr : List.length r = Z.to_nat cols).
  { apply nth_error_In in Hn. rewrite Forall_forall in Hrows. now apply Hrows. }
  destruct (getitem_inside r j) as (c & Hg' & Hn'); [lia|].
  exists r, c. repeat split; auto.
  unfold cell. rewrite Hg. simpl. exact Hg'.
Qed.

Lemma scan_body (rows cols : Z) (m : grid) (i j : Z) :
  Spec.shaped rows cols m -> 0 <= i < rows -> 0 <= j < cols ->
  (c <- cell m i j ;; Ok (if String.eqb c EmptyString then Return (i, j) else Next))
  = Ok (if Spec.empty_at m (i, j) then Return (i, j) else Next).
Proof.
  intros Hm Hi Hj. destruct (cell_inside rows cols m i j Hm Hi Hj) as (r & c & _ & _ & E).
  unfold Spec.empty_at. simpl fst. simpl snd. rewrite E. reflexivity.
Qed.

(** [find_next_empty] finds the first empty cell after the given one in
    row-major order. *)
Lemma find_next_empty_spec (rows cols : Z) (m : grid) (row col : Z) :
  Spec.shaped rows cols m -> 0 <= row < rows -> 0 <= col < cols ->
  find_next_empty rows cols m row col
  = Ok (Spec.first_empty_after rows cols m (row, col)).
Proof.
  intros Hm Hr Hc. unfold find_next_empty. cbv zeta.
  rewrite (for_loop_nested (range row rows)
             (fun i => range (if i =? row then col + 1 else 0) cols)
             (fun i j => c <- cell m i j ;;
                Ok (if String.eqb c EmptyString then Return (i, j) else Next))
             (Spec.empty_at m)).
  2:{ intros i j Hi Hj. apply in_range in Hi, Hj.
      apply (scan_body rows cols); auto; [lia|].
      destruct (i =? row); lia. }
  unfold Spec.first_empty_after, Spec.row_major. do 2 f_equal.
  rewrite filter_flat_map_swap, (range_split 0 row rows) by lia.
  rewrite flat_map_app, (flat_map_nil _ (range 0 row)).
  2:{ intros i Hi. apply in_range in Hi. apply filter_none.
      intros q Hq. apply in_map_iff in Hq as (j & <- & _).
      unfold Spec.precedes. simpl. lia. }
  simpl. apply flat_map_agree. intros i Hi. apply in_range in Hi.
  rewrite filter_map_swap. f_equal.
  destruct (Z.eqb_spec i row) as [->|Hne].
  - rewrite <- filter_range_above by lia. apply filter_agree.
    intros j _. unfold Spec.precedes. simpl. lia.
  - symmetry. apply filter_all. intros j _. unfold Spec.precedes. simpl. lia.
Qed.

(** [find_prev_empty] finds the first empty cell before the given one in
    row-major order. *)
Lemma find_prev_empty_spec (rows cols : Z) (m : grid) (row col : Z) :
  Spec.shaped rows cols m -> 0 <= row < rows -> 0 <= col < cols ->
  find_prev_empty cols m row col
  = Ok (Spec.first_empty_before rows cols m (row, col)).
Proof.
  intros Hm Hr Hc. unfold find_prev_empty.
  set (below := fun i j : Z => negb (i =? row) || (j <? col)).
  set (body := fun i j : Z => c <- cell m i j ;;
                 Ok (if String.eqb c EmptyString then Return (i, j) else Next)).
  rewrite (for_loop_agree _ _
             (fun i => found <- for_loop (filter (below i) (range 0 cols)) (body i) ;;
                       Ok (propagate found))).
  2:{ intros i _. f_equal. unfold below. destruct (i =? row); simpl.
      - unfold range. apply (for_loop_break col (body i)).
      - rewrite filter_all by reflexivity. reflexivity. }
  rewrite (for_loop_nested (range 0 (row + 1)) (fun i => filter (below i) (range 0 cols))
             body (Spec.empty_at m)).
  2:{ intros i j Hi Hj. apply in_range in Hi. apply filter_In in Hj as [Hj _].
      apply in_range in Hj. apply (scan_body rows cols); auto; lia. }
  unfold Spec.first_empty_before, Spec.row_major. do 2 f_equal.
  rewrite filter_flat_map_swap, (range_split 0 (row + 1) rows) by lia.
  rewrite flat_map_app, (flat_map_nil _ (range (row + 1) rows)).
  2:{ intros i Hi. apply in_range in Hi. apply filter_none.
      intros q Hq. apply in_map_iff in Hq as (j & <- & _).
      unfold Spec.precedes. simpl. lia. }
  rewrite app_nil_r. apply flat_map_agree. intros i Hi. apply in_range in Hi.
  rewrite filter_map_swap. f_equal. apply filter_agree.
  intros j _. unfold below, Spec.precedes. simpl. lia.
Qed.

(** Assigning a cell of the grid. *)
Lemma set_cell_inside (rows cols : Z) (m : grid) (i j : Z) (v : string) :
  Spec.shaped rows cols m -> 0 <= i < rows -> 0 <= j < cols ->
  exists r, nth_error m (Z.to_nat i) = Some r /\
            set_cell m i j v
            = Ok (update m (Z.to_nat i) (update r (Z.to_nat j) v)).
Proof.
  intros Hm Hi Hj.
  destruct (cell_inside rows cols m i j Hm Hi Hj) as (r & c & Hn & Hn' & _).
  destruct Hm as [Hlen Hrows].
  assert (Hr : List.length r = Z.to_nat cols).
  { apply nth_error_In in Hn. rewrite Forall_forall in Hrows. now apply Hrows. }
  exists r. split; [exact Hn|].
  unfold set_cell.
  destruct (getitem_inside m i) as (r' & Hg & Hn''); [lia|].
  rewrite Hg. simpl. assert (r' = r) by congruence. subst r'.
  rewrite setitem_inside by lia. simpl.
  apply setitem_inside. lia.
Qed.

Lemma set_cell_shaped (rows cols : Z) (m m' : grid) (i j : Z) (v : string) :
  Spec.shaped rows cols m -> 0 <= i < rows -> 0 <= j < cols ->
  set_cell m i j v = Ok m' -> Spec.shaped rows cols m'.
Proof.
  intros Hm Hi Hj H.
  destruct (set_cell_inside rows cols m i j v Hm Hi Hj) as (r & Hn & E).
  rewrite E in H. injection H as <-. destruct Hm as [Hlen Hrows]. split.
  - now rewrite update_length.
  - apply update_forall; [exact Hrows|]. rewrite update_length.
    apply nth_error_In in Hn. rewrite Forall_forall in Hrows. now apply Hrows.
Qed.

(** The cells of the grid after an assignment. *)
Lemma set_cell_read (rows cols : Z) (m m' : grid) (i j : Z) (v : string) (i' j' : Z) :
  Spec.shaped rows cols m -> 0 <= i < rows -> 0 <= j < cols ->
  set_cell m i j v = Ok m' ->
  0 <= i' < rows -> 0 <= j' < cols ->
  cell m' i' j' = if (i' =? i) && (j' =? j) then Ok v else cell m i' j'.
Proof.
  intros Hm Hi Hj H Hi' Hj'.
  pose proof (set_cell_shaped rows cols m m' i j v Hm Hi Hj H) as Hm'.
  destruct (set_cell_inside rows cols m i j v Hm Hi Hj) as (r & Hn & E).
  rewrite E in H. injection H as <-.
  destruct (cell_inside rows cols _ i' j' Hm' Hi' Hj') as (r1 & c1 & Hr1 & Hc1 & ->).
  destruct (cell_inside rows cols m i' j' Hm Hi' Hj') as (r0 & c0 & Hr0 & Hc0 & ->).
  assert (Hlen : (Z.to_nat i < List.length m)%nat) by (destruct Hm; lia).
  assert (Hlenr : (Z.to_nat j < List.length r)%nat).
  { destruct Hm as [_ Hrows]. apply nth_error_In in Hn.
    rewrite Forall_forall in Hrows. apply Hrows in Hn. lia. }
  destruct (Z.eqb_spec i' i) as [->|Hne]; simpl.
  - rewrite update_nth_same in Hr1 by exact Hlen. injection Hr1 as <-.
    assert (r0 = r) by congruence. subst r0.
    destruct (Z.eqb_spec j' j) as [->|Hne'].
    + rewrite update_nth_same in Hc1 by exact Hlenr. congruence.
    + rewrite update_nth_other in Hc1 by lia. congruence.
  - rewrite update_nth_other in Hr1 by lia. congruence.
Qed.

(** The completion test, cell by cell. *)
Lemma complete_iff (rows cols : Z) (m : grid) :
  Spec.shaped rows cols m ->
  is_matrix_complete m = true <->
  forall p, In p (Spec.row_major rows cols) -> Spec.empty_at m p = false.
Proof.
  intros Hm. unfold is_matrix_complete. rewrite forallb_forall. split.
  - intros H [i j] Hp. apply in_row_major in Hp as [Hi Hj]. simpl in Hi, Hj.
    destruct (cell_inside rows cols m i j Hm Hi Hj) as (r & c & Hr & Hc & E).
    unfold Spec.empty_at. simpl fst. simpl snd. rewrite E.
    apply nth_error_In in Hr, Hc. specialize (H r Hr).
    rewrite forallb_forall in H. specialize (H c Hc).
    unfold nonempty in H. now destruct (String.eqb c EmptyString).
  - intros H r Hr. apply forallb_forall. intros c Hc.
    apply In_nth_error in Hr as [i Hi]. apply In_nth_error in Hc as [j Hj].
    assert (Bi : (i < List.length m)%nat) by (apply nth_error_Some; congruence).
    assert (Bj : (j < List.length r)%nat) by (apply nth_error_Some; congruence).
    assert (Lr : List.length r = Z.to_nat cols).
    { destruct Hm as [_ Hrows]. rewrite Forall_forall in Hrows.
      apply Hrows. eapply nth_error_In; eauto. }
    assert (Ri : 0 <= Z.of_nat i < rows) by (destruct Hm; lia).
    assert (Rj : 0 <= Z.of_nat j < cols) by lia.
    specialize (H (Z.of_nat i, Z.of_nat j)).
    rewrite in_row_major in H. specialize (H (conj Ri Rj)).
    destruct (cell_inside rows cols m _ _ Hm Ri Rj) as (r' & c' & Hr' & Hc' & E).
    rewrite Nat2Z.id in Hr', Hc'.
    assert (r' = r) by congruence. subst r'.
    assert (c' = c) by congruence. subst c'.
    unfold Spec.empty_at in H. simpl fst in H. simpl snd in H. rewrite E in H.
    unfold nonempty. now rewrite H.
Qed.

Lemma precedes_cases (p q : Z * Z) :
  p = q \/ Spec.precedes p q = true \/ Spec.precedes q p = true.
Proof.
  destruct p as [a b], q as [c d]. unfold Spec.precedes. simpl.
  destruct (Z.lt_trichotomy a c) as [H|[H|H]];
    destruct (Z.lt_trichotomy b d) as [H'|[H'|H']];
    try (left; f_equal; lia); try (right; left; lia); right; right; lia.
Qed.

End ScanFacts.

(** ** What [Enter] does, and what every run preserves *)

Module EnterFacts.

Import PyFacts StepFacts LoopFacts ScanFacts.

Section Matrix.

Import MatrixInput.

Variables rows cols : Z.
Variables as_int as_symbol : bool.
Variable validate : validator.

Local Abbreviation enter := (on_enter rows cols as_int as_symbol validate).

(** A successful commit, step by step. *)
Lemma matrix_enter_commit (st : state) (e formatted : string) (m' : grid)
    (next prev : option (Z * Z)) :
  current_value st <> EmptyString ->
  format_check as_int as_symbol (current_value st) = Ok tt ->
  validate (current_value st) = Ok (true, e) ->
  format_number (current_value st) as_int as_symbol = Ok formatted ->
  set_cell (matrix st) (current_row st) (current_col st) formatted = Ok m' ->
  find_next_empty rows cols m' (current_row st) (current_col st) = Ok next ->
  find_prev_empty cols m' (current_row st) (current_col st) = Ok prev ->
  enter st =
    match next with
    | Some p => (Ok None, set_cursor p (after_commit st m'))
    | None =>
        match prev with
        | Some p => (Ok None, set_cursor p (after_commit st m'))
        | None => (Ok (Some m'), after_commit st m')
        end
    end.
Proof.
  intros Hv Hc Hval Hf Hs Hn Hp. apply truthy_true in Hv.
  unfold on_enter. unfold_monad. rewrite Hv, Hc. simpl.
  rewrite Hval, Hf. simpl. rewrite Hs. simpl. rewrite Hn.
  destruct next as [p|]; [reflexivity|]. rewrite Hp.
  destruct prev as [p|]; reflexivity.
Qed.

(** A rejection by the format check. *)
Lemma matrix_enter_bad_format (st : state) :
  current_value st <> EmptyString ->
  format_check as_int as_symbol (current_value st) = Raise ValueError ->
  enter st = (Ok None, set_error invalid_number st).
Proof.
  intros Hv Hc. apply truthy_true in Hv.
  unfold on_enter. unfold_monad. now rewrite Hv, Hc.
Qed.

(** A rejection by the validator. *)
Lemma matrix_enter_rejected (st : state) (msg : string) :
  current_value st <> EmptyString ->
  format_check as_int as_symbol (current_value st) = Ok tt ->
  validate (current_value st) = Ok (false, msg) ->
  enter st = (Ok None, set_error msg (note_validated (current_value st) st)).
Proof.
  intros Hv Hc Hval. apply truthy_true in Hv.
  unfold on_enter. unfold_monad. rewrite Hv, Hc. simpl. now rewrite Hval.
Qed.

(** A [ValueError] of the validator is a rejection too. *)
Lemma matrix_enter_validator_error (st : state) :
  current_value st <> EmptyString ->
  format_check as_int as_symbol (current_value st) = Ok tt ->
  validate (current_value st) = Raise ValueError ->
  enter st
  = (Ok None, set_error invalid_number (note_validated (current_value st) st)).
Proof.
  intros Hv Hc Hval. apply truthy_true in Hv.
  unfold on_enter. unfold_monad. rewrite Hv, Hc. simpl. now rewrite Hval.
Qed.

(** Every way [Enter] can end: no cell is assigned, or the cell under the
    cursor receives the formatted text and the cursor stays or goes where
    one of the two scans says. *)
Lemma matrix_enter_inv (st st' : state) (r : result (option grid)) :
  enter st = (r, st') ->
  (matrix st' = matrix st /\ current_row st' = current_row st /\
   current_col st' = current_col st /\ committed st' = committed st /\
   r <> Ok (Some (matrix st')) /\ forall g, r <> Ok (Some g))
  \/
  (exists formatted,
     current_value st <> EmptyString /\
     format_number (current_value st) as_int as_symbol = Ok formatted /\
     set_cell (matrix st) (current_row st) (current_col st) formatted
       = Ok (matrix st') /\
     committed st' = (current_row st, current_col st) :: committed st /\
     ((current_row st' = current_row st /\ current_col st' = current_col st /\
       (forall g, r = Ok (Some g) ->
          g = matrix st' /\
          find_next_empty rows cols g (current_row st) (current_col st) = Ok None /\
          find_prev_empty cols g (current_row st) (current_col st) = Ok None))
      \/
      (r = Ok None /\
       (find_next_empty rows cols (matrix st') (current_row st) (current_col st)
          = Ok (Some (current_row st', current_col st')) \/
        find_prev_empty cols (matrix st') (current_row st) (current_col st)
          = Ok (Some (current_row st', current_col st')))))).
Proof.
  unfold on_enter. unfold_monad. intros H.
  destruct (truthy (current_value st)) eqn:Ht.
  2:{ injection H as <- <-. left. repeat split; congruence. }
  apply truthy_true in Ht.
  destruct (format_check as_int as_symbol (current_value st)) as [[]|e0] eqn:Hc.
  2:{ destruct e0; injection H as <- <-; left; repeat split; congruence. }
  simpl in H.
  destruct (validate (current_value st)) as [[[|] msg]|e0] eqn:Hval.
  2:{ injection H as <- <-. left. repeat split; congruence. }
  2:{ destruct e0; injection H as <- <-; left; repeat split; congruence. }
  destruct (format_number (current_value st) as_int as_symbol) as [f|e0] eqn:Hf.
  2:{ destruct e0; injection H as <- <-; left; repeat split; congruence. }
  simpl in H.
  destruct (set_cell (matrix st) (current_row st) (current_col st) f) as [m'|e0] eqn:Hs.
  2:{ destruct e0; injection H as <- <-; left; repeat split; congruence. }
  simpl in H. right. exists f.
  destruct (find_next_empty rows cols m' (current_row st) (current_col st))
    as [[[i j]|]|e0] eqn:Hn.
  - injection H as <- <-. simpl. repeat split; auto.
  - destruct (find_prev_empty cols m' (current_row st) (current_col st))
      as [[[i j]|]|e0] eqn:Hp.
    + injection H as <- <-. simpl. repeat split; auto.
    + injection H as <- <-. simpl.
      do 4 (split; [auto|]). left.
      do 2 (split; [reflexivity|]). intros g [= <-]. auto.
    + destruct e0; injection H as <- <-; simpl;
        do 4 (split; [auto|]); left;
        do 2 (split; [reflexivity|]); intros g; discriminate.
  - destruct e0; injection H as <- <-; simpl;
      do 4 (split; [auto|]); left;
      do 2 (split; [reflexivity|]); intros g; discriminate.
Qed.

(** What holds at the start and is kept by every branch of the loop holds
    whenever the loop waits for a key. *)
Lemma matrix_loop_invariant (P : state -> Prop) :
  (forall st st', P st -> enter st = (Ok None, st') -> P st') ->
  (forall st, P st -> P (on_backspace st)) ->
  (forall d st, P st -> P (on_arrow rows cols d st)) ->
  (forall c st, P st -> P (on_char c st)) ->
  forall keys st st',
    P st -> loop rows cols as_int as_symbol validate st keys = Waiting st' -> P st'.
Proof.
  intros He Hb Ha Hc keys.
  assert (G : forall n keys, (List.length keys <= n)%nat -> forall st st',
             P st -> loop rows cols as_int as_symbol validate st keys = Waiting st' ->
             P st').
  { induction n as [|n IH]; intros ks Hlen st st' HP H.
    - destruct ks; [|simpl in Hlen; lia]. simpl in H. now injection H as <-.
    - destruct ks as [|char ks1]; [simpl in H; now injection H as <-|].
      simpl in Hlen. cbn [loop] in H.
      destruct (ord char =? 27).
      { destruct ks1 as [|next_char ks2]; [now injection H as <-|].
        simpl in Hlen.
        destruct (Ascii.eqb next_char "["); [|discriminate].
        destruct ks2 as [|direction ks3]; [now injection H as <-|].
        simpl in Hlen. apply (IH ks3) with (st := on_arrow rows cols direction st);
          [lia | now apply Ha | exact H]. }
      destruct (ord char =? 13).
      { destruct (enter st) as [[[g|]|e] st1] eqn:E;
          try discriminate.
        apply (IH ks1) with (st := st1); [lia | now apply (He st) | exact H]. }
      destruct (ord char =? 127).
      { apply (IH ks1) with (st := on_backspace st); [lia | now apply Hb | exact H]. }
      destruct (isprintable char).
      { apply (IH ks1) with (st := on_char char st); [lia | now apply Hc | exact H]. }
      apply (IH ks1) with (st := st); [lia | exact HP | exact H]. }
  intros st st'. apply (G (List.length keys)). lia.
Qed.

End Matrix.

Section Array.

Import ArrayInput.

Variable size : Z.
Variable as_int : bool.
Variable validate : validator.

Local Abbreviation enter := (on_enter size as_int validate).

(** Every way the array editor's [Enter] can return. *)
Lemma array_enter_inv (st st' : state) :
  enter st = Ok st' ->
  (array st' = array st /\ committed st' = committed st /\
   (current_pos st' = current_pos st \/
    current_pos st < size - 1 /\ current_pos st' = current_pos st + 1))
  \/
  (exists formatted,
     current_value st <> EmptyString /\
     format_number (current_value st) as_int = Ok formatted /\
     setitem (array st) (current_pos st) formatted = Ok (array st') /\
     committed st' = current_pos st :: committed st /\
     (current_pos st' = current_pos st \/
      current_pos st < size - 1 /\ current_pos st' = current_pos st + 1)).
Proof.
  unfold on_enter. intros H.
  destruct (truthy (current_value st)) eqn:Ht.
  - apply truthy_true in Ht.
    destruct (validate (current_value st)) as [[[|] msg]|e0]; simpl in H;
      try discriminate.
    + destruct (format_number (current_value st) as_int) as [f|e0] eqn:Hf;
        simpl in H; try discriminate.
      destruct (setitem (array st) (current_pos st) f) as [arr|e0] eqn:Hs;
        simpl in H; try discriminate.
      injection H as <-. right. exists f. simpl. repeat split; auto.
      destruct (Z.ltb_spec (current_pos st) (size - 1)); auto.
    + injection H as <-. left. simpl. auto.
  - left. destruct (Z.ltb_spec (current_pos st) (size - 1));
      injection H as <-; simpl; auto.
Qed.

Lemma array_loop_invariant (P : state -> Prop) :
  (forall st st', P st -> enter st = Ok st' -> P st') ->
  (forall st, P st -> P (on_backspace st)) ->
  (forall d st, P st -> P (on_arrow size d st)) ->
  (forall c st, P st -> P (on_char c st)) ->
  forall keys st st',
    P st -> loop size as_int validate st keys = Waiting st' -> P st'.
Proof.
  intros He Hb Ha Hc keys.
  assert (T : forall (next : state -> outcome state (option (list string)))
                (r : result state) st',
             (forall s, next s = Waiting st' -> P s -> P st') ->
             (forall s, r = Ok s -> P s) ->
             turn_end next r = Waiting st' -> P st').
  { intros next r st' Hnext Hr H. unfold turn_end in H.
    destruct r as [s|e]; [|discriminate].
    destruct (is_complete s); [discriminate|].
    apply (Hnext s H). now apply Hr. }
  assert (G : forall n keys, (List.length keys <= n)%nat -> forall st st',
             P st -> loop size as_int validate st keys = Waiting st' -> P st').
  { induction n as [|n IH]; intros ks Hlen st st' HP H.
    - destruct ks; [|simpl in Hlen; lia]. simpl in H. now injection H as <-.
    - destruct ks as [|char ks1]; [simpl in H; now injection H as <-|].
      simpl in Hlen. cbn [loop] in H.
      destruct (Ascii.eqb char CR || Ascii.eqb char LF).
      { apply T in H; auto.
        - intros s Hs Ps. apply (IH ks1) with (st := s); [lia | auto | auto].
        - intros s Hs. now apply (He st). }
      destruct (Ascii.eqb char DEL).
      { apply T in H; auto.
        - intros s Hs Ps. apply (IH ks1) with (st := s); [lia | auto | auto].
        - intros s [= <-]. now apply Hb. }
      destruct (Ascii.eqb char ESC).
      { destruct ks1 as [|next_char ks2]; [now injection H as <-|].
        simpl in Hlen.
        destruct (Ascii.eqb next_char "["); [|discriminate].
        destruct ks2 as [|direction ks3]; [now injection H as <-|].
        simpl in Hlen. apply T in H; auto.
        - intros s Hs Ps. apply (IH ks3) with (st := s); [lia | auto | auto].
        - intros s [= <-]. now apply Ha. }
      destruct (isprintable char).
      { apply T in H; auto.
        - intros s Hs Ps. apply (IH ks1) with (st := s); [lia | auto | auto].
        - intros s [= <-]. now apply Hc. }
      apply T in H; auto.
      + intros s Hs Ps. apply (IH ks1) with (st := s); [lia | auto | auto].
      + now intros s [= <-]. }
  intros st st'. apply (G (List.length keys)). lia.
Qed.

End Array.

End EnterFacts.

(** ** What holds in every state a session reaches *)

Module RunFacts.

Import PyFacts LoopFacts ScanFacts EnterFacts FormatFacts.

Lemma index_of_nonneg {A : Type} (l : list A) (i : Z) (j : nat) :
  0 <= i -> index_of l i = Ok j ->
  j = Z.to_nat i /\ (j < List.length l)%nat.
Proof.
  intros Hi. unfold index_of. replace (i <? 0) with false by lia.
  destruct ((0 <=? i) && (i <? Z.of_nat (List.length l))) eqn:E; [|discriminate].
  intros [= <-]. lia.
Qed.

Lemma getitem_nonneg {A : Type} (l : list A) (i : Z) (x : A) :
  0 <= i -> getitem l i = Ok x ->
  (Z.to_nat i < List.length l)%nat /\ nth_error l (Z.to_nat i) = Some x.
Proof.
  intros Hi. unfold getitem.
  destruct (index_of l i) as [j|e] eqn:E; [|discriminate]. simpl.
  apply index_of_nonneg in E as [-> Hj]; [|exact Hi].
  destruct (nth_error l (Z.to_nat i)); [|discriminate].
  intros [= <-]. auto.
Qed.

Lemma setitem_nonneg {A : Type} (l l' : list A) (i : Z) (v : A) :
  0 <= i -> setitem l i v = Ok l' ->
  (Z.to_nat i < List.length l)%nat /\ l' = update l (Z.to_nat i) v.
Proof.
  intros Hi. unfold setitem.
  destruct (index_of l i) as [j|e] eqn:E; [|discriminate]. simpl.
  apply index_of_nonneg in E as [-> Hj]; [|exact Hi].
  intros [= <-]. auto.
Qed.

(** An assignment that succeeds was on the grid. *)
Lemma set_cell_on_grid (rows cols : Z) (m m' : MatrixInput.grid) (i j : Z)
    (v : string) :
  Spec.shaped rows cols m -> 0 <= i -> 0 <= j ->
  MatrixInput.set_cell m i j v = Ok m' -> i < rows /\ j < cols.
Proof.
  intros [Hlen Hrows] Hi Hj. unfold MatrixInput.set_cell.
  destruct (getitem m i) as [r|e] eqn:Hg; [|discriminate]. simpl.
  apply getitem_nonneg in Hg as [Hb Hn]; [|exact Hi].
  destruct (setitem r j v) as [r'|e] eqn:Hs; [|discriminate]. simpl. intros _.
  apply setitem_nonneg in Hs as [Hb' _]; [|exact Hj].
  apply nth_error_In in Hn. rewrite Forall_forall in Hrows. apply Hrows in Hn. lia.
Qed.

Section Array.

Import ArrayInput.

Variable size : Z.
Variable as_int : bool.
Variable validate : validator.

Local Abbreviation array_inv := (Spec.array_inv size).

Lemma array_inv_initial : array_inv (initial size).
Proof.
  unfold Spec.array_inv, initial. simpl. rewrite repeat_length.
  split; [reflexivity|]. split; [lia|]. split; [lia|].
  intros i c Hi Hn. apply nth_error_In, repeat_spec in Hn. subst c.
  split; [congruence | intros []].
Qed.

Lemma array_inv_enter (st st' : state) :
  array_inv st -> on_enter size as_int validate st = Ok st' -> array_inv st'.
Proof.
  intros (Hlen & Hpos & Hup & Hcells) H.
  apply array_enter_inv in H
    as [(Ha & Hc & Hp)|(f & Hv & Hf & Hs & Hc & Hp)].
  - unfold Spec.array_inv. rewrite Ha, Hc.
    split; [exact Hlen|]. split; [lia|]. split; [lia|]. exact Hcells.
  - apply setitem_nonneg in Hs as [Hb Ha]; [|exact Hpos].
    unfold Spec.array_inv. rewrite Ha, Hc, update_length.
    split; [exact Hlen|]. split; [lia|]. split; [lia|].
    intros i c Hi Hn. destruct (Z.eq_dec i (current_pos st)) as [->|Hne].
    + rewrite update_nth_same in Hn by exact Hb. injection Hn as <-.
      split; [intros _; now left|].
      intros _. eapply array_format_number_nonempty; eauto.
    + rewrite update_nth_other in Hn by lia.
      rewrite (Hcells i c Hi Hn). simpl. split; [auto|].
      intros [E|E]; [congruence | exact E].
Qed.

Lemma array_inv_run (keys : list ascii) (st : state) :
  loop size as_int validate (initial size) keys = Waiting st -> array_inv st.
Proof.
  apply (array_loop_invariant size as_int validate array_inv).
  - apply array_inv_enter.
  - intros s Hs. unfold on_backspace. destruct (truthy (current_value s)); auto.
  - intros d s (Hlen & Hpos & Hup & Hcells). unfold on_arrow.
    destruct (Ascii.eqb d "D" && (0 <? current_pos s)) eqn:E1.
    + apply andb_prop in E1 as [_ E1]. unfold Spec.array_inv. simpl.
      split; [exact Hlen|]. split; [lia|]. split; [lia|]. exact Hcells.
    + destruct (Ascii.eqb d "C" && (current_pos s <? size - 1)) eqn:E2.
      * apply andb_prop in E2 as [_ E2]. unfold Spec.array_inv. simpl.
        split; [exact Hlen|]. split; [lia|]. split; [lia|]. exact Hcells.
      * unfold Spec.array_inv. auto.
  - intros c s Hs. exact Hs.
  - apply array_inv_initial.
Qed.

(** The completion test of the array editor, cell by cell. *)
Lemma array_complete_iff (st : state) :
  array_inv st ->
  is_complete st = true <-> Spec.all_committed_array size st.
Proof.
  intros (Hlen & _ & _ & Hcells). unfold is_complete, Spec.all_committed_array.
  rewrite forallb_forall. split.
  - intros H i Hi.
    destruct (nth_error (array st) (Z.to_nat i)) as [c|] eqn:E.
    + apply (Hcells i c Hi E). apply nonempty_true, H. eapply nth_error_In; eauto.
    + apply nth_error_None in E. lia.
  - intros H c Hc. apply In_nth_error in Hc as [k Hk].
    assert (Hb : (k < List.length (array st))%nat) by (apply nth_error_Some; congruence).
    apply nonempty_true.
    apply (Hcells (Z.of_nat k) c); [lia | now rewrite Nat2Z.id | apply H; lia].
Qed.

End Array.

Section Matrix.

Import MatrixInput.

Variables rows cols : Z.
Variables as_int as_symbol : bool.
Variable validate : validator.

Local Abbreviation matrix_inv := (Spec.matrix_inv rows cols).

Lemma initial_shaped : Spec.shaped rows cols (matrix (initial rows cols)).
Proof.
  unfold initial. simpl. split.
  - apply repeat_length.
  - apply Forall_forall. intros r Hr. apply repeat_spec in Hr. subst r.
    apply repeat_length.
Qed.

Lemma matrix_inv_initial : matrix_inv (initial rows cols).
Proof.
  split; [apply initial_shaped|]. unfold Spec.on_grid. simpl.
  split; [lia|]. split; [lia|]. split; [lia|].
  intros i j c Hi Hj Hcell.
  destruct (cell_inside rows cols _ i j initial_shaped Hi Hj)
    as (r & c' & Hr & Hc' & E).
  simpl in E. rewrite E in Hcell. injection Hcell as <-.
  simpl in Hr. apply nth_error_In, repeat_spec in Hr. subst r.
  apply nth_error_In, repeat_spec in Hc'. subst c'.
  split; [congruence | intros []].
Qed.

(** Where a scan sends the cursor is on the grid. *)
Lemma scan_target_on_grid (m : grid) (row col : Z) (p : Z * Z) :
  Spec.shaped rows cols m -> 0 <= row < rows -> 0 <= col < cols ->
  find_next_empty rows cols m row col = Ok (Some p) \/
  find_prev_empty cols m row col = Ok (Some p) ->
  0 <= fst p < rows /\ 0 <= snd p < cols.
Proof.
  intros Hm Hr Hc H. apply in_row_major.
  rewrite (find_next_empty_spec rows cols m row col Hm Hr Hc) in H.
  rewrite (find_prev_empty_spec rows cols m row col Hm Hr Hc) in H.
  destruct H as [[= H]|[= H]]; apply find_some in H as [H _];
    apply filter_In in H as [H _]; exact H.
Qed.

Lemma matrix_inv_enter (st st' : state) (r : result (option grid)) :
  matrix_inv st ->
  on_enter rows cols as_int as_symbol validate st = (r, st') -> matrix_inv st'.
Proof.
  intros (Hm & Hrow & Hcol & Hgrid & Hcells) H.
  apply matrix_enter_inv in H
    as [(Ha & Hr & Hc & Hco & _)|(f & Hv & Hf & Hs & Hco & Hcur)].
  - unfold Spec.matrix_inv, Spec.on_grid. rewrite Ha, Hr, Hc, Hco. auto.
  - destruct (set_cell_on_grid rows cols _ _ _ _ _ Hm Hrow Hcol Hs) as [Hr Hc].
    assert (Br : 0 <= current_row st < rows) by lia.
    assert (Bc : 0 <= current_col st < cols) by lia.
    pose proof (set_cell_shaped rows cols _ _ _ _ _ Hm Br Bc Hs) as Hm'.
    assert (Hcur' : 0 <= current_row st' < rows /\ 0 <= current_col st' < cols).
    { destruct Hcur as [(-> & -> & _)|(_ & Hfind)]; [lia|].
      apply (scan_target_on_grid _ _ _ _ Hm' Br Bc) in Hfind. exact Hfind. }
    unfold Spec.matrix_inv, Spec.on_grid. rewrite Hco.
    split; [exact Hm'|]. split; [lia|]. split; [lia|]. split; [intros; lia|].
    intros i j c Hi Hj Hcell.
    rewrite (set_cell_read rows cols _ _ _ _ _ i j Hm Br Bc Hs Hi Hj) in Hcell.
    destruct (Z.eqb_spec i (current_row st)) as [->|Hne]; simpl in Hcell.
    + destruct (Z.eqb_spec j (current_col st)) as [->|Hne'].
      * injection Hcell as <-. split; [intros _; now left|].
        intros _. eapply matrix_format_number_nonempty; eauto.
      * rewrite (Hcells _ j c Hi Hj Hcell). simpl. split; [auto|].
        intros [E|E]; [congruence | exact E].
    + rewrite (Hcells i j c Hi Hj Hcell). simpl. split; [auto|].
      intros [E|E]; [congruence | exact E].
Qed.

Lemma matrix_inv_run (keys : list ascii) (st : state) :
  loop rows cols as_int as_symbol validate (initial rows cols) keys = Waiting st ->
  matrix_inv st.
Proof.
  apply (matrix_loop_invariant rows cols as_int as_symbol validate matrix_inv).
  - intros s s' Hs H. eapply matrix_inv_enter; eauto.
  - intros s Hs. unfold on_backspace. destruct (truthy (current_value s)); auto.
  - intros d s (Hm & Hrow & Hcol & Hgrid & Hcells). unfold on_arrow.
    repeat match goal with
           | |- context [if ?a && ?b then _ else _] =>
               let E := fresh "E" in
               destruct (a && b) eqn:E; [apply andb_prop in E as [_ E]|]
           end;
      unfold Spec.matrix_inv, Spec.on_grid in *; simpl;
      (split; [exact Hm|]); (split; [lia|]); (split; [lia|]);
      (split; [intros; specialize (Hgrid ltac:(assumption) ltac:(assumption)); lia|]);
      exact Hcells.
  - intros c s Hs. exact Hs.
  - apply matrix_inv_initial.
Qed.

(** The completion test of the matrix editor, cell by cell. *)
Lemma matrix_complete_iff (st : state) :
  matrix_inv st ->
  is_matrix_complete (matrix st) = true <-> Spec.all_committed_matrix rows cols st.
Proof.
  intros (Hm & _ & _ & _ & Hcells).
  rewrite (complete_iff rows cols _ Hm). unfold Spec.all_committed_matrix. split.
  - intros H i j Hi Hj.
    destruct (cell_inside rows cols _ i j Hm Hi Hj) as (r & c & _ & _ & E).
    apply (Hcells i j c Hi Hj E).
    specialize (H (i, j)). rewrite in_row_major in H. specialize (H (conj Hi Hj)).
    unfold Spec.empty_at in H. simpl fst in H. simpl snd in H. rewrite E in H.
    intros ->. discriminate.
  - intros H [i j] Hp. apply in_row_major in Hp as [Hi Hj]. simpl in Hi, Hj.
    destruct (cell_inside rows cols _ i j Hm Hi Hj) as (r & c & _ & _ & E).
    unfold Spec.empty_at. simpl fst. simpl snd. rewrite E.
    apply (Hcells i j c Hi Hj E) in H; [|exact Hi|exact Hj].
    destruct (String.eqb_spec c EmptyString); congruence.
Qed.

End Matrix.

End RunFacts.

(** ** The claims on one turn of the editors *)

(** C2, as stated, fails for the array editor: with a caller-supplied
    validator that accepts everything, confirming the text abc hands it to
    the validator (and commits it), though it does not parse as a number. *)
Lemma array_validator_sees_unparsed_text :
  ArrayInput.input_array 2 false (Some Spec.accept_all) (Spec.keys_of "abc" ++ [CR])
  = Waiting (ArrayInput.mkState ["abc"; ""] 1 "" "" ["abc"] [0]) /\
  float_of_str "abc" = Raise ValueError.
Proof. split; reflexivity. Qed.

(** C2, amended: in integer or real mode the matrix editor hands a confirmed
    non-empty buffer to the validator only if the text parses as the base
    numeric kind; the array editor hands every confirmed non-empty buffer to
    the validator, whether it parses or not. *)
Theorem validator_sees_checked_text_in_matrix_only
    (rows cols : Z) (as_int : bool) (validate : validator)
    (mst mst' : MatrixInput.state) (r : result (option MatrixInput.grid))
    (size : Z) (ast ast' : ArrayInput.state) :
  (MatrixInput.on_enter rows cols as_int false validate mst = (r, mst') ->
   MatrixInput.validated mst' = MatrixInput.validated mst \/
   (MatrixInput.validated mst'
      = MatrixInput.current_value mst :: MatrixInput.validated mst /\
    MatrixInput.current_value mst <> EmptyString /\
    Spec.parses_as_base as_int (MatrixInput.current_value mst))) /\
  (ArrayInput.current_value ast <> EmptyString ->
   ArrayInput.on_enter size as_int validate ast = Ok ast' ->
   ArrayInput.validated ast'
     = ArrayInput.current_value ast :: ArrayInput.validated ast).
Proof.
  split.
  - intros H. apply StepFacts.matrix_enter_validated in H as [H|(H & Hv & Hc)].
    + now left.
    + right. repeat split; auto. eapply StepFacts.format_check_parses; eauto.
  - intros Hv H. apply PyFacts.truthy_true in Hv.
    unfold ArrayInput.on_enter in H. rewrite Hv in H.
    destruct (validate (ArrayInput.current_value ast)) as [[[|] msg]|e];
      simpl in H; try discriminate.
    + destruct (ArrayInput.format_number _ _); simpl in H; try discriminate.
      destruct (setitem _ _ _); simpl in H; try discriminate.
      now injection H as <-.
    + now injection H as <-.
Qed.

(** The matrix editor confirming 7 in integer mode, the array editor
    confirming the rejected text x. *)
Lemma validator_sees_checked_text_in_matrix_only_witness :
  ([ "7" ] = [] \/
   ([ "7" ] = [ "7" ] /\ "7" <> EmptyString /\ Spec.parses_as_base true "7")) /\
  [ "x" ] = [ "x" ].
Proof.
  destruct (validator_sees_checked_text_in_matrix_only 1 2 true
              (MatrixInput.default_validator true false)
              (MatrixInput.mkState [[""; ""]] 0 0 "7" "" [] [])
              (MatrixInput.mkState [["7"; ""]] 0 1 "" "" ["7"] [(0, 0)])
              (Ok None)
              2
              (ArrayInput.mkState [""; ""] 0 "x" "" [] [])
              (ArrayInput.mkState [""; ""] 0 "x" ArrayInput.invalid_number ["x"] []))
    as [HM HA].
  split.
  - apply HM. reflexivity.
  - apply HA; [discriminate | reflexivity].
Defined.

(** C3, as stated, fails for the matrix editor: on a 1 x 2 grid that is not
    complete, confirming the empty buffer leaves the cursor where it is. *)
Lemma matrix_empty_confirm_stays :
  MatrixInput.is_matrix_complete (MatrixInput.matrix (MatrixInput.initial 1 2)) = false /\
  MatrixInput.input_matrix 1 2 false false None [CR]
  = Waiting (MatrixInput.mkState [[""; ""]] 0 0 "" "" [] []).
Proof. split; reflexivity. Qed.

(** C3, amended: confirming an empty buffer never validates, commits or
    touches a cell or the error message; in the array editor it moves the
    cursor one step forward unless it is on the last index, in the matrix
    editor it changes nothing at all. *)
Theorem empty_confirm
    (size : Z) (as_int : bool) (validate : validator) (ast : ArrayInput.state)
    (rows cols : Z) (as_symbol : bool) (mst : MatrixInput.state) :
  (ArrayInput.current_value ast = EmptyString ->
   ArrayInput.on_enter size as_int validate ast
   = Ok (ArrayInput.mkState (ArrayInput.array ast)
           (if ArrayInput.current_pos ast <? size - 1
            then ArrayInput.current_pos ast + 1 else ArrayInput.current_pos ast)
           EmptyString (ArrayInput.error_message ast)
           (ArrayInput.validated ast) (ArrayInput.committed ast))) /\
  (MatrixInput.current_value mst = EmptyString ->
   MatrixInput.on_enter rows cols as_int as_symbol validate mst = (Ok None, mst)).
Proof.
  split.
  - intros H. unfold ArrayInput.on_enter. rewrite H. simpl.
    destruct (ArrayInput.current_pos ast <? size - 1); [reflexivity|].
    destruct ast; simpl in *; now subst.
  - apply StepFacts.matrix_enter_empty.
Qed.

(** An empty confirm at index 1 of 3, and at cell (0, 1) of a 2 x 2 grid. *)
Lemma empty_confirm_witness :
  ArrayInput.on_enter 3 false Spec.accept_all
    (ArrayInput.mkState ["5"; ""; ""] 1 "" "" ["5"] [0])
  = Ok (ArrayInput.mkState ["5"; ""; ""] 2 "" "" ["5"] [0]) /\
  MatrixInput.on_enter 2 2 false false Spec.accept_all
    (MatrixInput.mkState [["1"; ""]; [""; ""]] 0 1 "" "" ["1"] [(0, 0)])
  = (Ok None, MatrixInput.mkState [["1"; ""]; [""; ""]] 0 1 "" "" ["1"] [(0, 0)]).
Proof.
  destruct (empty_confirm 3 false Spec.accept_all
              (ArrayInput.mkState ["5"; ""; ""] 1 "" "" ["5"] [0])
              2 2 false
              (MatrixInput.mkState [["1"; ""]; [""; ""]] 0 1 "" "" ["1"] [(0, 0)]))
    as [HA HM].
  split; [apply HA | apply HM]; reflexivity.
Defined.

(** C5: when a confirmed non-empty buffer is rejected, by the validator or,
    in the matrix editor, by the format check before it, the turn ends
    normally, the error message is the rejection message, and the cells, the
    cursor and the buffer are as before. *)
Theorem rejection_only_sets_error
    (size : Z) (as_int : bool) (validate : validator) (msg : string)
    (ast : ArrayInput.state)
    (rows cols : Z) (as_symbol : bool) (mst : MatrixInput.state) :
  (ArrayInput.current_value ast <> EmptyString ->
   validate (ArrayInput.current_value ast) = Ok (false, msg) ->
   exists ast',
     ArrayInput.on_enter size as_int validate ast = Ok ast' /\
     ArrayInput.error_message ast' = msg /\
     ArrayInput.array ast' = ArrayInput.array ast /\
     ArrayInput.current_pos ast' = ArrayInput.current_pos ast /\
     ArrayInput.current_value ast' = ArrayInput.current_value ast /\
     ArrayInput.committed ast' = ArrayInput.committed ast) /\
  (MatrixInput.current_value mst <> EmptyString ->
   (MatrixInput.format_check as_int as_symbol (MatrixInput.current_value mst)
      = Raise ValueError /\ msg = MatrixInput.invalid_number) \/
   (MatrixInput.format_check as_int as_symbol (MatrixInput.current_value mst) = Ok tt /\
    (validate (MatrixInput.current_value mst) = Ok (false, msg) \/
     validate (MatrixInput.current_value mst) = Raise ValueError /\
     msg = MatrixInput.invalid_number)) ->
   exists mst',
     MatrixInput.on_enter rows cols as_int as_symbol validate mst = (Ok None, mst') /\
     MatrixInput.error_message mst' = msg /\
     MatrixInput.matrix mst' = MatrixInput.matrix mst /\
     MatrixInput.current_row mst' = MatrixInput.current_row mst /\
     MatrixInput.current_col mst' = MatrixInput.current_col mst /\
     MatrixInput.current_value mst' = MatrixInput.current_value mst /\
     MatrixInput.committed mst' = MatrixInput.committed mst).
Proof.
  split.
  - intros Hv Hval. apply PyFacts.truthy_true in Hv.
    unfold ArrayInput.on_enter. rewrite Hv, Hval. simpl.
    eexists. split; [reflexivity|]. simpl. repeat split.
  - intros Hv [[Hc ->]|[Hc [Hval|[Hval ->]]]].
    + rewrite (EnterFacts.matrix_enter_bad_format _ _ _ _ _ _ Hv Hc).
      eexists. split; [reflexivity|]. simpl. repeat split.
    + rewrite (EnterFacts.matrix_enter_rejected _ _ _ _ _ _ _ Hv Hc Hval).
      eexists. split; [reflexivity|]. simpl. repeat split.
    + rewrite (EnterFacts.matrix_enter_validator_error _ _ _ _ _ _ Hv Hc Hval).
      eexists. split; [reflexivity|]. simpl. repeat split.
Qed.

(** The text bad rejected by the default validator of the array editor and
    by the format check of the matrix editor. *)
Lemma rejection_only_sets_error_witness :
  (exists ast',
     ArrayInput.on_enter 3 false (ArrayInput.default_validator false)
       (ArrayInput.mkState ["5"; ""; ""] 1 "bad" "" ["5"] [0]) = Ok ast' /\
     ArrayInput.error_message ast' = ArrayInput.invalid_number /\
     ArrayInput.array ast' = ["5"; ""; ""] /\
     ArrayInput.current_pos ast' = 1 /\
     ArrayInput.current_value ast' = "bad" /\
     ArrayInput.committed ast' = [0]) /\
  (exists mst',
     MatrixInput.on_enter 2 2 false false (MatrixInput.default_validator false false)
       (MatrixInput.mkState [["1"; ""]; [""; ""]] 0 1 "bad" "" ["1"] [(0, 0)])
     = (Ok None, mst') /\
     MatrixInput.error_message mst' = MatrixInput.invalid_number /\
     MatrixInput.matrix mst' = [["1"; ""]; [""; ""]] /\
     MatrixInput.current_row mst' = 0 /\
     MatrixInput.current_col mst' = 1 /\
     MatrixInput.current_value mst' = "bad" /\
     MatrixInput.committed mst' = [(0, 0)]).
Proof.
  destruct (rejection_only_sets_error 3 false (ArrayInput.default_validator false)
              ArrayInput.invalid_number
              (ArrayInput.mkState ["5"; ""; ""] 1 "bad" "" ["5"] [0])
              2 2 false
              (MatrixInput.mkState [["1"; ""]; [""; ""]] 0 1 "bad" "" ["1"] [(0, 0)]))
    as [HA HM].
  split.
  - apply HA; [discriminate | reflexivity].
  - apply HM; [discriminate | left; split; reflexivity].
Defined.

(** C6, as stated, fails: at the left edge of the array a Move(Left) leaves
    the buffer and the error message as they are (here after the text x was
    rejected at index 0). *)
Lemma clamped_move_keeps_buffer :
  ArrayInput.input_array 2 false None
    (Spec.keys_of "x" ++ [CR] ++ Spec.arrow "D")
  = Waiting (ArrayInput.mkState [""; ""] 0 "x" ArrayInput.invalid_number ["x"] []).
Proof. reflexivity. Qed.

(** C6, amended: a Move takes the cursor one step in its direction, clamped
    to the grid, and never touches a cell; when the cursor does move, the
    buffer and the error message are cleared; when it does not (a move at an
    edge, or an arrow the editor does not know), nothing changes at all. *)
Theorem move_clears_when_cursor_moves
    (size : Z) (d : ascii) (ast : ArrayInput.state)
    (rows cols : Z) (mst : MatrixInput.state) :
  (0 <= ArrayInput.current_pos ast < size ->
   let ast' := ArrayInput.on_arrow size d ast in
   ArrayInput.current_pos ast'
   = (if Ascii.eqb d "D" then Z.max 0 (ArrayInput.current_pos ast - 1)
      else if Ascii.eqb d "C" then Z.min (size - 1) (ArrayInput.current_pos ast + 1)
      else ArrayInput.current_pos ast) /\
   ArrayInput.array ast' = ArrayInput.array ast /\
   (ArrayInput.current_pos ast' <> ArrayInput.current_pos ast ->
    ArrayInput.current_value ast' = EmptyString /\
    ArrayInput.error_message ast' = EmptyString) /\
   (ArrayInput.current_pos ast' = ArrayInput.current_pos ast -> ast' = ast)) /\
  (Spec.on_grid rows cols mst ->
   let mst' := MatrixInput.on_arrow rows cols d mst in
   MatrixInput.current_row mst'
   = (if Ascii.eqb d "A" then Z.max 0 (MatrixInput.current_row mst - 1)
      else if Ascii.eqb d "B" then Z.min (rows - 1) (MatrixInput.current_row mst + 1)
      else MatrixInput.current_row mst) /\
   MatrixInput.current_col mst'
   = (if Ascii.eqb d "D" then Z.max 0 (MatrixInput.current_col mst - 1)
      else if Ascii.eqb d "C" then Z.min (cols - 1) (MatrixInput.current_col mst + 1)
      else MatrixInput.current_col mst) /\
   MatrixInput.matrix mst' = MatrixInput.matrix mst /\
   (MatrixInput.current_row mst' <> MatrixInput.current_row mst \/
    MatrixInput.current_col mst' <> MatrixInput.current_col mst ->
    MatrixInput.current_value mst' = EmptyString /\
    MatrixInput.error_message mst' = EmptyString) /\
   (MatrixInput.current_row mst' = MatrixInput.current_row mst ->
    MatrixInput.current_col mst' = MatrixInput.current_col mst -> mst' = mst)).
Proof.
  split.
  - intros Hb. cbv zeta. unfold ArrayInput.on_arrow.
    destruct (Ascii.eqb_spec d "D") as [->|ND]; simpl;
      [|destruct (Ascii.eqb_spec d "C") as [->|NC]; simpl];
      destruct (Z.ltb_spec 0 (ArrayInput.current_pos ast));
      destruct (Z.ltb_spec (ArrayInput.current_pos ast) (size - 1));
      simpl; repeat split; auto; try lia; intros; lia.
  - intros [Hr Hc]. cbv zeta. unfold MatrixInput.on_arrow.
    destruct (Ascii.eqb_spec d "A") as [->|NA]; simpl;
      [|destruct (Ascii.eqb_spec d "B") as [->|NB]; simpl;
        [|destruct (Ascii.eqb_spec d "D") as [->|ND]; simpl;
          [|destruct (Ascii.eqb_spec d "C") as [->|NC]; simpl]]];
      destruct (Z.ltb_spec 0 (MatrixInput.current_row mst));
      destruct (Z.ltb_spec (MatrixInput.current_row mst) (rows - 1));
      destruct (Z.ltb_spec 0 (MatrixInput.current_col mst));
      destruct (Z.ltb_spec (MatrixInput.current_col mst) (cols - 1));
      simpl; repeat split; auto; try lia; intros; try lia;
      match goal with H : _ \/ _ |- _ => destruct H; lia end.
Qed.

(** Move(Right) from index 1 of 3, and at the right edge of a 2 x 2 grid. *)
Lemma move_clears_when_cursor_moves_witness :
  (let ast' := ArrayInput.on_arrow 3 "C"
                 (ArrayInput.mkState ["5"; ""; ""] 1 "7" "" ["5"] [0]) in
   ArrayInput.current_pos ast' = 2 /\
   ArrayInput.array ast' = ["5"; ""; ""] /\
   (ArrayInput.current_pos ast' <> 1 ->
    ArrayInput.current_value ast' = EmptyString /\
    ArrayInput.error_message ast' = EmptyString) /\
   (ArrayInput.current_pos ast' = 1 ->
    ast' = ArrayInput.mkState ["5"; ""; ""] 1 "7" "" ["5"] [0])) /\
  (let mst' := MatrixInput.on_arrow 2 2 "C"
                 (MatrixInput.mkState [["1"; ""]; [""; ""]] 0 1 "7" "" ["1"] [(0, 0)]) in
   MatrixInput.current_row mst' = 0 /\
   MatrixInput.current_col mst' = 1 /\
   MatrixInput.matrix mst' = [["1"; ""]; [""; ""]] /\
   (MatrixInput.current_row mst' <> 0 \/ MatrixInput.current_col mst' <> 1 ->
    MatrixInput.current_value mst' = EmptyString /\
    MatrixInput.error_message mst' = EmptyString) /\
   (MatrixInput.current_row mst' = 0 -> MatrixInput.current_col mst' = 1 ->
    mst' = MatrixInput.mkState [["1"; ""]; [""; ""]] 0 1 "7" "" ["1"] [(0, 0)])).
Proof.
  destruct (move_clears_when_cursor_moves 3 "C"
              (ArrayInput.mkState ["5"; ""; ""] 1 "7" "" ["5"] [0])
              2 2
              (MatrixInput.mkState [["1"; ""]; [""; ""]] 0 1 "7" "" ["1"] [(0, 0)]))
    as [HA HM].
  split.
  - apply HA. simpl. lia.
  - apply HM. unfold Spec.on_grid. simpl. lia.
Defined.

(** ** The claims on the commit-advance and on whole sessions *)

(** C4: in the matrix editor a successful commit puts the formatted text in
    the cell under the cursor and then moves the cursor to the first empty
    cell after that cell in row-major order; if there is none, to the first
    empty cell before it; if there is none either, it returns the grid.  So
    the commit ends the session exactly when no cell of the grid is empty. *)
Theorem commit_advance_scans_row_major
    (rows cols : Z) (as_int as_symbol : bool) (validate : validator)
    (st : MatrixInput.state) (e formatted : string) (m' : MatrixInput.grid) :
  Spec.shaped rows cols (MatrixInput.matrix st) ->
  Spec.on_grid rows cols st ->
  MatrixInput.current_value st <> EmptyString ->
  MatrixInput.format_check as_int as_symbol (MatrixInput.current_value st) = Ok tt ->
  validate (MatrixInput.current_value st) = Ok (true, e) ->
  MatrixInput.format_number (MatrixInput.current_value st) as_int as_symbol
    = Ok formatted ->
  MatrixInput.set_cell (MatrixInput.matrix st) (MatrixInput.current_row st)
    (MatrixInput.current_col st) formatted = Ok m' ->
  let here := (MatrixInput.current_row st, MatrixInput.current_col st) in
  let turn := MatrixInput.on_enter rows cols as_int as_symbol validate st in
  turn = match Spec.first_empty_after rows cols m' here with
         | Some q => (Ok None, MatrixInput.set_cursor q (MatrixInput.after_commit st m'))
         | None =>
             match Spec.first_empty_before rows cols m' here with
             | Some q =>
                 (Ok None, MatrixInput.set_cursor q (MatrixInput.after_commit st m'))
             | None => (Ok (Some m'), MatrixInput.after_commit st m')
             end
         end /\
  ((exists g, fst turn = Ok (Some g)) <-> MatrixInput.is_matrix_complete m' = true).
Proof.
  intros Hm [Hr Hc] Hv Hcheck Hval Hf Hs here turn.
  pose proof (ScanFacts.set_cell_shaped rows cols _ _ _ _ _ Hm Hr Hc Hs) as Hm'.
  assert (E : turn = match Spec.first_empty_after rows cols m' here with
                     | Some q => (Ok None,
                                  MatrixInput.set_cursor q (MatrixInput.after_commit st m'))
                     | None =>
                         match Spec.first_empty_before rows cols m' here with
                         | Some q => (Ok None,
                                      MatrixInput.set_cursor q
                                        (MatrixInput.after_commit st m'))
                         | None => (Ok (Some m'), MatrixInput.after_commit st m')
                         end
                     end).
  { apply (EnterFacts.matrix_enter_commit rows cols as_int as_symbol validate st e
             formatted m'); auto.
    - apply ScanFacts.find_next_empty_spec; auto.
    - apply (ScanFacts.find_prev_empty_spec rows); auto. }
  split; [exact E|]. rewrite E. clear E turn.
  rewrite (ScanFacts.complete_iff rows cols m' Hm').
  assert (Hhere : Spec.empty_at m' here = false).
  { unfold Spec.empty_at, here. simpl fst. simpl snd.
    rewrite (ScanFacts.set_cell_read rows cols _ _ _ _ _ _ _ Hm Hr Hc Hs Hr Hc).
    rewrite !Z.eqb_refl. simpl.
    destruct (String.eqb_spec formatted EmptyString) as [->|]; [|reflexivity].
    exfalso. eapply FormatFacts.matrix_format_number_nonempty; eauto. }
  destruct (Spec.first_empty_after rows cols m' here) as [q|] eqn:EA.
  { split; [intros [g Hg]; discriminate|]. intros H.
    apply find_some in EA as [Hin Hq]. apply filter_In in Hin as [Hin _].
    rewrite (H q Hin) in Hq. discriminate. }
  destruct (Spec.first_empty_before rows cols m' here) as [q|] eqn:EB.
  { split; [intros [g Hg]; discriminate|]. intros H.
    apply find_some in EB as [Hin Hq]. apply filter_In in Hin as [Hin _].
    rewrite (H q Hin) in Hq. discriminate. }
  split; [|intros _; now exists m'].
  intros _ p Hp.
  destruct (ScanFacts.precedes_cases here p) as [<-|[Hlt|Hlt]]; [exact Hhere| |].
  - apply (proj1 (LoopFacts.find_nothing _ _) EA). apply filter_In. now split.
  - apply (proj1 (LoopFacts.find_nothing _ _) EB). apply filter_In. now split.
Qed.

(** Overwriting cell (0, 0) of a 2 x 2 grid whose first row is filled: the
    cursor goes to (1, 0). *)
Lemma commit_advance_scans_row_major_witness :
  MatrixInput.on_enter 2 2 true false (MatrixInput.default_validator true false)
    (MatrixInput.mkState [["1"; "2"]; [""; ""]] 0 0 "9" "" ["2"; "1"] [(0, 1); (0, 0)])
  = (Ok None,
     MatrixInput.mkState [["9"; "2"]; [""; ""]] 1 0 "" "" ["9"; "2"; "1"]
       [(0, 0); (0, 1); (0, 0)]) /\
  ((exists g,
      fst (MatrixInput.on_enter 2 2 true false (MatrixInput.default_validator true false)
             (MatrixInput.mkState [["1"; "2"]; [""; ""]] 0 0 "9" "" ["2"; "1"]
                [(0, 1); (0, 0)])) = Ok (Some g))
   <-> MatrixInput.is_matrix_complete [["9"; "2"]; [""; ""]] = true).
Proof.
  apply (commit_advance_scans_row_major 2 2 true false
           (MatrixInput.default_validator true false)
           (MatrixInput.mkState [["1"; "2"]; [""; ""]] 0 0 "9" "" ["2"; "1"]
              [(0, 1); (0, 0)])
           EmptyString "9" [["9"; "2"]; [""; ""]]).
  - split; [reflexivity | repeat constructor].
  - unfold Spec.on_grid. simpl. lia.
  - discriminate.
  - reflexivity.
  - reflexivity.
  - reflexivity.
  - reflexivity.
Defined.

(** C9: in a session on an array of at least one cell, or on a matrix of at
    least one row and one column, the cursor is on the grid whenever the
    editor waits for the next key, that is after every action. *)
Theorem cursor_stays_on_grid
    (size : Z) (as_int : bool) (v : option validator) (keys : list ascii)
    (ast : ArrayInput.state)
    (rows cols : Z) (as_int' as_symbol : bool) (v' : option validator)
    (keys' : list ascii) (mst : MatrixInput.state) :
  (1 <= size ->
   ArrayInput.input_array size as_int v keys = Waiting ast ->
   0 <= ArrayInput.current_pos ast < size) /\
  (1 <= rows -> 1 <= cols ->
   MatrixInput.input_matrix rows cols as_int' as_symbol v' keys' = Waiting mst ->
   0 <= MatrixInput.current_row mst < rows /\ 0 <= MatrixInput.current_col mst < cols).
Proof.
  split.
  - intros Hs H. apply RunFacts.array_inv_run in H as (_ & Hpos & Hup & _). lia.
  - intros Hr Hc H. apply RunFacts.matrix_inv_run in H as (_ & _ & _ & Hgrid & _).
    exact (Hgrid Hr Hc).
Qed.

(** The cursor after one commit in an array of 3 and after two commits in a
    2 x 2 grid. *)
Lemma cursor_stays_on_grid_witness :
  0 <= 1 < 3 /\ (0 <= 1 < 2 /\ 0 <= 0 < 2).
Proof.
  destruct (cursor_stays_on_grid 3 false None (Spec.keys_of "5" ++ [CR])
              (ArrayInput.mkState ["5"; ""; ""] 1 "" "" ["5"] [0])
              2 2 true false None
              (Spec.keys_of "1" ++ [CR] ++ Spec.keys_of "2" ++ [CR])
              (MatrixInput.mkState [["1"; "2"]; [""; ""]] 1 0 "" "" ["2"; "1"]
                 [(0, 1); (0, 0)]))
    as [HA HM].
  split.
  - apply HA; [lia | reflexivity].
  - apply HM; [lia | lia | reflexivity].
Defined.

(** C10: what a commit stores is never the empty text, in every mode and
    whatever the validator, because [format_number] of a non-empty buffer is
    not empty; hence, whenever an editor waits for a key, the cells that are
    not empty are exactly the cells a commit assigned, and the completion
    test holds exactly when every cell of the grid has been committed. *)
Theorem committed_cells_are_nonempty
    (value formatted : string) (as_int as_symbol : bool)
    (size : Z) (v : option validator) (keys : list ascii) (ast : ArrayInput.state)
    (rows cols : Z) (v' : option validator) (keys' : list ascii)
    (mst : MatrixInput.state) :
  (value <> EmptyString ->
   ArrayInput.format_number value as_int = Ok formatted ->
   formatted <> EmptyString) /\
  (value <> EmptyString ->
   MatrixInput.format_number value as_int as_symbol = Ok formatted ->
   formatted <> EmptyString) /\
  (ArrayInput.input_array size as_int v keys = Waiting ast ->
   (forall i c, 0 <= i < size -> getitem (ArrayInput.array ast) i = Ok c ->
                (c <> EmptyString <-> In i (ArrayInput.committed ast))) /\
   (ArrayInput.is_complete ast = true <-> Spec.all_committed_array size ast)) /\
  (MatrixInput.input_matrix rows cols as_int as_symbol v' keys' = Waiting mst ->
   (forall i j c, 0 <= i < rows -> 0 <= j < cols ->
                  MatrixInput.cell (MatrixInput.matrix mst) i j = Ok c ->
                  (c <> EmptyString <-> In (i, j) (MatrixInput.committed mst))) /\
   (MatrixInput.is_matrix_complete (MatrixInput.matrix mst) = true
    <-> Spec.all_committed_matrix rows cols mst)).
Proof.
  split; [|split; [|split]].
  - intros Hv H. eapply FormatFacts.array_format_number_nonempty; eauto.
  - intros Hv H. eapply FormatFacts.matrix_format_number_nonempty; eauto.
  - intros H. apply RunFacts.array_inv_run in H. split.
    + intros i c Hi Hg. destruct H as (_ & _ & _ & Hcells).
      apply RunFacts.getitem_nonneg in Hg as [_ Hn]; [|lia].
      now apply Hcells.
    + now apply RunFacts.array_complete_iff.
  - intros H. apply RunFacts.matrix_inv_run in H. split.
    + destruct H as (_ & _ & _ & _ & Hcells). exact Hcells.
    + now apply RunFacts.matrix_complete_iff.
Qed.

(** The texts 3.500 and x formatted, and one cell of each editor after the
    sessions above. *)
Lemma committed_cells_are_nonempty_witness :
  "3.5" <> EmptyString /\ "x" <> EmptyString /\
  ("5" <> EmptyString <-> In 0 [0]) /\
  ("" <> EmptyString <-> In (1, 0) [(0, 1); (0, 0)]).
Proof.
  destruct (committed_cells_are_nonempty "3.500" "3.5" false false
              3 None (Spec.keys_of "5" ++ [CR])
              (ArrayInput.mkState ["5"; ""; ""] 1 "" "" ["5"] [0])
              2 2 None
              (Spec.keys_of "1" ++ [CR] ++ Spec.keys_of "2" ++ [CR])
              (MatrixInput.mkState [["1"; "2"]; [""; ""]] 1 0 "" "" ["2"; "1"]
                 [(0, 1); (0, 0)]))
    as (HA & _ & HRA & HRM).
  destruct (committed_cells_are_nonempty "x" "x" false true
              3 None [] (ArrayInput.initial 3) 2 2 None [] (MatrixInput.initial 2 2))
    as (_ & HM & _ & _).
  split; [|split; [|split]].
  - apply HA; [discriminate | reflexivity].
  - apply HM; [discriminate | reflexivity].
  - destruct HRA as [Hcells _]; [reflexivity|].
    apply (Hcells 0 "5"); [lia | reflexivity].
  - destruct HRM as [Hcells _]; [reflexivity|].
    apply (Hcells 1 0 ""); [lia | lia | reflexivity].
Defined.

(** ** More on formatting *)

Module FormatMore.

Import PyFacts.

Lemma ends_with_rstrip (c : ascii) (s : string) :
  Session.ends_with c (rstrip c s) = false.
Proof.
  unfold rstrip. induction s as [|a r IH]; [reflexivity|]. simpl.
  destruct (rstrip_if (Ascii.eqb c) r) as [|b t] eqn:E.
  - destruct (Ascii.eqb c a) eqn:Ea; [reflexivity|]. simpl.
    rewrite Ascii.eqb_sym. exact Ea.
  - exact IH.
Qed.

Lemma ends_with_contains (c : ascii) (s : string) :
  contains c s = false -> Session.ends_with c s = false.
Proof.
  induction s as [|a r IH]; [reflexivity|]. simpl. intros H.
  apply orb_false_iff in H as [Ha Hr]. destruct r; [exact Ha | now apply IH].
Qed.

Lemma all_digits_fuel (fuel : nat) (n : Z) (acc : string) :
  Session.all_digits acc = true ->
  Session.all_digits (digits_fuel fuel n acc) = true.
Proof.
  revert n acc. induction fuel as [|f IH]; intros n acc H; simpl; [exact H|].
  destruct (n <? 10).
  - simpl. now rewrite is_digit_digit_char.
  - apply IH. simpl. now rewrite is_digit_digit_char.
Qed.

Lemma all_digits_digits (n : Z) : Session.all_digits (digits n) = true.
Proof. apply all_digits_fuel. reflexivity. Qed.

Lemma digits_nonempty (n : Z) : digits n <> EmptyString.
Proof. destruct (digits_head n) as (a & r & E & _). rewrite E. discriminate. Qed.

(** What the numeric branch of [format_number] comes to. *)
Lemma numeric_format (value : string) (as_int : bool) :
  ArrayInput.format_number value as_int
  = match parse_float value with
    | None => Ok value
    | Some x =>
        if as_int then
          match x with
          | Finite _ _ _ => n <- int_of_float x ;; Ok (str_int n)
          | Infinity _ => Raise OverflowError
          | NaN => Ok value
          end
        else
          Ok (if contains "." (repr_float x)
              then rstrip "." (rstrip "0" (repr_float x)) else repr_float x)
    end.
Proof.
  unfold ArrayInput.format_number, float_of_str.
  destruct (parse_float value) as [[neg m e|neg|]|]; destruct as_int; reflexivity.
Qed.

Lemma matrix_numeric_format (value : string) (as_int : bool) :
  MatrixInput.format_number value as_int false = ArrayInput.format_number value as_int.
Proof. reflexivity. Qed.

End FormatMore.

(** ** Integers and their numerals *)

Module NumeralFacts.

Import PyFacts.

Lemma digit_val_digit_char (k : Z) : 0 <= k <= 9 -> digit_val (digit_char k) = k.
Proof.
  intros H.
  assert (E : k = 0 \/ k = 1 \/ k = 2 \/ k = 3 \/ k = 4 \/ k = 5 \/ k = 6 \/
              k = 7 \/ k = 8 \/ k = 9) by lia.
  repeat (destruct E as [E|E]; [subst k; reflexivity|]).
  subst k; reflexivity.
Qed.

(** The digits produced, read back. *)
Lemma digits_fuel_value (fuel : nat) (n : Z) (acc : string) :
  0 <= n < 2 ^ Z.of_nat fuel ->
  digits_value_acc (digits_fuel fuel n acc) 0 = digits_value_acc acc n.
Proof.
  revert n acc. induction fuel as [|f IH]; intros n acc Hn.
  - simpl in Hn. replace n with 0 by lia. reflexivity.
  - rewrite Nat2Z.inj_succ, Z.pow_succ_r in Hn by lia.
    cbn [digits_fuel]. cbv zeta. destruct (Z.ltb_spec n 10) as [Hlt|Hge].
    + cbn [digits_value_acc]. rewrite Z.mod_small by lia.
      rewrite digit_val_digit_char by lia. f_equal.
    + rewrite IH.
      * cbn [digits_value_acc].
        rewrite digit_val_digit_char by (pose proof (Z.mod_pos_bound n 10); lia).
        f_equal. symmetry. apply Z.div_mod. lia.
      * split; [apply Z.div_pos; lia|]. apply Z.div_lt_upper_bound; lia.
Qed.

Lemma digits_fuel_bound (n : Z) :
  0 <= n -> n < 2 ^ Z.of_nat (S (Z.to_nat (Z.log2 n))).
Proof.
  intros Hn. rewrite Nat2Z.inj_succ, Z2Nat.id by apply Z.log2_nonneg.
  destruct (Z.eq_dec n 0) as [->|Hne]; [reflexivity|].
  apply Z.log2_spec. lia.
Qed.

Lemma digits_value_digits (n : Z) : 0 <= n -> digits_value (digits n) = n.
Proof.
  intros Hn. unfold digits_value, digits. rewrite digits_fuel_value; [reflexivity|].
  split; [exact Hn | now apply digits_fuel_bound].
Qed.

(** No zero in front of a numeral, the numeral of zero apart. *)
Lemma digits_fuel_leading (fuel : nat) (n : Z) (acc : string) :
  1 <= n < 2 ^ Z.of_nat fuel ->
  head "0" (digits_fuel fuel n acc) <> "0"%char.
Proof.
  revert n acc. induction fuel as [|f IH]; intros n acc Hn.
  - simpl in Hn. lia.
  - rewrite Nat2Z.inj_succ, Z.pow_succ_r in Hn by lia.
    cbn [digits_fuel]. cbv zeta. destruct (Z.ltb_spec n 10) as [Hlt|Hge].
    + cbn [head]. rewrite Z.mod_small by lia. intros E.
      assert (H : digit_val (digit_char n) = 0) by (now rewrite E).
      rewrite digit_val_digit_char in H by lia. lia.
    + apply IH. split.
      * apply Z.div_le_lower_bound; lia.
      * apply Z.div_lt_upper_bound; lia.
Qed.

Lemma digits_leading (n : Z) :
  0 <= n -> digits n = "0" \/ head "0" (digits n) <> "0"%char.
Proof.
  intros Hn. destruct (Z.eq_dec n 0) as [->|Hne]; [now left|].
  right. apply digits_fuel_leading. split; [lia | now apply digits_fuel_bound].
Qed.

(** The digits a text starts with are digits. *)
Lemma span_digits_all (s : string) : Session.all_digits (fst (span_digits s)) = true.
Proof.
  induction s as [|a r IH]; simpl; [reflexivity|].
  destruct (is_digit a) eqn:E; [|reflexivity].
  destruct (span_digits r) as [d rest]. simpl in *. now rewrite E.
Qed.

Lemma all_digits_app (s t : string) :
  Session.all_digits s = true -> Session.all_digits t = true ->
  Session.all_digits (s ++ t) = true.
Proof.
  intros Hs Ht. induction s as [|a r IH]; simpl in *; [exact Ht|].
  apply andb_prop in Hs as [Ha Hr]. rewrite Ha. now apply IH.
Qed.

Lemma digits_value_acc_nonneg (s : string) (acc : Z) :
  Session.all_digits s = true -> 0 <= acc -> 0 <= digits_value_acc s acc.
Proof.
  revert acc. induction s as [|a r IH]; intros acc Hs Hacc;
    cbn [digits_value_acc Session.all_digits] in *; [exact Hacc|].
  apply andb_prop in Hs as [Ha Hr]. apply IH; [exact Hr|].
  unfold is_digit in Ha. apply andb_prop in Ha as [H1 _]. apply Z.leb_le in H1.
  unfold digit_val. lia.
Qed.

Lemma fraction_digits_all (s : string) :
  Session.all_digits
    (fst match s with
         | String "." r => span_digits r
         | _ => (EmptyString, s)
         end) = true.
Proof.
  destruct s as [|a r]; [reflexivity|].
  destruct a as [[|] [|] [|] [|] [|] [|] [|] [|]];
    first [reflexivity | apply span_digits_all].
Qed.

(** The digits of a decimal text stand for a number that is not negative. *)
Lemma parse_decimal_nonneg (t : string) (neg : bool) (D E : Z) :
  parse_decimal t = Some (neg, D, E) -> 0 <= D.
Proof.
  unfold parse_decimal.
  destruct (split_sign t) as [sg s1].
  pose proof (span_digits_all s1) as Hip.
  destruct (span_digits s1) as [ip s2]. simpl in Hip.
  pose proof (fraction_digits_all s2) as Hfp.
  destruct (match s2 with
            | String "." r => span_digits r
            | _ => (EmptyString, s2)
            end) as [fp s3]. simpl in Hfp.
  assert (HD : 0 <= digits_value (ip ++ fp)).
  { apply digits_value_acc_nonneg; [now apply all_digits_app | lia]. }
  destruct (len ip + len fp =? 0); [discriminate|].
  destruct s3 as [|c r]; [now intros [= _ <- _]|].
  destruct (Ascii.eqb (lower c) "e"); [|discriminate].
  destruct (split_sign r) as [eneg r1]. destruct (span_digits r1) as [ep r2].
  destruct ((len ep =? 0) || truthy r2); [discriminate|]. now intros [= _ <- _].
Qed.

Lemma round_half_even_nonneg (n d : Z) :
  0 <= n -> 0 < d -> 0 <= round_half_even n d.
Proof.
  intros Hn Hd. unfold round_half_even.
  assert (Hq : 0 <= n / d) by (apply Z.div_pos; lia).
  destruct (2 * (n mod d) ?= d); [destruct (Z.even (n / d))| |]; lia.
Qed.

Lemma scaled_nonneg (b n d k : Z) (n' d' : Z) :
  0 < b -> 0 <= n -> 0 < d -> scaled b n d k = (n', d') -> 0 <= n' /\ 0 < d'.
Proof.
  intros Hb Hn Hd. unfold scaled. destruct (Z.leb_spec 0 k); intros [= <- <-].
  - split; [|exact Hd]. apply Z.mul_nonneg_nonneg; [exact Hn|].
    apply Z.pow_nonneg. lia.
  - split; [exact Hn|]. apply Z.mul_pos_pos; [exact Hd|]. apply Z.pow_pos_nonneg; lia.
Qed.

Lemma nearest_float_nonneg (neg : bool) (n d : Z) (neg' : bool) (m e : Z) :
  0 <= n -> 0 < d -> nearest_float neg n d = Finite neg' m e -> 0 <= m.
Proof.
  intros Hn Hd. unfold nearest_float.
  destruct (n =? 0); [now intros [= _ <- _]|]. cbv zeta.
  destruct (scaled 2 n d _) as [n' d'] eqn:Es.
  apply scaled_nonneg in Es as [Hn' Hd']; [|lia|exact Hn|exact Hd].
  pose proof (round_half_even_nonneg n' d' Hn' Hd') as Hm.
  destruct (round_half_even n' d' =? 2 ^ 53).
  - destruct (971 <? _); [discriminate|]. intros [= _ <- _]. lia.
  - destruct (971 <? _); [discriminate|]. now intros [= _ <- _].
Qed.

(** The mantissa of a float read from a text is not negative. *)
Lemma parse_float_nonneg (value : string) (neg : bool) (m e : Z) :
  parse_float value = Some (Finite neg m e) -> 0 <= m.
Proof.
  unfold parse_float.
  destruct (remove_underscores _ _) as [t|]; [|discriminate].
  destruct (parse_decimal t) as [[[sg D] E]|] eqn:Ed.
  - apply parse_decimal_nonneg in Ed. unfold float_of_decimal.
    destruct (scaled 10 D 1 E) as [n d] eqn:Es.
    apply scaled_nonneg in Es as [Hn Hd]; [|lia|exact Ed|lia].
    intros [= H]. eapply nearest_float_nonneg; eauto.
  - unfold parse_inf_or_nan. destruct (split_sign t) as [sg s1].
    destruct (_ || _); [discriminate|]. destruct (String.eqb _ _); discriminate.
Qed.

(** [int] of a finite float is the float truncated towards zero. *)
Lemma int_of_float_truncates (neg : bool) (m e : Z) :
  0 <= m ->
  exists n, int_of_float (Finite neg m e) = Ok n /\
            Z.abs n * 2 ^ Z.max 0 (- e) <= m * 2 ^ Z.max 0 e
              < (Z.abs n + 1) * 2 ^ Z.max 0 (- e) /\
            (neg = true -> n <= 0) /\ (neg = false -> 0 <= n).
Proof.
  intros Hm. unfold int_of_float. cbv zeta.
  set (a := if 0 <=? e then m * 2 ^ e else m / 2 ^ (- e)).
  assert (Ha : 0 <= a /\ a * 2 ^ Z.max 0 (- e) <= m * 2 ^ Z.max 0 e
                    < (a + 1) * 2 ^ Z.max 0 (- e)).
  { unfold a. destruct (Z.leb_spec 0 e) as [He|He].
    - rewrite (Z.max_l 0 (- e)), (Z.max_r 0 e) by lia. simpl (2 ^ 0).
      split; [apply Z.mul_nonneg_nonneg; [exact Hm | apply Z.pow_nonneg; lia]|]. lia.
    - rewrite (Z.max_r 0 (- e)), (Z.max_l 0 e) by lia. simpl (2 ^ 0).
      assert (Hp : 0 < 2 ^ (- e)) by (apply Z.pow_pos_nonneg; lia).
      split; [apply Z.div_pos; lia|].
      pose proof (Z.mul_div_le m (2 ^ (- e)) Hp).
      pose proof (Z.mul_succ_div_gt m (2 ^ (- e)) Hp). lia. }
  destruct Ha as [Ha0 Ha].
  exists (if neg then - a else a). split; [reflexivity|].
  destruct neg.
  - rewrite Z.abs_opp, Z.abs_eq by lia. split; [exact Ha|]. split; [lia | discriminate].
  - rewrite Z.abs_eq by lia. split; [exact Ha|]. split; [discriminate | lia].
Qed.

(** [str] of an integer is its decimal numeral. *)
Lemma str_int_spec (n : Z) :
  exists d, str_int n = (if n <? 0 then String "-" d else d) /\
            d <> EmptyString /\ Session.all_digits d = true /\
            digits_value d = Z.abs n /\
            (d = "0" \/ head "0" d <> "0"%char).
Proof.
  unfold str_int. destruct (Z.ltb_spec n 0) as [Hn|Hn].
  - exists (digits (- n)). split; [reflexivity|].
    split; [apply FormatMore.digits_nonempty|].
    split; [apply FormatMore.all_digits_digits|].
    split; [rewrite digits_value_digits by lia; lia|]. apply digits_leading. lia.
  - exists (digits n). split; [reflexivity|].
    split; [apply FormatMore.digits_nonempty|].
    split; [apply FormatMore.all_digits_digits|].
    split; [rewrite digits_value_digits by lia; lia|]. now apply digits_leading.
Qed.

End NumeralFacts.

(** ** Further properties of the two modules *)

(** X1: [format_number] raises nothing but [OverflowError], and that only in
    integer mode on a text that parses as an infinity; in real mode and in
    symbol mode it always returns, and a text that does not parse as a number
    is returned unchanged. *)
Theorem format_number_raises_only_on_infinity
    (value : string) (as_int as_symbol : bool) (e : exn) :
  (ArrayInput.format_number value as_int = Raise e <->
   as_int = true /\ e = OverflowError /\
   exists neg, parse_float value = Some (Infinity neg)) /\
  (MatrixInput.format_number value as_int as_symbol = Raise e <->
   as_symbol = false /\ as_int = true /\ e = OverflowError /\
   exists neg, parse_float value = Some (Infinity neg)) /\
  (parse_float value = None ->
   ArrayInput.format_number value as_int = Ok value /\
   MatrixInput.format_number value as_int as_symbol = Ok value).
Proof.
  assert (A : ArrayInput.format_number value as_int = Raise e <->
              as_int = true /\ e = OverflowError /\
              exists neg, parse_float value = Some (Infinity neg)).
  { rewrite FormatMore.numeric_format.
    destruct (parse_float value) as [[neg m ex|neg|]|]; destruct as_int; simpl;
      split; try discriminate;
      try (intros (H1 & H2 & neg' & H3); discriminate).
    - intros [= <-]. repeat split. now exists neg.
    - intros (_ & -> & _). reflexivity. }
  split; [exact A|]. split.
  - unfold MatrixInput.format_number. destruct as_symbol.
    + split; [discriminate | intros (H & _); discriminate].
    + fold (ArrayInput.format_number value as_int). rewrite A. tauto.
  - intros H. split.
    + rewrite FormatMore.numeric_format, H. reflexivity.
    + unfold MatrixInput.format_number. destruct as_symbol; [reflexivity|].
      fold (ArrayInput.format_number value as_int).
      rewrite FormatMore.numeric_format, H. reflexivity.
Qed.

(** The text abc is returned as it is. *)
Lemma format_number_raises_only_on_infinity_witness :
  ArrayInput.format_number "abc" true = Ok "abc" /\
  MatrixInput.format_number "abc" true false = Ok "abc".
Proof.
  destruct (format_number_raises_only_on_infinity "abc" true false ValueError)
    as (_ & _ & H).
  apply H. reflexivity.
Defined.

(** X2: in real mode the formatted text of a number never ends with a
    decimal point. *)
Theorem formatted_real_has_no_trailing_point
    (value formatted : string) (x : float) :
  parse_float value = Some x ->
  ArrayInput.format_number value false = Ok formatted ->
  Session.ends_with "." formatted = false /\
  MatrixInput.format_number value false false = Ok formatted.
Proof.
  intros Hp H. split; [|exact H].
  rewrite FormatMore.numeric_format, Hp in H. injection H as <-.
  destruct (contains "." (repr_float x)) eqn:E.
  - apply FormatMore.ends_with_rstrip.
  - now apply FormatMore.ends_with_contains.
Qed.

(** The text 4.0 is formatted as 4. *)
Lemma formatted_real_has_no_trailing_point_witness :
  Session.ends_with "." "4" = false /\
  MatrixInput.format_number "4.0" false false = Ok "4".
Proof.
  apply (formatted_real_has_no_trailing_point "4.0" "4" (Finite false 4503599627370496 (-50)));
    reflexivity.
Defined.

(** X3: in integer mode a text that parses as a finite number, say
    [(-1)^neg * m * 2^e], is formatted as the decimal numeral of that number
    truncated towards zero: there are an integer [n], the number without
    its fraction, and a text [d], made of digits only, that reads as [|n|]
    and has no zero in front unless it is 0, such that both modules format
    the text as [d], after a minus sign when [n] is negative. *)
Theorem formatted_integer_is_a_numeral
    (value : string) (neg : bool) (m e : Z) :
  parse_float value = Some (Finite neg m e) ->
  exists (n : Z) (d : string),
    Z.abs n * 2 ^ Z.max 0 (- e) <= m * 2 ^ Z.max 0 e
      < (Z.abs n + 1) * 2 ^ Z.max 0 (- e) /\
    (neg = true -> n <= 0) /\ (neg = false -> 0 <= n) /\
    d <> EmptyString /\ Session.all_digits d = true /\
    digits_value d = Z.abs n /\
    (d = "0" \/ head "0" d <> "0"%char) /\
    ArrayInput.format_number value true
    = Ok (if n <? 0 then String "-" d else d) /\
    MatrixInput.format_number value true false
    = Ok (if n <? 0 then String "-" d else d).
Proof.
  intros Hp.
  pose proof (NumeralFacts.parse_float_nonneg value neg m e Hp) as Hm.
  destruct (NumeralFacts.int_of_float_truncates neg m e Hm)
    as (n & Hint & Htrunc & Hneg & Hpos).
  destruct (NumeralFacts.str_int_spec n) as (d & Hstr & Hne & Hd & Hval & Hlead).
  exists n, d.
  assert (A : ArrayInput.format_number value true
              = Ok (if n <? 0 then String "-" d else d)).
  { rewrite FormatMore.numeric_format, Hp, Hint. simpl. now rewrite Hstr. }
  do 7 (split; [assumption|]). split; exact A.
Qed.

(** The text -123.9 is formatted as -123. *)
Lemma formatted_integer_is_a_numeral_witness :
  exists (n : Z) (d : string),
    Z.abs n * 2 ^ Z.max 0 (- (-46)) <= 8718687403612570 * 2 ^ Z.max 0 (-46)
      < (Z.abs n + 1) * 2 ^ Z.max 0 (- (-46)) /\
    (true = true -> n <= 0) /\ (true = false -> 0 <= n) /\
    d <> EmptyString /\ Session.all_digits d = true /\
    digits_value d = Z.abs n /\
    (d = "0" \/ head "0" d <> "0"%char) /\
    ArrayInput.format_number "-123.9" true
    = Ok (if n <? 0 then String "-" d else d) /\
    MatrixInput.format_number "-123.9" true false
    = Ok (if n <? 0 then String "-" d else d).
Proof.
  apply (formatted_integer_is_a_numeral "-123.9" true 8718687403612570 (-46)).
  reflexivity.
Defined.

(** ** Typing and deleting *)

Module TypingFacts.

Import PyFacts.

Lemma append_empty (s : string) : (s ++ EmptyString)%string = s.
Proof. induction s as [|a r IH]; simpl; congruence. Qed.

Lemma append_cons (s : string) (c : ascii) (r : string) :
  (snoc s c ++ r)%string = (s ++ String c r)%string.
Proof. unfold snoc. induction s as [|a t IH]; simpl; congruence. Qed.

Lemma drop_last_append (s u : string) :
  u <> EmptyString -> drop_last (s ++ u)%string = (s ++ drop_last u)%string.
Proof.
  intros Hu. induction s as [|a t IH]; [reflexivity|].
  simpl. rewrite IH.
  destruct (t ++ u)%string eqn:E; [|reflexivity].
  destruct t; [simpl in E; congruence | discriminate].
Qed.

Lemma drop_last_length (u : string) :
  String.length (drop_last u) = pred (String.length u).
Proof.
  induction u as [|a r IH]; [reflexivity|].
  destruct r as [|b t]; [reflexivity|].
  change (drop_last (String a (String b t))) with (String a (drop_last (String b t))).
  change (String.length (String a (drop_last (String b t))))
    with (S (String.length (drop_last (String b t)))).
  rewrite IH. reflexivity.
Qed.

Lemma truthy_append (s u : string) :
  u <> EmptyString -> truthy (s ++ u)%string = true.
Proof. intros Hu. destruct s; [now apply truthy_true | reflexivity]. Qed.

(** A printable character is none of the keys the editors interpret. *)
Lemma printable_is_no_key (c : ascii) :
  isprintable c = true ->
  ord c <> 27 /\ ord c <> 13 /\ ord c <> 10 /\ ord c <> 127.
Proof. unfold isprintable. cbv zeta. lia. Qed.

Lemma eqb_by_ord (c k : ascii) : ord c <> ord k -> Ascii.eqb c k = false.
Proof. intros H. apply Ascii.eqb_neq. congruence. Qed.

Section Matrix.

Import MatrixInput.

Variables rows cols : Z.
Variables as_int as_symbol : bool.
Variable validate : validator.

Local Abbreviation run := (loop rows cols as_int as_symbol validate).

Lemma matrix_char_turn (c : ascii) (st : state) (more : list ascii) :
  isprintable c = true -> run st (c :: more) = run (on_char c st) more.
Proof.
  intros Hc. destruct (printable_is_no_key c Hc) as (H27 & H13 & _ & H127).
  cbn [loop].
  replace (ord c =? 27) with false by lia.
  replace (ord c =? 13) with false by lia.
  replace (ord c =? 127) with false by lia.
  now rewrite Hc.
Qed.

Lemma matrix_typing (text : string) (st : state) (more : list ascii) :
  text <> EmptyString ->
  Forall (fun c => isprintable c = true) (list_ascii_of_string text) ->
  run st (list_ascii_of_string text ++ more) = run (Session.matrix_typed st text) more.
Proof.
  revert st. induction text as [|c r IH]; intros st Hne Hp; [congruence|].
  simpl in Hp. apply Forall_cons_iff in Hp as [Hc Hr].
  cbn [list_ascii_of_string app]. rewrite (matrix_char_turn c st _ Hc).
  destruct r as [|b t].
  - reflexivity.
  - rewrite IH by (auto; discriminate). f_equal.
    unfold Session.matrix_typed, on_char, set_error, set_value. simpl.
    now rewrite append_cons.
Qed.

Lemma matrix_backspaces (n : nat) (st : state) (more : list ascii) :
  run st (Session.backspaces n ++ more) = run (Nat.iter n on_backspace st) more.
Proof.
  revert st. induction n as [|n IH]; intros st; [reflexivity|].
  unfold Session.backspaces. simpl repeat. cbn [app loop].
  change (ord DEL =? 27) with false. change (ord DEL =? 13) with false.
  change (ord DEL =? 127) with true. cbv iota.
  fold (Session.backspaces n). rewrite IH. now rewrite Nat.iter_swap.
Qed.

Lemma matrix_untyping (text : string) (st : state) :
  Nat.iter (String.length text) on_backspace (Session.matrix_typed st text)
  = set_error EmptyString st.
Proof.
  remember (String.length text) as n eqn:Hn. revert text Hn.
  induction n as [|n IH]; intros text Hn.
  - destruct text; [|discriminate]. simpl.
    unfold Session.matrix_typed, set_error, set_value. simpl.
    now rewrite append_empty.
  - assert (Hne : text <> EmptyString) by (intros ->; discriminate).
    rewrite Nat.iter_succ_r.
    replace (on_backspace (Session.matrix_typed st text))
      with (Session.matrix_typed st (drop_last text)).
    + apply IH. rewrite drop_last_length, <- Hn. reflexivity.
    + unfold on_backspace, Session.matrix_typed, set_error, set_value. simpl.
      rewrite (truthy_append _ _ Hne). simpl. now rewrite drop_last_append.
Qed.

End Matrix.

Section Array.

Import ArrayInput.

Variable size : Z.
Variable as_int : bool.
Variable validate : validator.

Local Abbreviation run := (loop size as_int validate).

Lemma array_char_turn (c : ascii) (st : state) (more : list ascii) :
  isprintable c = true -> is_complete st = false ->
  run st (c :: more) = run (on_char c st) more.
Proof.
  intros Hc Hi. destruct (printable_is_no_key c Hc) as (H27 & H13 & H10 & H127).
  cbn [loop].
  rewrite (eqb_by_ord c CR), (eqb_by_ord c LF), (eqb_by_ord c DEL),
    (eqb_by_ord c ESC)
    by (change (ord CR) with 13; change (ord LF) with 10;
        change (ord DEL) with 127; change (ord ESC) with 27; lia).
  simpl orb. cbv iota. rewrite Hc. unfold turn_end.
  change (is_complete (on_char c st)) with (is_complete st). now rewrite Hi.
Qed.

Lemma array_typing (text : string) (st : state) (more : list ascii) :
  text <> EmptyString -> is_complete st = false ->
  Forall (fun c => isprintable c = true) (list_ascii_of_string text) ->
  run st (list_ascii_of_string text ++ more) = run (Session.array_typed st text) more.
Proof.
  revert st. induction text as [|c r IH]; intros st Hne Hi Hp; [congruence|].
  simpl in Hp. apply Forall_cons_iff in Hp as [Hc Hr].
  cbn [list_ascii_of_string app]. rewrite (array_char_turn c st _ Hc Hi).
  destruct r as [|b t].
  - reflexivity.
  - rewrite IH by (auto; discriminate). f_equal.
    unfold Session.array_typed, on_char. simpl. now rewrite append_cons.
Qed.

Lemma array_backspaces (n : nat) (st : state) (more : list ascii) :
  is_complete st = false ->
  run st (Session.backspaces n ++ more) = run (Nat.iter n on_backspace st) more.
Proof.
  revert st. induction n as [|n IH]; intros st Hi; [reflexivity|].
  unfold Session.backspaces. simpl repeat. cbn [app loop].
  change (Ascii.eqb DEL CR || Ascii.eqb DEL LF) with false.
  change (Ascii.eqb DEL DEL) with true. cbv iota. unfold turn_end.
  assert (Hb : is_complete (on_backspace st) = false).
  { unfold on_backspace. destruct (truthy (current_value st)); exact Hi. }
  rewrite Hb. fold (Session.backspaces n). rewrite (IH _ Hb).
  now rewrite Nat.iter_swap.
Qed.

Lemma array_untyping (text : string) (st : state) :
  Nat.iter (String.length text) on_backspace (Session.array_typed st text)
  = Session.array_typed st EmptyString.
Proof.
  remember (String.length text) as n eqn:Hn. revert text Hn.
  induction n as [|n IH]; intros text Hn.
  - destruct text; [reflexivity | discriminate].
  - assert (Hne : text <> EmptyString) by (intros ->; discriminate).
    rewrite Nat.iter_succ_r.
    replace (on_backspace (Session.array_typed st text))
      with (Session.array_typed st (drop_last text)).
    + apply IH. rewrite drop_last_length, <- Hn. reflexivity.
    + unfold on_backspace, Session.array_typed. simpl.
      rewrite (truthy_append _ _ Hne). now rewrite drop_last_append.
Qed.

End Array.

End TypingFacts.

(** X4: typing a non-empty text of printable characters appends it to the
    buffer and clears the error message, and does nothing else: the session
    goes on as from that state.  (The array editor stops reading as soon as
    its array is complete, so there the array must not be.) *)
Theorem typing_appends_to_buffer
    (text : string) (more : list ascii)
    (size : Z) (as_int : bool) (validate : validator) (ast : ArrayInput.state)
    (rows cols : Z) (as_symbol : bool) (mst : MatrixInput.state) :
  text <> EmptyString ->
  Forall (fun c => isprintable c = true) (Spec.keys_of text) ->
  (ArrayInput.is_complete ast = false ->
   ArrayInput.loop size as_int validate ast (Spec.keys_of text ++ more)
   = ArrayInput.loop size as_int validate (Session.array_typed ast text) more) /\
  MatrixInput.loop rows cols as_int as_symbol validate mst (Spec.keys_of text ++ more)
  = MatrixInput.loop rows cols as_int as_symbol validate
      (Session.matrix_typed mst text) more.
Proof.
  intros Hne Hp. split.
  - intros Hi. now apply TypingFacts.array_typing.
  - now apply TypingFacts.matrix_typing.
Qed.

(** Typing 12 after 5 was committed at index 0, and after 1 at cell (0, 0). *)
Lemma typing_appends_to_buffer_witness :
  ArrayInput.loop 3 false Spec.accept_all
    (ArrayInput.mkState ["5"; ""; ""] 1 "" "old" ["5"] [0]) (Spec.keys_of "12" ++ [])
  = Waiting (ArrayInput.mkState ["5"; ""; ""] 1 "12" "" ["5"] [0]) /\
  MatrixInput.loop 2 2 false false Spec.accept_all
    (MatrixInput.mkState [["1"; ""]; [""; ""]] 0 1 "" "old" ["1"] [(0, 0)])
    (Spec.keys_of "12" ++ [])
  = Waiting (MatrixInput.mkState [["1"; ""]; [""; ""]] 0 1 "12" "" ["1"] [(0, 0)]).
Proof.
  destruct (typing_appends_to_buffer "12" [] 3 false Spec.accept_all
              (ArrayInput.mkState ["5"; ""; ""] 1 "" "old" ["5"] [0])
              2 2 false
              (MatrixInput.mkState [["1"; ""]; [""; ""]] 0 1 "" "old" ["1"] [(0, 0)]))
    as [HA HM].
  - discriminate.
  - repeat constructor.
  - split; [apply HA; reflexivity | exact HM].
Defined.

(** X5: typing a text of printable characters and then pressing Backspace
    once per character leaves the buffer, the cells and the cursor as they
    were; of the whole state only the error message has changed: it is
    cleared. *)
Theorem backspace_undoes_typing
    (text : string) (more : list ascii)
    (size : Z) (as_int : bool) (validate : validator) (ast : ArrayInput.state)
    (rows cols : Z) (as_symbol : bool) (mst : MatrixInput.state) :
  text <> EmptyString ->
  Forall (fun c => isprintable c = true) (Spec.keys_of text) ->
  (ArrayInput.is_complete ast = false ->
   ArrayInput.loop size as_int validate ast
     (Spec.keys_of text ++ Session.backspaces (String.length text) ++ more)
   = ArrayInput.loop size as_int validate
       (ArrayInput.mkState (ArrayInput.array ast) (ArrayInput.current_pos ast)
          (ArrayInput.current_value ast) EmptyString
          (ArrayInput.validated ast) (ArrayInput.committed ast)) more) /\
  MatrixInput.loop rows cols as_int as_symbol validate mst
    (Spec.keys_of text ++ Session.backspaces (String.length text) ++ more)
  = MatrixInput.loop rows cols as_int as_symbol validate
      (MatrixInput.set_error EmptyString mst) more.
Proof.
  intros Hne Hp. split.
  - intros Hi. rewrite TypingFacts.array_typing by assumption.
    rewrite TypingFacts.array_backspaces by exact Hi.
    rewrite TypingFacts.array_untyping. unfold Session.array_typed.
    now rewrite TypingFacts.append_empty.
  - rewrite TypingFacts.matrix_typing by assumption.
    rewrite TypingFacts.matrix_backspaces. now rewrite TypingFacts.matrix_untyping.
Qed.

(** Typing bad and three Backspaces on a buffer holding 7. *)
Lemma backspace_undoes_typing_witness :
  ArrayInput.loop 3 false Spec.accept_all
    (ArrayInput.mkState ["5"; ""; ""] 1 "7" "old" ["5"] [0])
    (Spec.keys_of "bad" ++ Session.backspaces 3 ++ [])
  = Waiting (ArrayInput.mkState ["5"; ""; ""] 1 "7" "" ["5"] [0]) /\
  MatrixInput.loop 2 2 false false Spec.accept_all
    (MatrixInput.mkState [["1"; ""]; [""; ""]] 0 1 "7" "old" ["1"] [(0, 0)])
    (Spec.keys_of "bad" ++ Session.backspaces 3 ++ [])
  = Waiting (MatrixInput.mkState [["1"; ""]; [""; ""]] 0 1 "7" "" ["1"] [(0, 0)]).
Proof.
  destruct (backspace_undoes_typing "bad" [] 3 false Spec.accept_all
              (ArrayInput.mkState ["5"; ""; ""] 1 "7" "old" ["5"] [0])
              2 2 false
              (MatrixInput.mkState [["1"; ""]; [""; ""]] 0 1 "7" "old" ["1"] [(0, 0)]))
    as [HA HM].
  - discriminate.
  - repeat constructor.
  - split; [apply HA; reflexivity | exact HM].
Defined.

(** ** How a session ends *)

Module EndFacts.

Import PyFacts.

Section Array.

Import ArrayInput.

Variable size : Z.
Variable as_int : bool.
Variable validate : validator.

Local Abbreviation enter := (on_enter size as_int validate).
Local Abbreviation run := (loop size as_int validate).

(** Where a session of the array editor can stand. *)
Lemma array_loop_stands (P : state -> Prop) :
  (forall st st', P st -> enter st = Ok st' -> P st') ->
  (forall st, P st -> P (on_backspace st)) ->
  (forall d st, P st -> P (on_arrow size d st)) ->
  (forall c st, isprintable c = true -> P st -> P (on_char c st)) ->
  forall keys st, P st -> Session.array_stands P enter st (run st keys).
Proof.
  intros He Hb Ha Hc keys.
  assert (T : forall (next : state -> outcome state (option (list string)))
                (r : result state) st,
             (forall s, P s -> Session.array_stands P enter s (next s)) ->
             (forall s, r = Ok s -> P s) ->
             (forall e, r = Raise e -> P st /\ enter st = Raise e) ->
             Session.array_stands P enter st (turn_end next r)).
  { intros next r st Hnext Hr Hraise. unfold turn_end.
    destruct r as [s|e].
    - specialize (Hr s eq_refl). destruct (is_complete s) eqn:Hs.
      + simpl. now exists s.
      + specialize (Hnext s Hr). destruct (next s) as [[arr|]|e|st']; simpl in *; auto.
        destruct Hnext as [HP [->|Hi]]; auto.
    - simpl. exists st. now apply Hraise. }
  assert (G : forall n ks, (List.length ks <= n)%nat -> forall st,
             P st -> Session.array_stands P enter st (run st ks)).
  { induction n as [|n IH]; intros ks Hlen st HP.
    - destruct ks; [|simpl in Hlen; lia]. simpl. auto.
    - destruct ks as [|char ks1]; [simpl; auto|].
      simpl in Hlen. cbn [loop].
      destruct (Ascii.eqb char CR || Ascii.eqb char LF).
      { apply T.
        - intros s Ps. apply IH; [lia | exact Ps].
        - intros s Hs. now apply (He st).
        - intros e Hr. auto. }
      destruct (Ascii.eqb char DEL).
      { apply T.
        - intros s Ps. apply IH; [lia | exact Ps].
        - intros s [= <-]. now apply Hb.
        - discriminate. }
      destruct (Ascii.eqb char ESC).
      { destruct ks1 as [|next_char ks2]; [simpl; auto|].
        simpl in Hlen.
        destruct (Ascii.eqb next_char "["); [|exact I].
        destruct ks2 as [|direction ks3]; [simpl; auto|].
        simpl in Hlen. apply T.
        - intros s Ps. apply IH; [lia | exact Ps].
        - intros s [= <-]. now apply Ha.
        - discriminate. }
      destruct (isprintable char) eqn:Hp.
      { apply T.
        - intros s Ps. apply IH; [lia | exact Ps].
        - intros s [= <-]. now apply Hc.
        - discriminate. }
      apply T.
      + intros s Ps. apply IH; [lia | exact Ps].
      + now intros s [= <-].
      + discriminate. }
  intros st. apply (G (List.length keys)). lia.
Qed.

End Array.

Section Matrix.

Import MatrixInput.

Variables rows cols : Z.
Variables as_int as_symbol : bool.
Variable validate : validator.

Local Abbreviation enter := (on_enter rows cols as_int as_symbol validate).
Local Abbreviation run := (loop rows cols as_int as_symbol validate).

(** Where a session of the matrix editor can stand. *)
Lemma matrix_loop_stands (P : state -> Prop) :
  (forall st st', P st -> enter st = (Ok None, st') -> P st') ->
  (forall st, P st -> P (on_backspace st)) ->
  (forall d st, P st -> P (on_arrow rows cols d st)) ->
  (forall c st, isprintable c = true -> P st -> P (on_char c st)) ->
  forall keys st, P st -> Session.matrix_stands P enter (run st keys).
Proof.
  intros He Hb Ha Hc keys.
  assert (G : forall n ks, (List.length ks <= n)%nat -> forall st,
             P st -> Session.matrix_stands P enter (run st ks)).
  { induction n as [|n IH]; intros ks Hlen st HP.
    - destruct ks; [|simpl in Hlen; lia]. exact HP.
    - destruct ks as [|char ks1]; [exact HP|].
      simpl in Hlen. cbn [loop].
      destruct (ord char =? 27).
      { destruct ks1 as [|next_char ks2]; [exact HP|].
        simpl in Hlen.
        destruct (Ascii.eqb next_char "["); [|exact I].
        destruct ks2 as [|direction ks3]; [exact HP|].
        simpl in Hlen. apply IH; [lia | now apply Ha]. }
      destruct (ord char =? 13).
      { destruct (enter st) as [[[g|]|e] s1] eqn:E.
        - simpl. now exists st, s1.
        - apply IH; [lia | now apply (He st)].
        - simpl. now exists st, s1. }
      destruct (ord char =? 127); [apply IH; [lia | now apply Hb]|].
      destruct (isprintable char) eqn:Hp; apply IH; try lia; auto. }
  intros st. apply (G (List.length keys)). lia.
Qed.

End Matrix.

End EndFacts.

(** ** The grid an editor returns *)

Module GridFacts.

Import PyFacts LoopFacts ScanFacts EnterFacts FormatFacts RunFacts.

Lemma forallb_false {A : Type} (f : A -> bool) (l : list A) :
  forallb f l = false -> exists x, In x l /\ f x = false.
Proof.
  induction l as [|a l IH]; simpl; [discriminate|].
  destruct (f a) eqn:E; simpl.
  - intros H. destruct (IH H) as (x & Hx & Hf). exists x. auto.
  - intros _. exists a. auto.
Qed.

Lemma nonempty_false (s : string) : nonempty s = false <-> s = EmptyString.
Proof.
  unfold nonempty. destruct (String.eqb_spec s EmptyString); simpl; split;
    congruence.
Qed.

Lemma all_nonempty (l : list string) :
  forallb nonempty l = true <-> Forall (fun c => c <> EmptyString) l.
Proof.
  rewrite forallb_forall, Forall_forall.
  split; intros H c Hc; apply nonempty_true; auto.
Qed.

(** The completion test of the matrix editor, on the cells row after row. *)
Lemma complete_cells (m : MatrixInput.grid) :
  MatrixInput.is_matrix_complete m = true
  <-> Forall (fun c => c <> EmptyString) (Session.cells m).
Proof.
  unfold MatrixInput.is_matrix_complete, Session.cells.
  induction m as [|r m IH]; simpl.
  - split; auto.
  - rewrite andb_true_iff, Forall_app, IH, all_nonempty. tauto.
Qed.

(** A grid that is not complete has an empty cell. *)
Lemma incomplete_has_empty (rows cols : Z) (m : MatrixInput.grid) :
  Spec.shaped rows cols m -> MatrixInput.is_matrix_complete m = false ->
  exists i j, 0 <= i < rows /\ 0 <= j < cols /\
              MatrixInput.cell m i j = Ok EmptyString.
Proof.
  intros Hm Hc.
  destruct (find (Spec.empty_at m) (Spec.row_major rows cols)) as [[i j]|] eqn:E.
  - apply find_some in E as [Hin He]. apply in_row_major in Hin as [Hi Hj].
    simpl in Hi, Hj. exists i, j. split; [exact Hi|]. split; [exact Hj|].
    unfold Spec.empty_at in He. simpl fst in He. simpl snd in He.
    destruct (MatrixInput.cell m i j) as [c|e]; [|discriminate].
    apply String.eqb_eq in He. now subst c.
  - pose proof (proj1 (find_nothing _ _) E) as E'.
    apply (complete_iff rows cols m Hm) in E'. congruence.
Qed.

(** After a cell was given a text that is not empty, the grid is complete
    exactly when neither scan finds an empty cell. *)
Lemma scans_find_nothing (rows cols : Z) (m : MatrixInput.grid) (row col : Z)
    (v : string) :
  Spec.shaped rows cols m -> 0 <= row < rows -> 0 <= col < cols ->
  MatrixInput.cell m row col = Ok v -> v <> EmptyString ->
  MatrixInput.is_matrix_complete m = true <->
  Spec.first_empty_after rows cols m (row, col) = None /\
  Spec.first_empty_before rows cols m (row, col) = None.
Proof.
  intros Hm Hr Hc Hcell Hv.
  rewrite (complete_iff rows cols m Hm).
  unfold Spec.first_empty_after, Spec.first_empty_before.
  rewrite !find_nothing. split.
  - intros H. split; intros p Hp; apply filter_In in Hp as [Hp _]; now apply H.
  - intros [HA HB] p Hp.
    destruct (precedes_cases (row, col) p) as [<-|[Hlt|Hlt]].
    + unfold Spec.empty_at. simpl fst. simpl snd. rewrite Hcell.
      now apply String.eqb_neq.
    + apply HA. apply filter_In. now split.
    + apply HB. apply filter_In. now split.
Qed.

Section Array.

Import ArrayInput.

Variable size : Z.
Variable as_int : bool.
Variable validate : validator.

Local Abbreviation array_inv := (Spec.array_inv size).

Lemma array_inv_backspace (st : state) : array_inv st -> array_inv (on_backspace st).
Proof. intros H. unfold on_backspace. destruct (truthy (current_value st)); auto. Qed.

Lemma array_inv_arrow (d : ascii) (st : state) :
  array_inv st -> array_inv (on_arrow size d st).
Proof.
  intros (Hlen & Hpos & Hup & Hcells). unfold on_arrow.
  destruct (Ascii.eqb d "D" && (0 <? current_pos st)) eqn:E1.
  - apply andb_prop in E1 as [_ E1]. unfold Spec.array_inv. simpl.
    split; [exact Hlen|]. split; [lia|]. split; [lia|]. exact Hcells.
  - destruct (Ascii.eqb d "C" && (current_pos st <? size - 1)) eqn:E2.
    + apply andb_prop in E2 as [_ E2]. unfold Spec.array_inv. simpl.
      split; [exact Hlen|]. split; [lia|]. split; [lia|]. exact Hcells.
    + unfold Spec.array_inv. auto.
Qed.

Lemma array_inv_char (c : ascii) (st : state) : array_inv st -> array_inv (on_char c st).
Proof. intros H. exact H. Qed.

(** Where a session of the array editor can stand, with what holds in
    every state. *)
Lemma array_session_stands (keys : list ascii) :
  Session.array_stands array_inv (on_enter size as_int validate) (initial size)
    (loop size as_int validate (initial size) keys).
Proof.
  apply EndFacts.array_loop_stands.
  - apply array_inv_enter.
  - apply array_inv_backspace.
  - apply array_inv_arrow.
  - intros c st _. apply array_inv_char.
  - apply array_inv_initial.
Qed.

(** An array that is not complete has an empty cell. *)
Lemma array_incomplete_has_empty (st : state) :
  array_inv st -> is_complete st = false ->
  exists i, 0 <= i < size /\ getitem (array st) i = Ok EmptyString.
Proof.
  intros (Hlen & _) H. apply forallb_false in H as (c & Hc & He).
  apply nonempty_false in He. subst c. apply In_nth_error in Hc as [k Hk].
  assert (Hb : (k < List.length (array st))%nat) by (apply nth_error_Some; congruence).
  exists (Z.of_nat k). split; [lia|].
  destruct (getitem_inside (array st) (Z.of_nat k)) as (x & Hg & Hn); [lia|].
  rewrite Nat2Z.id in Hn. congruence.
Qed.

End Array.

Section Matrix.

Import MatrixInput.

Variables rows cols : Z.
Variables as_int as_symbol : bool.
Variable validate : validator.

Local Abbreviation matrix_inv := (Spec.matrix_inv rows cols).
Local Abbreviation enter := (on_enter rows cols as_int as_symbol validate).

Lemma matrix_inv_backspace (st : state) : matrix_inv st -> matrix_inv (on_backspace st).
Proof. intros H. unfold on_backspace. destruct (truthy (current_value st)); auto. Qed.

Lemma matrix_inv_arrow (d : ascii) (st : state) :
  matrix_inv st -> matrix_inv (on_arrow rows cols d st).
Proof.
  intros (Hm & Hrow & Hcol & Hgrid & Hcells). unfold on_arrow.
  repeat match goal with
         | |- context [if ?a && ?b then _ else _] =>
             let E := fresh "E" in
             destruct (a && b) eqn:E; [apply andb_prop in E as [_ E]|]
         end;
    unfold Spec.matrix_inv, Spec.on_grid in *; simpl;
    (split; [exact Hm|]); (split; [lia|]); (split; [lia|]);
    (split; [intros; specialize (Hgrid ltac:(assumption) ltac:(assumption)); lia|]);
    exact Hcells.
Qed.

Lemma matrix_inv_char (c : ascii) (st : state) : matrix_inv st -> matrix_inv (on_char c st).
Proof. intros H. exact H. Qed.

(** Every way [Enter] can end in a state whose grid has its shape: on an
    empty buffer nothing happens; a text that is not committed leaves the
    cells, the cursor and the buffer alone; a commit ends as the two scans
    say. *)
Lemma matrix_enter_cases (st st' : state) (r : result (option grid)) :
  Spec.shaped rows cols (matrix st) -> 0 <= current_row st -> 0 <= current_col st ->
  enter st = (r, st') ->
  (current_value st = EmptyString /\ r = Ok None /\ st' = st)
  \/
  (current_value st <> EmptyString /\
   matrix st' = matrix st /\ current_row st' = current_row st /\
   current_col st' = current_col st /\ current_value st' = current_value st /\
   committed st' = committed st /\
   (r = Ok None \/
    exists e, r = Raise e /\ e <> ValueError /\ error_message st' = error_message st))
  \/
  (exists formatted m' e,
     current_value st <> EmptyString /\
     format_check as_int as_symbol (current_value st) = Ok tt /\
     validate (current_value st) = Ok (true, e) /\
     format_number (current_value st) as_int as_symbol = Ok formatted /\
     set_cell (matrix st) (current_row st) (current_col st) formatted = Ok m' /\
     Spec.on_grid rows cols st /\
     (r, st') =
       match Spec.first_empty_after rows cols m' (current_row st, current_col st) with
       | Some q => (Ok None, set_cursor q (after_commit st m'))
       | None =>
           match Spec.first_empty_before rows cols m'
                   (current_row st, current_col st) with
           | Some q => (Ok None, set_cursor q (after_commit st m'))
           | None => (Ok (Some m'), after_commit st m')
           end
       end).
Proof.
  intros Hm Hrow Hcol H.
  destruct (truthy (current_value st)) eqn:Ht.
  2:{ apply truthy_false in Ht. rewrite (StepFacts.matrix_enter_empty _ _ _ _ _ _ Ht) in H.
      injection H as <- <-. left. auto. }
  apply truthy_true in Ht. right.
  assert (Stay : forall (r0 : result (option grid)) (s0 : state),
             (r0, s0) = (r, st') ->
             matrix s0 = matrix st -> current_row s0 = current_row st ->
             current_col s0 = current_col st -> current_value s0 = current_value st ->
             committed s0 = committed st ->
             (r0 = Ok None \/
              exists e, r0 = Raise e /\ e <> ValueError /\
                        error_message s0 = error_message st) ->
             current_value st <> EmptyString /\
             matrix st' = matrix st /\ current_row st' = current_row st /\
             current_col st' = current_col st /\ current_value st' = current_value st /\
             committed st' = committed st /\
             (r = Ok None \/
              exists e, r = Raise e /\ e <> ValueError /\
                        error_message st' = error_message st)).
  { intros r0 s0 [= <- <-]. auto 10. }
  destruct (format_check as_int as_symbol (current_value st)) as [[]|e0] eqn:Hc.
  2:{ left. revert H. unfold on_enter. unfold_monad.
      apply truthy_true in Ht. rewrite Ht, Hc. apply truthy_true in Ht.
      destruct e0; intros H; apply (Stay _ _ H); simpl; auto;
        right; eexists; (split; [reflexivity|]); (split; [discriminate | reflexivity]). }
  destruct (validate (current_value st)) as [[[|] msg]|e0] eqn:Hval.
  2:{ left. rewrite (matrix_enter_rejected _ _ _ _ _ _ _ Ht Hc Hval) in H.
      apply (Stay _ _ H); simpl; auto. }
  2:{ left. revert H. unfold on_enter. unfold_monad.
      apply truthy_true in Ht. rewrite Ht, Hc. simpl. rewrite Hval.
      apply truthy_true in Ht.
      destruct e0; intros H; apply (Stay _ _ H); simpl; auto;
        right; eexists; (split; [reflexivity|]); (split; [discriminate | reflexivity]). }
  destruct (format_number (current_value st) as_int as_symbol) as [f|e0] eqn:Hf.
  2:{ left. revert H. unfold on_enter. unfold_monad.
      apply truthy_true in Ht. rewrite Ht, Hc. simpl. rewrite Hval, Hf.
      apply truthy_true in Ht.
      destruct e0; intros H; apply (Stay _ _ H); simpl; auto;
        right; eexists; (split; [reflexivity|]); (split; [discriminate | reflexivity]). }
  destruct (set_cell (matrix st) (current_row st) (current_col st) f) as [m'|e0] eqn:Hs.
  2:{ left. revert H. unfold on_enter. unfold_monad.
      apply truthy_true in Ht. rewrite Ht, Hc. simpl. rewrite Hval, Hf. simpl.
      rewrite Hs. apply truthy_true in Ht.
      destruct e0; intros H; apply (Stay _ _ H); simpl; auto;
        right; eexists; (split; [reflexivity|]); (split; [discriminate | reflexivity]). }
  right. exists f, m', msg.
  destruct (set_cell_on_grid rows cols _ _ _ _ _ Hm Hrow Hcol Hs) as [Hr' Hc'].
  assert (Br : 0 <= current_row st < rows) by lia.
  assert (Bc : 0 <= current_col st < cols) by lia.
  pose proof (set_cell_shaped rows cols _ _ _ _ _ Hm Br Bc Hs) as Hm'.
  do 5 (split; [first [assumption | reflexivity]|]). split; [split; assumption|].
  rewrite <- H.
  apply (matrix_enter_commit rows cols as_int as_symbol validate st msg f m'); auto.
  - apply find_next_empty_spec; auto.
  - apply (find_prev_empty_spec rows); auto.
Qed.

(** What every state of a session satisfies and, when the grid has a cell,
    that one of its cells is empty. *)
Lemma matrix_session_stands (keys : list ascii) :
  Session.matrix_stands
    (fun s => matrix_inv s /\
              (1 <= rows -> 1 <= cols -> is_matrix_complete (matrix s) = false))
    enter (loop rows cols as_int as_symbol validate (initial rows cols) keys).
Proof.
  apply EndFacts.matrix_loop_stands.
  - intros st st' [Hinv Hinc] H. split; [eapply matrix_inv_enter; eauto|].
    intros Hr Hc. specialize (Hinc Hr Hc).
    destruct Hinv as (Hm & Hrow & Hcol & Hgrid & _).
    apply (matrix_enter_cases st st' _ Hm Hrow Hcol) in H
      as [(_ & _ & ->)|[(_ & -> & _)|(f & m' & e & Hv & _ & _ & Hf & Hs & [Br Bc] & H)]];
      [exact Hinc | exact Hinc |].
    pose proof (set_cell_shaped rows cols _ _ _ _ _ Hm Br Bc Hs) as Hm'.
    assert (Hcell : cell m' (current_row st) (current_col st) = Ok f).
    { rewrite (set_cell_read rows cols _ _ _ _ _ _ _ Hm Br Bc Hs Br Bc).
      now rewrite !Z.eqb_refl. }
    assert (Hne : f <> EmptyString)
      by (eapply matrix_format_number_nonempty; eauto).
    pose proof (scans_find_nothing rows cols m' _ _ f Hm' Br Bc Hcell Hne) as Hiff.
    destruct (Spec.first_empty_after rows cols m' (current_row st, current_col st))
      as [q|] eqn:EA.
    + injection H as ->. simpl.
      destruct (is_matrix_complete m'); [|reflexivity].
      destruct (proj1 Hiff eq_refl); discriminate.
    + destruct (Spec.first_empty_before rows cols m' (current_row st, current_col st))
        as [q|] eqn:EB; [|discriminate].
      injection H as ->. simpl.
      destruct (is_matrix_complete m'); [|reflexivity].
      destruct (proj1 Hiff eq_refl); discriminate.
  - intros st [Hinv Hinc]. split; [now apply matrix_inv_backspace|].
    unfold on_backspace. destruct (truthy (current_value st)); exact Hinc.
  - intros d st [Hinv Hinc]. split; [now apply matrix_inv_arrow|].
    unfold on_arrow.
    repeat match goal with
           | |- context [if ?a then _ else _] => destruct a
           end; exact Hinc.
  - intros c st _ [Hinv Hinc]. split; [now apply matrix_inv_char | exact Hinc].
  - split; [apply matrix_inv_initial|]. intros Hr Hc. unfold initial. simpl.
    destruct (Z.to_nat rows) as [|n] eqn:En; [lia|].
    destruct (Z.to_nat cols) as [|k] eqn:Ek; [lia|]. reflexivity.
Qed.

(** The grid [Enter] returns has its shape and no empty cell, and it has a
    cell. *)
Lemma returned_grid (st st' : state) (m : grid) :
  matrix_inv st -> enter st = (Ok (Some m), st') ->
  1 <= rows /\ 1 <= cols /\ Spec.shaped rows cols m /\ is_matrix_complete m = true.
Proof.
  intros (Hm & Hrow & Hcol & _) H.
  apply (matrix_enter_cases st st' _ Hm Hrow Hcol) in H
    as [(_ & H & _)|[(_ & _ & _ & _ & _ & _ & [H|(e & H & _)])
                    |(f & m' & e & Hv & _ & _ & Hf & Hs & [Br Bc] & H)]];
    try discriminate.
  pose proof (set_cell_shaped rows cols _ _ _ _ _ Hm Br Bc Hs) as Hm'.
  assert (Hcell : cell m' (current_row st) (current_col st) = Ok f).
  { rewrite (set_cell_read rows cols _ _ _ _ _ _ _ Hm Br Bc Hs Br Bc).
    now rewrite !Z.eqb_refl. }
  assert (Hne : f <> EmptyString)
    by (eapply matrix_format_number_nonempty; eauto).
  pose proof (scans_find_nothing rows cols m' _ _ f Hm' Br Bc Hcell Hne) as Hiff.
  destruct (Spec.first_empty_after rows cols m' (current_row st, current_col st))
    as [q|] eqn:EA; [discriminate|].
  destruct (Spec.first_empty_before rows cols m' (current_row st, current_col st))
    as [q|] eqn:EB; [discriminate|].
  injection H as -> _.
  split; [lia|]. split; [lia|]. split; [exact Hm'|]. apply Hiff. auto.
Qed.

End Matrix.

End GridFacts.

(** X7: the array [input_array] returns has [size] cells, none of them
    empty; and while the editor of an array of at least one cell waits for
    a key, some cell is still empty. *)
Theorem returned_array_has_no_empty_cell
    (size : Z) (as_int : bool) (v : option validator) (keys : list ascii)
    (arr : list string) (st : ArrayInput.state) :
  (ArrayInput.input_array size as_int v keys = Returned (Some arr) ->
   List.length arr = Z.to_nat size /\ Forall (fun c => c <> EmptyString) arr) /\
  (1 <= size ->
   ArrayInput.input_array size as_int v keys = Waiting st ->
   exists i, 0 <= i < size /\ getitem (ArrayInput.array st) i = Ok EmptyString).
Proof.
  unfold ArrayInput.input_array.
  set (validate := match v with
                   | None => ArrayInput.default_validator as_int
                   | Some f => f
                   end).
  pose proof (GridFacts.array_session_stands size as_int validate keys) as H.
  split.
  - intros E. rewrite E in H. destruct H as (s & Hinv & Hc & ->).
    split; [apply Hinv | now apply GridFacts.all_nonempty].
  - intros Hs E. rewrite E in H. destruct H as [Hinv [->|Hc]].
    + exists 0. split; [lia|]. unfold ArrayInput.initial. simpl.
      destruct (Z.to_nat size) as [|n] eqn:En; [lia | reflexivity].
    + now apply GridFacts.array_incomplete_has_empty.
Qed.

Lemma returned_array_has_no_empty_cell_witness :
  (List.length ["5"; "7"] = Z.to_nat 2 /\
   Forall (fun c => c <> EmptyString) ["5"; "7"]) /\
  exists i, 0 <= i < 2 /\ getitem ["5"; ""] i = Ok EmptyString.
Proof.
  destruct (returned_array_has_no_empty_cell 2 false None
              (Spec.keys_of "5" ++ [CR] ++ Spec.keys_of "7.0" ++ [CR])
              ["5"; "7"] (ArrayInput.initial 2)) as [HR _].
  destruct (returned_array_has_no_empty_cell 2 false None
              (Spec.keys_of "5" ++ [CR])
              [] (ArrayInput.mkState ["5"; ""] 1 "" "" ["5"] [0])) as [_ HW].
  split.
  - apply HR. reflexivity.
  - apply HW; [lia | reflexivity].
Defined.

(** X8: the grid [input_matrix] returns has [rows] rows of [cols] cells
    and no empty cell, and there is at least one cell; and while the editor
    of a grid with a cell waits for a key, some cell is still empty. *)
Theorem returned_matrix_has_no_empty_cell
    (rows cols : Z) (as_int as_symbol : bool) (v : option validator)
    (keys : list ascii) (m : MatrixInput.grid) (st : MatrixInput.state) :
  (MatrixInput.input_matrix rows cols as_int as_symbol v keys = Returned (Some m) ->
   1 <= rows /\ 1 <= cols /\ Spec.shaped rows cols m /\
   Forall (fun c => c <> EmptyString) (Session.cells m)) /\
  (1 <= rows -> 1 <= cols ->
   MatrixInput.input_matrix rows cols as_int as_symbol v keys = Waiting st ->
   exists i j, 0 <= i < rows /\ 0 <= j < cols /\
               MatrixInput.cell (MatrixInput.matrix st) i j = Ok EmptyString).
Proof.
  unfold MatrixInput.input_matrix.
  set (validate := match v with
                   | None => MatrixInput.default_validator as_int as_symbol
                   | Some f => f
                   end).
  pose proof (GridFacts.matrix_session_stands rows cols as_int as_symbol validate keys)
    as H.
  split.
  - intros E. rewrite E in H. destruct H as (s & s' & [Hinv _] & He).
    destruct (GridFacts.returned_grid rows cols as_int as_symbol validate s s' m Hinv He)
      as (Hr & Hc & Hm & Hcomplete).
    do 3 (split; [assumption|]). now apply GridFacts.complete_cells.
  - intros Hr Hc E. rewrite E in H. destruct H as [Hinv Hinc].
    apply (GridFacts.incomplete_has_empty rows cols); [apply Hinv | now apply Hinc].
Qed.

Lemma returned_matrix_has_no_empty_cell_witness :
  (1 <= 1 /\ 1 <= 2 /\ Spec.shaped 1 2 [["a"; "b"]] /\
   Forall (fun c => c <> EmptyString) (Session.cells [["a"; "b"]])) /\
  exists i j, 0 <= i < 1 /\ 0 <= j < 2 /\
              MatrixInput.cell [["a"; ""]] i j = Ok EmptyString.
Proof.
  destruct (returned_matrix_has_no_empty_cell 1 2 false true None
              ["a"%char; CR; "b"%char; CR]
              [["a"; "b"]] (MatrixInput.initial 1 2)) as [HR _].
  destruct (returned_matrix_has_no_empty_cell 1 2 false true None
              ["a"%char; CR]
              [] (MatrixInput.mkState [["a"; ""]] 0 1 "" "" ["a"] [(0, 0)]))
    as [_ HW].
  split.
  - apply HR. reflexivity.
  - apply HW; [lia | lia | reflexivity].
Defined.

(** ** Sessions with the default validator, and grids without a cell *)

Module DefaultFacts.

Import PyFacts LoopFacts ScanFacts EnterFacts FormatFacts RunFacts GridFacts.

(** What the default validator and [format_number] of the array editor can
    raise. *)
Lemma array_default_raise (as_int : bool) (text : string) (e : exn) :
  ArrayInput.default_validator as_int text = Raise e ->
  as_int = true /\ e = OverflowError.
Proof.
  unfold ArrayInput.default_validator, float_of_str.
  destruct (parse_float text) as [[neg m ex|neg|]|]; destruct as_int; simpl;
    try discriminate.
  intros [= <-]. auto.
Qed.

Lemma array_format_raise (as_int : bool) (text : string) (e : exn) :
  ArrayInput.format_number text as_int = Raise e ->
  as_int = true /\ e = OverflowError.
Proof.
  rewrite FormatMore.numeric_format.
  destruct (parse_float text) as [[neg m ex|neg|]|]; destruct as_int; simpl;
    try discriminate.
  intros [= <-]. auto.
Qed.

(** What the format check of the matrix editor can raise, and what
    follows when it passes. *)
Lemma format_check_raise (as_int as_symbol : bool) (text : string) (e : exn) :
  MatrixInput.format_check as_int as_symbol text = Raise e ->
  e = ValueError \/ (as_int = true /\ e = OverflowError).
Proof.
  unfold MatrixInput.format_check, float_of_str.
  destruct (parse_float text) as [[neg m ex|neg|]|]; destruct as_int, as_symbol;
    simpl; try discriminate; intros [= <-]; auto.
Qed.

Lemma default_after_check (as_int as_symbol : bool) (text : string) :
  MatrixInput.format_check as_int as_symbol text = Ok tt ->
  (exists b msg, MatrixInput.default_validator as_int as_symbol text = Ok (b, msg)) /\
  (exists f, MatrixInput.format_number text as_int as_symbol = Ok f).
Proof.
  unfold MatrixInput.format_check, MatrixInput.default_validator,
    MatrixInput.format_number, float_of_str.
  destruct (parse_float text) as [[neg m ex|neg|]|]; destruct as_int, as_symbol;
    simpl; try discriminate; intros _;
    try destruct (len text =? 1); split; eauto.
Qed.

Section Array.

Import ArrayInput.

Variable size : Z.
Variable as_int : bool.
Variable validate : validator.

(** With the default validator [Enter] raises nothing but [OverflowError]. *)
Lemma array_enter_default_raise (st : state) (e : exn) :
  1 <= size -> Spec.array_inv size st ->
  on_enter size as_int (default_validator as_int) st = Raise e ->
  as_int = true /\ e = OverflowError.
Proof.
  intros Hs (Hlen & Hpos & Hup & _). unfold on_enter.
  destruct (truthy (current_value st)).
  - destruct (default_validator as_int (current_value st)) as [[[|] msg]|e0] eqn:Hv;
      simpl.
    + destruct (format_number (current_value st) as_int) as [f|e0] eqn:Hf; simpl.
      * rewrite setitem_inside by lia. discriminate.
      * intros [= <-]. eapply array_format_raise; eauto.
    + discriminate.
    + intros [= <-]. eapply array_default_raise; eauto.
  - destruct (current_pos st <? size - 1); discriminate.
Qed.

(** With no cell to fill, the first turn returns the empty array. *)
Lemma empty_array_turn (st : state) (c : ascii) (more : list ascii) :
  array st = [] -> current_value st = EmptyString -> c <> ESC ->
  loop size as_int validate st (c :: more) = Returned (Some []).
Proof.
  intros Ha Hv Hc. apply Ascii.eqb_neq in Hc. cbn [loop]. rewrite Hc.
  unfold on_enter, on_backspace, on_char, turn_end, is_complete. rewrite Hv. simpl.
  destruct (Ascii.eqb c CR || Ascii.eqb c LF).
  - destruct (current_pos st <? size - 1); simpl; now rewrite Ha.
  - destruct (Ascii.eqb c DEL); [now rewrite Ha|].
    destruct (isprintable c); simpl; now rewrite Ha.
Qed.

Lemma empty_array_arrow (st : state) (d : ascii) (more : list ascii) :
  array st = [] ->
  loop size as_int validate st (Spec.arrow d ++ more) = Returned (Some []).
Proof.
  intros Ha. unfold Spec.arrow. cbn [app loop].
  change (Ascii.eqb ESC CR || Ascii.eqb ESC LF) with false.
  change (Ascii.eqb ESC DEL) with false. change (Ascii.eqb ESC ESC) with true.
  change (Ascii.eqb "[" "[") with true. cbv iota.
  unfold turn_end, is_complete, on_arrow.
  destruct (Ascii.eqb d "D" && (0 <? current_pos st)); simpl; [now rewrite Ha|].
  destruct (Ascii.eqb d "C" && (current_pos st <? size - 1)); simpl; now rewrite Ha.
Qed.

Lemma empty_array_never_raises (keys : list ascii) (e : exn) :
  size <= 0 -> loop size as_int validate (initial size) keys <> Raised e.
Proof.
  intros Hs.
  assert (Ha : array (initial size) = []).
  { unfold initial. simpl. now replace (Z.to_nat size) with 0%nat by lia. }
  destruct keys as [|c more]; [discriminate|].
  destruct (Ascii.eqb_spec c ESC) as [->|Hne].
  - destruct more as [|n ks2]; [discriminate|].
    destruct (Ascii.eqb_spec n "[") as [->|Hn].
    + destruct ks2 as [|d ks3]; [discriminate|].
      change (ESC :: "["%char :: d :: ks3) with (Spec.arrow d ++ ks3).
      rewrite (empty_array_arrow _ d ks3 Ha). discriminate.
    + apply Ascii.eqb_neq in Hn. cbn [loop].
      change (Ascii.eqb ESC CR || Ascii.eqb ESC LF) with false.
      change (Ascii.eqb ESC DEL) with false. change (Ascii.eqb ESC ESC) with true.
      cbv iota. rewrite Hn. discriminate.
  - rewrite (empty_array_turn _ c more Ha eq_refl Hne). discriminate.
Qed.

End Array.

Section Matrix.

Import MatrixInput.

Variables rows cols : Z.
Variables as_int as_symbol : bool.

(** With the default validator, and the cursor on a cell, [Enter] raises
    nothing but [OverflowError]. *)
Lemma matrix_enter_default_raise (st st' : state) (e : exn) :
  Spec.shaped rows cols (matrix st) -> Spec.on_grid rows cols st ->
  on_enter rows cols as_int as_symbol (default_validator as_int as_symbol) st
  = (Raise e, st') ->
  as_int = true /\ e = OverflowError.
Proof.
  intros Hm [Br Bc] H.
  destruct (String.eqb_spec (current_value st) EmptyString) as [Hv|Hv].
  { rewrite StepFacts.matrix_enter_empty in H by exact Hv. discriminate. }
  destruct (format_check as_int as_symbol (current_value st)) as [[]|e0] eqn:Hc.
  - destruct (default_after_check _ _ _ Hc) as [(b & msg & Hval) (f & Hf)].
    destruct b.
    + destruct (set_cell_inside rows cols (matrix st) _ _ f Hm Br Bc)
        as (r0 & _ & Hs).
      pose proof (set_cell_shaped rows cols _ _ _ _ _ Hm Br Bc Hs) as Hm'.
      rewrite (matrix_enter_commit rows cols as_int as_symbol _ st msg f _ _ _
                 Hv Hc Hval Hf Hs
                 (find_next_empty_spec rows cols _ _ _ Hm' Br Bc)
                 (find_prev_empty_spec rows cols _ _ _ Hm' Br Bc)) in H.
      destruct (Spec.first_empty_after rows cols _ _); [discriminate|].
      destruct (Spec.first_empty_before rows cols _ _); discriminate.
    + rewrite (matrix_enter_rejected _ _ _ _ _ _ _ Hv Hc Hval) in H. discriminate.
  - destruct (format_check_raise _ _ _ _ Hc) as [->|[Hi ->]].
    + rewrite (matrix_enter_bad_format _ _ _ _ _ _ Hv Hc) in H. discriminate.
    + apply truthy_true in Hv. revert H. unfold on_enter. unfold_monad.
      rewrite Hv, Hc. intros [= <- _]. auto.
Qed.

(** In a grid without a cell, confirming a character in symbol mode
    raises. *)
Lemma no_cell_commit_raises (c : ascii) (more : list ascii) :
  rows <= 0 \/ cols <= 0 -> isprintable c = true ->
  input_symbol_matrix rows cols None (c :: CR :: more) = Raised IndexError.
Proof.
  intros Hno Hc. unfold input_symbol_matrix, input_matrix.
  rewrite (TypingFacts.matrix_char_turn _ _ _ _ _ c _ _ Hc). cbn [loop].
  change (ord CR =? 27) with false. change (ord CR =? 13) with true. cbv iota.
  unfold on_enter, on_char, initial. unfold_monad. simpl.
  destruct Hno as [Hr|Hk].
  - replace (Z.to_nat rows) with 0%nat by lia. reflexivity.
  - replace (Z.to_nat cols) with 0%nat by lia.
    destruct (Z.to_nat rows); reflexivity.
Qed.

End Matrix.

Section Symbol.

Import MatrixInput.

Variables rows cols : Z.

Local Abbreviation enter := (on_enter rows cols false true (default_validator false true)).

(** In symbol mode with the default validator every turn keeps the cells
    that are not empty one character long. *)
Lemma symbol_enter_keeps (st st' : state) (r : result (option grid)) :
  Spec.matrix_inv rows cols st ->
  Forall (Forall Session.symbol_or_empty) (matrix st) ->
  enter st = (r, st') ->
  Forall (Forall Session.symbol_or_empty) (matrix st') /\
  forall m, r = Ok (Some m) -> m = matrix st'.
Proof.
  intros (Hm & Hrow & Hcol & _) HQ H.
  apply (matrix_enter_cases rows cols false true _ st st' r Hm Hrow Hcol) in H
    as [(_ & -> & ->)|[(_ & -> & _ & _ & _ & _ & [->|(e & -> & _)])
                      |(f & m' & e & Hv & _ & Hval & Hf & Hs & [Br Bc] & H)]];
    try (split; [exact HQ | discriminate]).
  assert (Hlen : len (current_value st) = 1).
  { unfold default_validator in Hval.
    destruct (Z.eqb_spec (len (current_value st)) 1); [assumption | discriminate]. }
  injection Hf as <-.
  destruct (set_cell_inside rows cols (matrix st) _ _ (current_value st) Hm Br Bc)
    as (r0 & Hn & E).
  rewrite E in Hs. injection Hs as <-.
  assert (HQ' : Forall (Forall Session.symbol_or_empty)
                  (update (matrix st) (Z.to_nat (current_row st))
                     (update r0 (Z.to_nat (current_col st)) (current_value st)))).
  { apply update_forall; [exact HQ|]. apply update_forall; [|now right].
    rewrite Forall_forall in HQ. apply HQ. eapply nth_error_In; eauto. }
  destruct (Spec.first_empty_after rows cols _ _) as [q|].
  { injection H as -> ->. split; [exact HQ' | discriminate]. }
  destruct (Spec.first_empty_before rows cols _ _) as [q|].
  { injection H as -> ->. split; [exact HQ' | discriminate]. }
  injection H as -> ->. split; [exact HQ'|]. now intros m [= <-].
Qed.

Lemma symbol_session_stands (keys : list ascii) :
  Session.matrix_stands
    (fun s => Spec.matrix_inv rows cols s /\
              Forall (Forall Session.symbol_or_empty) (matrix s))
    enter (loop rows cols false true (default_validator false true)
             (initial rows cols) keys).
Proof.
  apply EndFacts.matrix_loop_stands.
  - intros st st' [Hinv HQ] H. split; [eapply matrix_inv_enter; eauto|].
    eapply symbol_enter_keeps; eauto.
  - intros st [Hinv HQ]. split; [now apply matrix_inv_backspace|].
    unfold on_backspace. destruct (truthy (current_value st)); exact HQ.
  - intros d st [Hinv HQ]. split; [now apply matrix_inv_arrow|].
    unfold on_arrow.
    repeat match goal with
           | |- context [if ?a then _ else _] => destruct a
           end; exact HQ.
  - intros c st _ [Hinv HQ]. split; [now apply matrix_inv_char | exact HQ].
  - split; [apply matrix_inv_initial|]. unfold initial. simpl.
    apply Forall_forall. intros r Hr. apply repeat_spec in Hr. subst r.
    apply Forall_forall. intros c Hc. apply repeat_spec in Hc. now left.
Qed.

End Symbol.

End DefaultFacts.

(** X9: an array of no cell is returned, empty, at the end of the first
    turn: after the first key when that is not Escape, or after the first
    arrow key. *)
Theorem empty_array_is_returned_at_once
    (size : Z) (as_int : bool) (v : option validator) (c d : ascii)
    (more : list ascii) :
  size <= 0 -> c <> ESC ->
  ArrayInput.input_array size as_int v (c :: more) = Returned (Some []) /\
  ArrayInput.input_array size as_int v (Spec.arrow d ++ more) = Returned (Some []).
Proof.
  intros Hs Hc. unfold ArrayInput.input_array.
  assert (Ha : ArrayInput.array (ArrayInput.initial size) = []).
  { unfold ArrayInput.initial. simpl. now replace (Z.to_nat size) with 0%nat by lia. }
  split.
  - now apply DefaultFacts.empty_array_turn.
  - now apply DefaultFacts.empty_array_arrow.
Qed.

Lemma empty_array_is_returned_at_once_witness :
  ArrayInput.input_array 0 false None ["a"%char; "b"%char] = Returned (Some []) /\
  ArrayInput.input_array 0 false None (Spec.arrow "C" ++ ["b"%char])
  = Returned (Some []).
Proof.
  apply (empty_array_is_returned_at_once 0 false None "a" "C" ["b"%char]);
    [lia | discriminate].
Defined.

(** X10: a matrix without a cell (no row, or no column) is never
    returned; in symbol mode with the default validator, typing a
    character and confirming it raises [IndexError]. *)
Theorem matrix_without_cells_returns_no_grid
    (rows cols : Z) (as_int as_symbol : bool) (v : option validator)
    (keys : list ascii) (c : ascii) (more : list ascii) :
  rows <= 0 \/ cols <= 0 -> isprintable c = true ->
  (forall m, MatrixInput.input_matrix rows cols as_int as_symbol v keys
             <> Returned (Some m)) /\
  MatrixInput.input_symbol_matrix rows cols None (c :: CR :: more) = Raised IndexError.
Proof.
  intros Hno Hc. split; [|now apply DefaultFacts.no_cell_commit_raises].
  intros m E. unfold MatrixInput.input_matrix in E.
  set (validate := match v with
                   | None => MatrixInput.default_validator as_int as_symbol
                   | Some f => f
                   end) in E.
  pose proof (GridFacts.matrix_session_stands rows cols as_int as_symbol validate keys)
    as H.
  rewrite E in H. destruct H as (s & s' & [Hinv _] & He).
  destruct (GridFacts.returned_grid rows cols as_int as_symbol validate s s' m Hinv He)
    as (Hr & Hk & _). lia.
Qed.

Lemma matrix_without_cells_returns_no_grid_witness :
  (forall m, MatrixInput.input_matrix 0 2 true false None ["5"%char; CR]
             <> Returned (Some m)) /\
  MatrixInput.input_symbol_matrix 0 2 None ["x"%char; CR] = Raised IndexError.
Proof.
  apply (matrix_without_cells_returns_no_grid 0 2 true false None ["5"%char; CR]
           "x" []).
  - left. lia.
  - reflexivity.
Defined.

(** X11: with the default validator the array editor raises nothing but
    [OverflowError], and that in integer mode only; the same holds of the
    matrix editor on a grid with at least one cell. *)
Theorem default_sessions_raise_only_overflow
    (e : exn) (size : Z) (as_int : bool) (keys : list ascii)
    (rows cols : Z) (as_int' as_symbol : bool) (keys' : list ascii) :
  (ArrayInput.input_array size as_int None keys = Raised e ->
   as_int = true /\ e = OverflowError) /\
  (1 <= rows -> 1 <= cols ->
   MatrixInput.input_matrix rows cols as_int' as_symbol None keys' = Raised e ->
   as_int' = true /\ e = OverflowError).
Proof.
  split.
  - unfold ArrayInput.input_array. intros E.
    destruct (Z.le_gt_cases size 0) as [Hs|Hs].
    + now apply DefaultFacts.empty_array_never_raises in E.
    + pose proof (GridFacts.array_session_stands size as_int
                    (ArrayInput.default_validator as_int) keys) as H.
      rewrite E in H. destruct H as (s & Hinv & He).
      apply (DefaultFacts.array_enter_default_raise size as_int s e); [lia | auto | auto].
  - unfold MatrixInput.input_matrix. intros Hr Hc E.
    pose proof (GridFacts.matrix_session_stands rows cols as_int' as_symbol
                  (MatrixInput.default_validator as_int' as_symbol) keys') as H.
    rewrite E in H. destruct H as (s & s' & [Hinv _] & He).
    destruct Hinv as (Hm & _ & _ & Hgrid & _).
    apply (DefaultFacts.matrix_enter_default_raise rows cols as_int' as_symbol s s' e);
      auto.
Qed.

(** In integer mode the text inf raises in both editors. *)
Lemma default_sessions_raise_only_overflow_witness :
  (true = true /\ OverflowError = OverflowError) /\
  (true = true /\ OverflowError = OverflowError).
Proof.
  destruct (default_sessions_raise_only_overflow OverflowError
              2 true (Spec.keys_of "inf" ++ [CR])
              2 2 true false (Spec.keys_of "1e999" ++ [CR])) as [HA HM].
  split.
  - apply HA. reflexivity.
  - apply HM; [lia | lia | reflexivity].
Defined.

(** X12: in symbol mode with the default validator every cell of the grid
    is empty or one character long while the editor waits, and every cell
    of the grid it returns is one character long. *)
Theorem symbol_cells_are_single_characters
    (rows cols : Z) (keys : list ascii) (m : MatrixInput.grid)
    (st : MatrixInput.state) :
  (MatrixInput.input_symbol_matrix rows cols None keys = Returned (Some m) ->
   Forall (fun c => len c = 1) (Session.cells m)) /\
  (MatrixInput.input_symbol_matrix rows cols None keys = Waiting st ->
   Forall Session.symbol_or_empty (Session.cells (MatrixInput.matrix st))).
Proof.
  unfold MatrixInput.input_symbol_matrix, MatrixInput.input_matrix.
  pose proof (DefaultFacts.symbol_session_stands rows cols keys) as H.
  split; intros E; rewrite E in H.
  - destruct H as (s & s' & [Hinv HQ] & He).
    destruct (DefaultFacts.symbol_enter_keeps rows cols s s' _ Hinv HQ He) as [HQ' Hm].
    rewrite (Hm m eq_refl).
    destruct (GridFacts.returned_grid rows cols false true _ s s' m Hinv He)
      as (_ & _ & _ & Hc).
    apply GridFacts.complete_cells in Hc. rewrite (Hm m eq_refl) in Hc.
    apply Forall_concat in HQ'. unfold Session.cells in *.
    rewrite Forall_forall in *. intros c Hin.
    destruct (HQ' c Hin) as [->|Hl]; [now destruct (Hc _ Hin) | exact Hl].
  - destruct H as [_ HQ]. now apply Forall_concat.
Qed.

Lemma symbol_cells_are_single_characters_witness :
  Forall (fun c => len c = 1) (Session.cells [["a"; "b"]]) /\
  Forall Session.symbol_or_empty (Session.cells [["a"; ""]]).
Proof.
  destruct (symbol_cells_are_single_characters 1 2
              ["a"%char; CR; "x"%char; "y"%char; CR; DEL; DEL; "b"%char; CR]
              [["a"; "b"]] (MatrixInput.initial 1 2)) as [HR _].
  destruct (symbol_cells_are_single_characters 1 2
              ["a"%char; CR; "x"%char; "y"%char; CR]
              []
              (MatrixInput.mkState [["a"; ""]] 0 1 "xy" MatrixInput.invalid_symbol
                 ["xy"; "a"] [(0, 0)])) as [_ HW].
  split; [apply HR | apply HW]; reflexivity.
Defined.

(** ** The error message, and the cells a turn leaves alone *)

Module MessageFacts.

Import PyFacts LoopFacts ScanFacts EnterFacts FormatFacts RunFacts GridFacts.

Section Array.

Import ArrayInput.

Variable size : Z.
Variable as_int : bool.
Variable validate : validator.

(** The message and the buffer after [Enter]. *)
Lemma array_enter_message (st st' : state) :
  on_enter size as_int validate st = Ok st' ->
  (current_value st = EmptyString /\ current_value st' = EmptyString /\
   error_message st' = error_message st)
  \/ error_message st' = EmptyString
  \/ (current_value st <> EmptyString /\ current_value st' = current_value st /\
      validated st' = current_value st :: validated st).
Proof.
  unfold on_enter. intros H.
  destruct (truthy (current_value st)) eqn:Ht.
  - apply truthy_true in Ht.
    destruct (validate (current_value st)) as [[[|] msg]|e0]; simpl in H;
      try discriminate.
    + destruct (format_number (current_value st) as_int) as [f|e0];
        simpl in H; try discriminate.
      destruct (setitem (array st) (current_pos st) f) as [arr|e0];
        simpl in H; try discriminate.
      injection H as <-. right. left. reflexivity.
    + injection H as <-. right. right. simpl. auto.
  - apply truthy_false in Ht. left.
    destruct (current_pos st <? size - 1); injection H as <-; simpl; auto.
Qed.

(** A message is shown only with the text it is about. *)
Lemma array_message_run (keys : list ascii) (st : state) :
  loop size as_int validate (initial size) keys = Waiting st ->
  error_message st <> EmptyString ->
  current_value st <> EmptyString /\
  exists rest, validated st = current_value st :: rest.
Proof.
  apply (array_loop_invariant size as_int validate
           (fun s => error_message s <> EmptyString ->
                     current_value s <> EmptyString /\
                     exists rest, validated s = current_value s :: rest)).
  - intros s s' HP H He.
    apply array_enter_message in H as [(Hv & Hv' & Hm)|[Hm|(Hv & Hv' & Hl)]].
    + rewrite Hm in He. destruct (HP He) as [Hne _]. congruence.
    + congruence.
    + rewrite Hv', Hl. split; [exact Hv | now exists (validated s)].
  - intros s HP. unfold on_backspace.
    destruct (truthy (current_value s)); [simpl; congruence | exact HP].
  - intros d s HP. unfold on_arrow.
    destruct (Ascii.eqb d "D" && (0 <? current_pos s)); [simpl; congruence|].
    destruct (Ascii.eqb d "C" && (current_pos s <? size - 1));
      [simpl; congruence | exact HP].
  - intros c s HP. simpl. congruence.
  - simpl. congruence.
Qed.

(** [Enter] leaves the cells away from the cursor alone. *)
Lemma array_enter_frame (st st' : state) (i : Z) :
  0 <= current_pos st -> on_enter size as_int validate st = Ok st' ->
  0 <= i -> i <> current_pos st ->
  getitem (array st') i = getitem (array st) i.
Proof.
  intros Hpos H Hi Hne.
  apply array_enter_inv in H as [(-> & _)|(f & _ & _ & Hs & _)]; [reflexivity|].
  apply setitem_nonneg in Hs as [_ ->]; [|exact Hpos].
  unfold getitem, index_of. rewrite update_length.
  destruct (i <? 0) eqn:E; [lia|].
  destruct ((0 <=? i) && (i <? Z.of_nat (List.length (array st)))); [|reflexivity].
  simpl. rewrite update_nth_other by lia. reflexivity.
Qed.

End Array.

Section Matrix.

Import MatrixInput.

Variables rows cols : Z.
Variables as_int as_symbol : bool.
Variable validate : validator.

Local Abbreviation enter := (on_enter rows cols as_int as_symbol validate).

(** The message and the buffer after an [Enter] that goes on. *)
Lemma matrix_enter_message (st st' : state) :
  Spec.shaped rows cols (matrix st) -> 0 <= current_row st -> 0 <= current_col st ->
  enter st = (Ok None, st') ->
  (current_value st = EmptyString /\ st' = st)
  \/ error_message st' = EmptyString
  \/ (current_value st <> EmptyString /\
      (format_check as_int as_symbol (current_value st) = Raise ValueError /\
       st' = set_error invalid_number st
       \/ exists msg,
            st' = set_error msg (note_validated (current_value st) st) /\
            (validate (current_value st) = Ok (false, msg) \/ msg = invalid_number))).
Proof.
  intros Hm Hrow Hcol H.
  destruct (truthy (current_value st)) eqn:Ht.
  2:{ apply truthy_false in Ht.
      rewrite (StepFacts.matrix_enter_empty _ _ _ _ _ _ Ht) in H.
      injection H as <-. left. auto. }
  apply truthy_true in Ht. right.
  destruct (format_check as_int as_symbol (current_value st)) as [[]|e0] eqn:Hc.
  2:{ destruct e0.
      - rewrite (matrix_enter_bad_format _ _ _ _ _ _ Ht Hc) in H.
        injection H as <-. right. auto.
      - revert H. unfold on_enter. unfold_monad.
        apply truthy_true in Ht. rewrite Ht, Hc. discriminate.
      - revert H. unfold on_enter. unfold_monad.
        apply truthy_true in Ht. rewrite Ht, Hc. discriminate.
      - revert H. unfold on_enter. unfold_monad.
        apply truthy_true in Ht. rewrite Ht, Hc. discriminate. }
  destruct (validate (current_value st)) as [[[|] msg]|e0] eqn:Hval.
  2:{ rewrite (matrix_enter_rejected _ _ _ _ _ _ _ Ht Hc Hval) in H.
      injection H as <-. right. split; [exact Ht|]. right. exists msg. auto. }
  2:{ revert H. unfold on_enter. unfold_monad.
      apply truthy_true in Ht. rewrite Ht, Hc. simpl. rewrite Hval.
      apply truthy_true in Ht.
      destruct e0; try discriminate. intros [= <-]. right. split; [exact Ht|].
      right. exists invalid_number. auto. }
  destruct (format_number (current_value st) as_int as_symbol) as [f|e0] eqn:Hf.
  2:{ revert H. unfold on_enter. unfold_monad.
      apply truthy_true in Ht. rewrite Ht, Hc. simpl. rewrite Hval, Hf.
      apply truthy_true in Ht.
      destruct e0; try discriminate. intros [= <-]. right. split; [exact Ht|].
      right. exists invalid_number. auto. }
  destruct (set_cell (matrix st) (current_row st) (current_col st) f) as [m'|e0] eqn:Hs.
  2:{ revert H. unfold on_enter. unfold_monad.
      apply truthy_true in Ht. rewrite Ht, Hc. simpl. rewrite Hval, Hf. simpl.
      rewrite Hs. apply truthy_true in Ht.
      destruct e0; try discriminate. intros [= <-]. right. split; [exact Ht|].
      right. exists invalid_number. auto. }
  left.
  destruct (set_cell_on_grid rows cols _ _ _ _ _ Hm Hrow Hcol Hs) as [Hr' Hc'].
  assert (Br : 0 <= current_row st < rows) by lia.
  assert (Bc : 0 <= current_col st < cols) by lia.
  pose proof (set_cell_shaped rows cols _ _ _ _ _ Hm Br Bc Hs) as Hm'.
  rewrite (matrix_enter_commit rows cols as_int as_symbol validate st msg f m' _ _
             Ht Hc Hval Hf Hs
             (find_next_empty_spec rows cols _ _ _ Hm' Br Bc)
             (find_prev_empty_spec rows cols _ _ _ Hm' Br Bc)) in H.
  destruct (Spec.first_empty_after rows cols _ _); [now injection H as <-|].
  destruct (Spec.first_empty_before rows cols _ _); [now injection H as <-|].
  discriminate.
Qed.

(** A message is shown only with the text it is about. *)
Lemma matrix_message_run (keys : list ascii) (st : state) :
  loop rows cols as_int as_symbol validate (initial rows cols) keys = Waiting st ->
  error_message st <> EmptyString ->
  current_value st <> EmptyString /\
  (format_check as_int as_symbol (current_value st) = Raise ValueError \/
   exists rest, validated st = current_value st :: rest).
Proof.
  intros H.
  apply (matrix_loop_invariant rows cols as_int as_symbol validate
           (fun s => Spec.matrix_inv rows cols s /\
                     (error_message s <> EmptyString ->
                      current_value s <> EmptyString /\
                      (format_check as_int as_symbol (current_value s)
                         = Raise ValueError \/
                       exists rest, validated s = current_value s :: rest))))
    in H; [apply H| | | | |].
  - intros s s' [Hinv HP] E. split; [eapply matrix_inv_enter; eauto|].
    destruct Hinv as (Hm & Hrow & Hcol & _). intros He.
    apply (matrix_enter_message s s' Hm Hrow Hcol) in E
      as [(Hv & ->)|[Hm'|(Hv & [[Hc ->]|(msg & -> & _)])]].
    + destruct (HP He) as [Hne _]. congruence.
    + congruence.
    + simpl. auto.
    + simpl. split; [exact Hv|]. right. now exists (validated s).
  - intros s [Hinv HP]. split; [now apply matrix_inv_backspace|].
    unfold on_backspace.
    destruct (truthy (current_value s)); [simpl; congruence | exact HP].
  - intros d s [Hinv HP]. split; [now apply matrix_inv_arrow|].
    unfold on_arrow.
    repeat match goal with
           | |- context [if ?a then _ else _] => destruct a
           end; try exact HP; simpl; congruence.
  - intros c s [Hinv HP]. split; [now apply matrix_inv_char|]. simpl. congruence.
  - split; [apply matrix_inv_initial|]. simpl. congruence.
Qed.

(** [Enter] leaves the cells away from the cursor alone. *)
Lemma matrix_enter_frame (st st' : state) (r : result (option grid)) (i j : Z) :
  Spec.shaped rows cols (matrix st) -> 0 <= current_row st -> 0 <= current_col st ->
  enter st = (r, st') -> 0 <= i < rows -> 0 <= j < cols ->
  (i, j) <> (current_row st, current_col st) ->
  cell (matrix st') i j = cell (matrix st) i j.
Proof.
  intros Hm Hrow Hcol H Hi Hj Hne.
  apply matrix_enter_inv in H as [(-> & _)|(f & _ & _ & Hs & _)]; [reflexivity|].
  destruct (set_cell_on_grid rows cols _ _ _ _ _ Hm Hrow Hcol Hs) as [Hr' Hc'].
  assert (Br : 0 <= current_row st < rows) by lia.
  assert (Bc : 0 <= current_col st < cols) by lia.
  rewrite (set_cell_read rows cols _ _ _ _ _ i j Hm Br Bc Hs Hi Hj).
  destruct (Z.eqb_spec i (current_row st)) as [->|]; [|reflexivity].
  destruct (Z.eqb_spec j (current_col st)) as [->|]; [|reflexivity].
  congruence.
Qed.

End Matrix.

End MessageFacts.

(** X13: whenever an editor waits for a key with an error message on
    display, the buffer holds the text the message is about: a text that is
    not empty and that the last [Enter] handed to the validator or, in the
    matrix editor, that fails the format check. *)
Theorem error_message_goes_with_its_text
    (size : Z) (as_int : bool) (v : option validator) (keys : list ascii)
    (ast : ArrayInput.state)
    (rows cols : Z) (as_int' as_symbol : bool) (v' : option validator)
    (keys' : list ascii) (mst : MatrixInput.state) :
  (ArrayInput.input_array size as_int v keys = Waiting ast ->
   ArrayInput.error_message ast <> EmptyString ->
   ArrayInput.current_value ast <> EmptyString /\
   exists rest, ArrayInput.validated ast = ArrayInput.current_value ast :: rest) /\
  (MatrixInput.input_matrix rows cols as_int' as_symbol v' keys' = Waiting mst ->
   MatrixInput.error_message mst <> EmptyString ->
   MatrixInput.current_value mst <> EmptyString /\
   (MatrixInput.format_check as_int' as_symbol (MatrixInput.current_value mst)
      = Raise ValueError \/
    exists rest,
      MatrixInput.validated mst = MatrixInput.current_value mst :: rest)).
Proof.
  split.
  - apply MessageFacts.array_message_run.
  - apply MessageFacts.matrix_message_run.
Qed.

(** The text abc is rejected by the default validator of the array editor
    and by the format check of the matrix editor. *)
Lemma error_message_goes_with_its_text_witness :
  ("abc" <> EmptyString /\ exists rest, ["abc"] = "abc" :: rest) /\
  ("abc" <> EmptyString /\
   (MatrixInput.format_check false false "abc" = Raise ValueError \/
    exists rest, @nil string = "abc" :: rest)).
Proof.
  destruct (error_message_goes_with_its_text
              2 false None (Spec.keys_of "abc" ++ [CR])
              (ArrayInput.mkState [""; ""] 0 "abc" ArrayInput.invalid_number ["abc"] [])
              1 2 false false None (Spec.keys_of "abc" ++ [CR])
              (MatrixInput.mkState [[""; ""]] 0 0 "abc" MatrixInput.invalid_number [] []))
    as [HA HM].
  split.
  - apply HA; [reflexivity | discriminate].
  - apply HM; [reflexivity | discriminate].
Defined.

(** X14: [Enter] changes no cell but the one under the cursor. *)
Theorem enter_changes_one_cell_only
    (size : Z) (as_int : bool) (validate : validator) (ast ast' : ArrayInput.state)
    (i : Z)
    (rows cols : Z) (as_int' as_symbol : bool) (validate' : validator)
    (mst mst' : MatrixInput.state) (r : result (option MatrixInput.grid))
    (row col : Z) :
  (0 <= ArrayInput.current_pos ast ->
   ArrayInput.on_enter size as_int validate ast = Ok ast' ->
   0 <= i -> i <> ArrayInput.current_pos ast ->
   getitem (ArrayInput.array ast') i = getitem (ArrayInput.array ast) i) /\
  (Spec.shaped rows cols (MatrixInput.matrix mst) ->
   0 <= MatrixInput.current_row mst -> 0 <= MatrixInput.current_col mst ->
   MatrixInput.on_enter rows cols as_int' as_symbol validate' mst = (r, mst') ->
   0 <= row < rows -> 0 <= col < cols ->
   (row, col) <> (MatrixInput.current_row mst, MatrixInput.current_col mst) ->
   MatrixInput.cell (MatrixInput.matrix mst') row col
   = MatrixInput.cell (MatrixInput.matrix mst) row col).
Proof.
  split.
  - apply MessageFacts.array_enter_frame.
  - apply MessageFacts.matrix_enter_frame.
Qed.

(** A commit at index 1 and at cell (0, 1), read at index 0 and at cell
    (1, 0). *)
Lemma enter_changes_one_cell_only_witness :
  getitem ["5"; "8"; ""] 0 = getitem ["5"; ""; ""] 0 /\
  MatrixInput.cell [["1"; "9"]; ["4"; ""]] 1 0
  = MatrixInput.cell [["1"; ""]; ["4"; ""]] 1 0.
Proof.
  destruct (enter_changes_one_cell_only
              3 false Spec.accept_all
              (ArrayInput.mkState ["5"; ""; ""] 1 "8" "" ["5"] [0])
              (ArrayInput.mkState ["5"; "8"; ""] 2 "" "" ["8"; "5"] [1; 0])
              0
              2 2 false false Spec.accept_all
              (MatrixInput.mkState [["1"; ""]; ["4"; ""]] 0 1 "9" "" ["4"; "1"]
                 [(1, 0); (0, 0)])
              (MatrixInput.mkState [["1"; "9"]; ["4"; ""]] 1 1 "" "" ["9"; "4"; "1"]
                 [(0, 1); (1, 0); (0, 0)])
              (Ok None) 1 0) as [HA HM].
  split.
  - apply HA; [simpl; lia | reflexivity | lia | simpl; lia].
  - apply HM; [split; [reflexivity | repeat constructor] | simpl; lia | simpl; lia
              | reflexivity | lia | lia | discriminate].
Defined.

(** ** Going on with a session *)

Module ResumeFacts.

Import PyFacts LoopFacts ScanFacts EnterFacts FormatFacts RunFacts GridFacts.

Lemma map_result_length {A B : Type} (f : A -> result B) (l : list A) (l' : list B) :
  map_result f l = Ok l' -> List.length l' = List.length l.
Proof.
  revert l'. induction l as [|x l IH]; intros l' H; simpl in H.
  - now injection H as <-.
  - destruct (f x) as [y|e]; [|discriminate]. simpl in H.
    destruct (map_result f l) as [ys|e]; [|discriminate]. simpl in H.
    injection H as <-. simpl. f_equal. now apply IH.
Qed.

Lemma map_result_rows {A B : Type} (f : A -> result B) (k : nat)
    (m : list (list A)) (m' : list (list B)) :
  map_result (map_result f) m = Ok m' ->
  Forall (fun r => List.length r = k) m -> Forall (fun r => List.length r = k) m'.
Proof.
  revert m'. induction m as [|r m IH]; intros m' H Hm; simpl in H.
  - injection H as <-. constructor.
  - destruct (map_result f r) as [r'|e] eqn:Er; [|discriminate]. simpl in H.
    destruct (map_result (map_result f) m) as [rs|e]; [|discriminate]. simpl in H.
    injection H as <-. inversion Hm as [|? ? Hr Hrest]; subst. constructor.
    + now rewrite (map_result_length f r r' Er).
    + now apply IH.
Qed.

Section Array.

Import ArrayInput.

Variable size : Z.
Variable as_int : bool.
Variable validate : validator.

Local Abbreviation run := (loop size as_int validate).

(** The state in which the editor waits, and the keys of an escape sequence
    it is in the middle of, are all that the rest of the session depends
    on. *)
Lemma array_resume (keys : list ascii) (st0 st : state) :
  run st0 keys = Waiting st ->
  exists pend, forall more, run st0 (keys ++ more) = run st (pend ++ more).
Proof.
  assert (T : forall (next : state -> outcome state (option (list string)))
                (r : result state) s',
             turn_end next r = Waiting s' ->
             exists s, r = Ok s /\ is_complete s = false /\ next s = Waiting s').
  { intros next r s' H. unfold turn_end in H. destruct r as [s|e]; [|discriminate].
    destruct (is_complete s) eqn:E; [discriminate|]. now exists s. }
  assert (G : forall n ks, (List.length ks <= n)%nat -> forall s0,
             run s0 ks = Waiting st ->
             exists pend, forall more, run s0 (ks ++ more) = run st (pend ++ more)).
  { induction n as [|n IH]; intros ks Hlen s0 H.
    - destruct ks; [|simpl in Hlen; lia]. injection H as <-. now exists [].
    - destruct ks as [|char ks1]; [injection H as <-; now exists []|].
      simpl in Hlen. cbn [loop] in H.
      destruct (Ascii.eqb char CR || Ascii.eqb char LF) eqn:E1.
      { apply T in H as (s & Hr & Hi & Hn).
        destruct (IH ks1 ltac:(lia) s Hn) as [pend Hp]. exists pend. intros more.
        cbn [app loop]. rewrite E1, Hr. unfold turn_end. rewrite Hi. apply Hp. }
      destruct (Ascii.eqb char DEL) eqn:E2.
      { apply T in H as (s & Hr & Hi & Hn).
        destruct (IH ks1 ltac:(lia) s Hn) as [pend Hp]. exists pend. intros more.
        cbn [app loop]. rewrite E1, E2, Hr. unfold turn_end. rewrite Hi. apply Hp. }
      destruct (Ascii.eqb char ESC) eqn:E3.
      { destruct ks1 as [|next_char ks2]; [injection H as <-; now exists [char]|].
        simpl in Hlen.
        destruct (Ascii.eqb next_char "[") eqn:E4; [|discriminate].
        destruct ks2 as [|direction ks3];
          [injection H as <-; now exists [char; next_char]|].
        simpl in Hlen.
        apply T in H as (s & Hr & Hi & Hn).
        destruct (IH ks3 ltac:(lia) s Hn) as [pend Hp]. exists pend. intros more.
        cbn [app loop]. rewrite E1, E2, E3, E4, Hr. unfold turn_end. rewrite Hi.
        apply Hp. }
      destruct (isprintable char) eqn:E4.
      { apply T in H as (s & Hr & Hi & Hn).
        destruct (IH ks1 ltac:(lia) s Hn) as [pend Hp]. exists pend. intros more.
        cbn [app loop]. rewrite E1, E2, E3, E4, Hr. unfold turn_end. rewrite Hi.
        apply Hp. }
      apply T in H as (s & Hr & Hi & Hn).
      destruct (IH ks1 ltac:(lia) s Hn) as [pend Hp]. exists pend. intros more.
      cbn [app loop]. rewrite E1, E2, E3, E4, Hr. unfold turn_end. rewrite Hi.
      apply Hp. }
  apply (G (List.length keys)). lia.
Qed.

(** The cells a commit assigned stay on record. *)
Lemma array_committed_grows (keys : list ascii) (st0 st : state) :
  Spec.array_inv size st0 -> run st0 keys = Waiting st ->
  Spec.array_inv size st /\ incl (committed st0) (committed st).
Proof.
  intros Hinv.
  apply (array_loop_invariant size as_int validate
           (fun s => Spec.array_inv size s /\ incl (committed st0) (committed s))).
  - intros s s' [Hs Hi] H. split; [eapply array_inv_enter; eauto|].
    apply array_enter_inv in H as [(_ & -> & _)|(f & _ & _ & _ & -> & _)];
      [exact Hi | now apply incl_tl].
  - intros s [Hs Hi]. split; [now apply array_inv_backspace|].
    unfold on_backspace. destruct (truthy (current_value s)); exact Hi.
  - intros d s [Hs Hi]. split; [now apply array_inv_arrow|].
    unfold on_arrow.
    repeat match goal with
           | |- context [if ?a then _ else _] => destruct a
           end; exact Hi.
  - intros c s [Hs Hi]. split; [now apply array_inv_char | exact Hi].
  - split; [exact Hinv | apply incl_refl].
Qed.

End Array.

Section Matrix.

Import MatrixInput.

Variables rows cols : Z.
Variables as_int as_symbol : bool.
Variable validate : validator.

Local Abbreviation run := (loop rows cols as_int as_symbol validate).
Local Abbreviation enter := (on_enter rows cols as_int as_symbol validate).

Lemma matrix_resume (keys : list ascii) (st0 st : state) :
  run st0 keys = Waiting st ->
  exists pend, forall more, run st0 (keys ++ more) = run st (pend ++ more).
Proof.
  assert (G : forall n ks, (List.length ks <= n)%nat -> forall s0,
             run s0 ks = Waiting st ->
             exists pend, forall more, run s0 (ks ++ more) = run st (pend ++ more)).
  { induction n as [|n IH]; intros ks Hlen s0 H.
    - destruct ks; [|simpl in Hlen; lia]. injection H as <-. now exists [].
    - destruct ks as [|char ks1]; [injection H as <-; now exists []|].
      simpl in Hlen. cbn [loop] in H.
      destruct (ord char =? 27) eqn:E1.
      { destruct ks1 as [|next_char ks2]; [injection H as <-; now exists [char]|].
        simpl in Hlen.
        destruct (Ascii.eqb next_char "[") eqn:E4; [|discriminate].
        destruct ks2 as [|direction ks3];
          [injection H as <-; now exists [char; next_char]|].
        simpl in Hlen.
        destruct (IH ks3 ltac:(lia) _ H) as [pend Hp]. exists pend. intros more.
        cbn [app loop]. rewrite E1, E4. apply Hp. }
      destruct (ord char =? 13) eqn:E2.
      { destruct (enter s0) as [[[g|]|e] s1] eqn:E; try discriminate.
        destruct (IH ks1 ltac:(lia) _ H) as [pend Hp]. exists pend. intros more.
        cbn [app loop]. rewrite E1, E2, E. apply Hp. }
      destruct (ord char =? 127) eqn:E3.
      { destruct (IH ks1 ltac:(lia) _ H) as [pend Hp]. exists pend. intros more.
        cbn [app loop]. rewrite E1, E2, E3. apply Hp. }
      destruct (isprintable char) eqn:E4.
      { destruct (IH ks1 ltac:(lia) _ H) as [pend Hp]. exists pend. intros more.
        cbn [app loop]. rewrite E1, E2, E3, E4. apply Hp. }
      destruct (IH ks1 ltac:(lia) _ H) as [pend Hp]. exists pend. intros more.
      cbn [app loop]. rewrite E1, E2, E3, E4. apply Hp. }
  apply (G (List.length keys)). lia.
Qed.

Lemma matrix_committed_grows (keys : list ascii) (st0 st : state) :
  Spec.matrix_inv rows cols st0 -> run st0 keys = Waiting st ->
  Spec.matrix_inv rows cols st /\ incl (committed st0) (committed st).
Proof.
  intros Hinv.
  apply (matrix_loop_invariant rows cols as_int as_symbol validate
           (fun s => Spec.matrix_inv rows cols s /\
                     incl (committed st0) (committed s))).
  - intros s s' [Hs Hi] H. split; [eapply matrix_inv_enter; eauto|].
    apply matrix_enter_inv in H as [(_ & _ & _ & -> & _)|(f & _ & _ & _ & -> & _)];
      [exact Hi | now apply incl_tl].
  - intros s [Hs Hi]. split; [now apply matrix_inv_backspace|].
    unfold on_backspace. destruct (truthy (current_value s)); exact Hi.
  - intros d s [Hs Hi]. split; [now apply matrix_inv_arrow|].
    unfold on_arrow.
    repeat match goal with
           | |- context [if ?a then _ else _] => destruct a
           end; exact Hi.
  - intros c s [Hs Hi]. split; [now apply matrix_inv_char | exact Hi].
  - split; [exact Hinv | apply incl_refl].
Qed.

End Matrix.

End ResumeFacts.

(** X15: a cell that holds a text is never emptied: if it is not empty
    when the editor waits for a key, it is not empty whenever the editor
    waits again later in the session. *)
Theorem filled_cells_stay_filled
    (more : list ascii)
    (size : Z) (as_int : bool) (v : option validator) (keys : list ascii)
    (ast ast' : ArrayInput.state) (i : Z) (c : string)
    (rows cols : Z) (as_int' as_symbol : bool) (v' : option validator)
    (keys' : list ascii) (mst mst' : MatrixInput.state) (row col : Z) (c' : string) :
  (ArrayInput.input_array size as_int v keys = Waiting ast ->
   ArrayInput.input_array size as_int v (keys ++ more) = Waiting ast' ->
   0 <= i < size -> getitem (ArrayInput.array ast) i = Ok c -> c <> EmptyString ->
   exists d, getitem (ArrayInput.array ast') i = Ok d /\ d <> EmptyString) /\
  (MatrixInput.input_matrix rows cols as_int' as_symbol v' keys' = Waiting mst ->
   MatrixInput.input_matrix rows cols as_int' as_symbol v' (keys' ++ more)
   = Waiting mst' ->
   0 <= row < rows -> 0 <= col < cols ->
   MatrixInput.cell (MatrixInput.matrix mst) row col = Ok c' -> c' <> EmptyString ->
   exists d, MatrixInput.cell (MatrixInput.matrix mst') row col = Ok d /\
             d <> EmptyString).
Proof.
  split.
  - unfold ArrayInput.input_array. intros H H' Hi Hg Hc.
    pose proof (RunFacts.array_inv_run _ _ _ _ _ H) as Hinv.
    destruct (ResumeFacts.array_resume _ _ _ _ _ _ H) as [pend Hp].
    rewrite Hp in H'.
    apply (ResumeFacts.array_committed_grows _ _ _ _ _ _ Hinv) in H'
      as [Hinv' Hincl].
    destruct Hinv as (_ & _ & _ & Hcells). destruct Hinv' as (Hlen' & _ & _ & Hcells').
    apply RunFacts.getitem_nonneg in Hg as [_ Hn]; [|lia].
    apply (Hcells i c Hi Hn), Hincl in Hc.
    destruct (LoopFacts.getitem_inside (ArrayInput.array ast') i) as (d & Hd & Hn');
      [lia|].
    exists d. split; [exact Hd|]. now apply (Hcells' i d Hi Hn').
  - unfold MatrixInput.input_matrix. intros H H' Hi Hj Hg Hc.
    pose proof (RunFacts.matrix_inv_run _ _ _ _ _ _ _ H) as Hinv.
    destruct (ResumeFacts.matrix_resume _ _ _ _ _ _ _ _ H) as [pend Hp].
    rewrite Hp in H'.
    apply (ResumeFacts.matrix_committed_grows _ _ _ _ _ _ _ _ Hinv) in H'
      as [Hinv' Hincl].
    destruct Hinv as (_ & _ & _ & _ & Hcells).
    destruct Hinv' as (Hm' & _ & _ & _ & Hcells').
    apply (Hcells row col c' Hi Hj Hg), Hincl in Hc.
    destruct (ScanFacts.cell_inside rows cols _ row col Hm' Hi Hj)
      as (r & d & _ & _ & Hd).
    exists d. split; [exact Hd|]. now apply (Hcells' row col d Hi Hj Hd).
Qed.

(** The cell filled first is still filled after the cursor went back to it
    and a text typed there was rejected. *)
Lemma filled_cells_stay_filled_witness :
  (exists d, getitem ["5"; ""] 0 = Ok d /\ d <> EmptyString) /\
  (exists d, MatrixInput.cell [["1"; ""]] 0 0 = Ok d /\ d <> EmptyString).
Proof.
  destruct (filled_cells_stay_filled
              (Spec.arrow "D" ++ Spec.keys_of "x" ++ [CR])
              2 false None (Spec.keys_of "5" ++ [CR])
              (ArrayInput.mkState ["5"; ""] 1 "" "" ["5"] [0])
              (ArrayInput.mkState ["5"; ""] 0 "x" ArrayInput.invalid_number
                 ["x"; "5"] [0])
              0 "5"
              1 2 false false None (Spec.keys_of "1" ++ [CR])
              (MatrixInput.mkState [["1"; ""]] 0 1 "" "" ["1"] [(0, 0)])
              (MatrixInput.mkState [["1"; ""]] 0 0 "x" MatrixInput.invalid_number
                 ["1"] [(0, 0)])
              0 0 "1") as [HA HM].
  split.
  - apply HA; [reflexivity | reflexivity | lia | reflexivity | discriminate].
  - apply HM; [reflexivity | reflexivity | lia | lia | reflexivity | discriminate].
Defined.

(** X17: an arrow key followed by the opposite one brings the cursor back
    when the first move was not stopped by the edge of the grid; what is
    lost is the buffer and the error message. *)
Theorem opposite_arrows_restore_the_cursor
    (size : Z) (ast : ArrayInput.state)
    (rows cols : Z) (mst : MatrixInput.state) :
  let array_cleared :=
    ArrayInput.mkState (ArrayInput.array ast) (ArrayInput.current_pos ast)
      EmptyString EmptyString (ArrayInput.validated ast) (ArrayInput.committed ast) in
  let matrix_cleared :=
    MatrixInput.set_error EmptyString (MatrixInput.set_value EmptyString mst) in
  (0 < ArrayInput.current_pos ast < size ->
   ArrayInput.on_arrow size "C" (ArrayInput.on_arrow size "D" ast) = array_cleared) /\
  (0 <= ArrayInput.current_pos ast < size - 1 ->
   ArrayInput.on_arrow size "D" (ArrayInput.on_arrow size "C" ast) = array_cleared) /\
  (0 < MatrixInput.current_row mst < rows ->
   MatrixInput.on_arrow rows cols "B" (MatrixInput.on_arrow rows cols "A" mst)
   = matrix_cleared) /\
  (0 <= MatrixInput.current_row mst < rows - 1 ->
   MatrixInput.on_arrow rows cols "A" (MatrixInput.on_arrow rows cols "B" mst)
   = matrix_cleared) /\
  (0 < MatrixInput.current_col mst < cols ->
   MatrixInput.on_arrow rows cols "C" (MatrixInput.on_arrow rows cols "D" mst)
   = matrix_cleared) /\
  (0 <= MatrixInput.current_col mst < cols - 1 ->
   MatrixInput.on_arrow rows cols "D" (MatrixInput.on_arrow rows cols "C" mst)
   = matrix_cleared).
Proof.
  cbv zeta. unfold ArrayInput.on_arrow, MatrixInput.on_arrow.
  repeat split; intros H; simpl Ascii.eqb; cbn [andb];
    repeat match goal with
           | |- context [?a <? ?b] =>
               first [ replace (a <? b) with true by lia
                     | replace (a <? b) with false by lia ]; cbn [andb]
           end;
    simpl;
    repeat match goal with
           | |- context [?a <? ?b] =>
               first [ replace (a <? b) with true by lia
                     | replace (a <? b) with false by lia ]; cbn [andb]
           end;
    simpl;
    unfold MatrixInput.set_error, MatrixInput.set_value, MatrixInput.set_cursor; simpl;
    f_equal; lia.
Qed.

Lemma opposite_arrows_restore_the_cursor_witness :
  ArrayInput.on_arrow 3 "C"
    (ArrayInput.on_arrow 3 "D" (ArrayInput.mkState ["5"; ""; ""] 1 "7" "" ["5"] [0]))
  = ArrayInput.mkState ["5"; ""; ""] 1 "" "" ["5"] [0] /\
  MatrixInput.on_arrow 2 2 "A"
    (MatrixInput.on_arrow 2 2 "B"
       (MatrixInput.mkState [["1"; ""]; [""; ""]] 0 1 "7" "" ["1"] [(0, 0)]))
  = MatrixInput.mkState [["1"; ""]; [""; ""]] 0 1 "" "" ["1"] [(0, 0)].
Proof.
  destruct (opposite_arrows_restore_the_cursor 3
              (ArrayInput.mkState ["5"; ""; ""] 1 "7" "" ["5"] [0])
              2 2
              (MatrixInput.mkState [["1"; ""]; [""; ""]] 0 1 "7" "" ["1"] [(0, 0)]))
    as (HA & _ & _ & HM & _).
  split.
  - apply HA. simpl. lia.
  - apply HM. simpl. lia.
Defined.

(** X18: the list a numeric wrapper returns has the shape of the grid: the
    array wrappers return [size] numbers, the matrix wrappers [rows] rows of
    [cols] numbers. *)
Theorem wrappers_keep_the_shape
    (size : Z) (v : option validator) (keys : list ascii)
    (xs : list float) (ns : list Z)
    (rows cols : Z) (v' : option validator) (keys' : list ascii)
    (xss : list (list float)) (nss : list (list Z)) :
  (ArrayInput.input_float_array size v keys = Returned (Some xs) ->
   List.length xs = Z.to_nat size) /\
  (ArrayInput.input_int_array size v keys = Returned (Some ns) ->
   List.length ns = Z.to_nat size) /\
  (MatrixInput.input_float_matrix rows cols v' keys' = Returned xss ->
   List.length xss = Z.to_nat rows /\
   Forall (fun r => List.length r = Z.to_nat cols) xss) /\
  (MatrixInput.input_int_matrix rows cols v' keys' = Returned nss ->
   List.length nss = Z.to_nat rows /\
   Forall (fun r => List.length r = Z.to_nat cols) nss).
Proof.
  assert (A : forall as_int (B : Type) (f : string -> result B) (l : list B),
             ArrayInput.convert f (ArrayInput.input_array size as_int v keys)
             = Returned (Some l) -> List.length l = Z.to_nat size).
  { intros as_int B f l H. unfold ArrayInput.convert in H.
    destruct (ArrayInput.input_array size as_int v keys) as [[arr|]|e|s] eqn:E;
      try discriminate.
    destruct (map_result f arr) as [l0|e] eqn:El; [|discriminate].
    injection H as <-. rewrite (ResumeFacts.map_result_length f arr l0 El).
    unfold ArrayInput.input_array in E.
    pose proof (GridFacts.array_session_stands size as_int
                  match v with
                  | None => ArrayInput.default_validator as_int
                  | Some f => f
                  end keys) as H.
    rewrite E in H. destruct H as (s & Hinv & _ & ->). apply Hinv. }
  assert (M : forall as_int (B : Type) (f : string -> result B) (l : list (list B)),
             MatrixInput.convert f
               (MatrixInput.input_matrix rows cols as_int false v' keys')
             = Returned l ->
             List.length l = Z.to_nat rows /\
             Forall (fun r => List.length r = Z.to_nat cols) l).
  { intros as_int B f l H. unfold MatrixInput.convert in H.
    destruct (MatrixInput.input_matrix rows cols as_int false v' keys')
      as [[m|]|e|s] eqn:E; try discriminate.
    destruct (map_result (map_result f) m) as [l0|e] eqn:El; [|discriminate].
    injection H as <-.
    unfold MatrixInput.input_matrix in E.
    pose proof (GridFacts.matrix_session_stands rows cols as_int false
                  match v' with
                  | None => MatrixInput.default_validator as_int false
                  | Some f => f
                  end keys') as H.
    rewrite E in H. destruct H as (s & s' & [Hinv _] & He).
    destruct (GridFacts.returned_grid rows cols as_int false _ s s' m Hinv He)
      as (_ & _ & [Hlen Hrows] & _).
    split.
    - now rewrite (ResumeFacts.map_result_length _ m l0 El).
    - eapply ResumeFacts.map_result_rows; eauto. }
  split; [apply A|]. split; [apply A|]. split; apply M.
Qed.

Lemma wrappers_keep_the_shape_witness :
  List.length [Finite false 4503599627370496 (-50)] = Z.to_nat 1 /\
  List.length [-7] = Z.to_nat 1 /\
  (List.length [[Finite false 4503599627370496 (-50)]] = Z.to_nat 1 /\
   Forall (fun r => List.length r = Z.to_nat 1)
     [[Finite false 4503599627370496 (-50)]]) /\
  (List.length [[-7]] = Z.to_nat 1 /\
   Forall (fun r => List.length r = Z.to_nat 1) [[-7]]).
Proof.
  destruct (wrappers_keep_the_shape 1 None (Spec.keys_of "4.0" ++ [CR])
              [Finite false 4503599627370496 (-50)] []
              1 1 None (Spec.keys_of "4.0" ++ [CR])
              [[Finite false 4503599627370496 (-50)]] []) as (HF & _ & HFM & _).
  destruct (wrappers_keep_the_shape 1 None (Spec.keys_of "-7.9" ++ [CR])
              [] [-7]
              1 1 None (Spec.keys_of "-7.9" ++ [CR])
              [] [[-7]]) as (_ & HI & _ & HIM).
  split; [apply HF; reflexivity|]. split; [apply HI; reflexivity|].
  split; [apply HFM; reflexivity | apply HIM; reflexivity].
Defined.

(** ** Filling an array cell after cell *)

Module FillFacts.

Import PyFacts LoopFacts ScanFacts EnterFacts FormatFacts RunFacts GridFacts.

Lemma update_app {A : Type} (l r : list A) (x v : A) :
  update (l ++ x :: r) (List.length l) v = l ++ v :: r.
Proof. induction l as [|a l IH]; simpl; [reflexivity | now rewrite IH]. Qed.

Lemma forallb_nonempty_app (l r : list string) :
  forallb nonempty (l ++ EmptyString :: r) = false.
Proof. rewrite forallb_app. simpl. apply andb_false_r. Qed.

Lemma entered_cons (t : string) (ts : list string) :
  Session.entered (t :: ts) = Spec.keys_of t ++ CR :: Session.entered ts.
Proof. unfold Session.entered. simpl. now rewrite <- app_assoc. Qed.

Section Array.

Import ArrayInput.

Variable size : Z.
Variable as_int : bool.
Variable validate : validator.

Local Abbreviation run := (loop size as_int validate).
Local Abbreviation accepted :=
  (Session.accepted_as (fun _ => Ok tt) validate (fun t => format_number t as_int)).

(** Typing the texts that are still missing, each followed by [Enter],
    fills the array from the cursor on and returns it. *)
Lemma array_fill (ts fs : list string) :
  Forall2 accepted ts fs ->
  forall (done : list string) (st : state),
    ts <> [] ->
    array st = done ++ repeat EmptyString (List.length ts) ->
    Forall (fun c => c <> EmptyString) done ->
    current_pos st = Z.of_nat (List.length done) ->
    current_value st = EmptyString ->
    size = Z.of_nat (List.length done + List.length ts) ->
    run st (Session.entered ts) = Returned (Some (done ++ fs)).
Proof.
  induction 1 as [|t f ts fs Hacc HF IH]; intros done st Hne Harr Hdone Hpos Hval Hsize;
    [congruence|].
  destruct Hacc as (Ht & Hp & _ & [e Hv] & Hf).
  assert (Hinc : is_complete st = false).
  { unfold is_complete. rewrite Harr. apply forallb_nonempty_app. }
  rewrite entered_cons.
  rewrite (TypingFacts.array_typing size as_int validate t st _ Ht Hinc Hp).
  cbn [loop]. change (Ascii.eqb CR CR || Ascii.eqb CR LF) with true. cbv iota.
  unfold on_enter, Session.array_typed. cbn [current_value array current_pos].
  rewrite Hval. simpl append.
  rewrite (proj2 (truthy_true t) Ht), Hv. simpl. rewrite Hf. simpl.
  rewrite Harr, Hpos. simpl repeat.
  rewrite setitem_inside
    by (rewrite length_app; simpl; lia). simpl.
  rewrite Nat2Z.id, update_app.
  assert (Hfne : f <> EmptyString)
    by (eapply array_format_number_nonempty; eauto).
  unfold turn_end, is_complete. cbn [array].
  destruct ts as [|t' ts'].
  - inversion HF; subst. simpl.
    replace (forallb nonempty (done ++ [f])) with true; [reflexivity|].
    symmetry. apply all_nonempty. apply Forall_app. split; [exact Hdone|].
    constructor; [exact Hfne | constructor].
  - simpl repeat. replace (done ++ f :: EmptyString :: repeat EmptyString (List.length ts'))
      with ((done ++ [f]) ++ EmptyString :: repeat EmptyString (List.length ts'))
      by (now rewrite <- app_assoc).
    rewrite forallb_nonempty_app.
    replace (done ++ f :: fs) with ((done ++ [f]) ++ fs) by (now rewrite <- app_assoc).
    apply IH.
    + discriminate.
    + reflexivity.
    + apply Forall_app. split; [exact Hdone|]. constructor; [exact Hfne | constructor].
    + cbn [current_pos]. rewrite length_app. simpl in *.
      replace (Z.of_nat (List.length done) <? size - 1) with true by lia. lia.
    + reflexivity.
    + rewrite length_app. simpl in *. lia.
Qed.

(** What the commits of a turn are made of. *)
Lemma array_enter_commit_inv (st st' : state) :
  on_enter size as_int validate st = Ok st' ->
  array st' = array st \/
  exists f e,
    validate (current_value st) = Ok (true, e) /\
    format_number (current_value st) as_int = Ok f /\
    setitem (array st) (current_pos st) f = Ok (array st').
Proof.
  unfold on_enter. intros H.
  destruct (truthy (current_value st)).
  - destruct (validate (current_value st)) as [[[|] msg]|e0]; simpl in H;
      try discriminate.
    + destruct (format_number (current_value st) as_int) as [f|e0] eqn:Hf;
        simpl in H; try discriminate.
      destruct (setitem (array st) (current_pos st) f) as [arr|e0] eqn:Hs;
        simpl in H; try discriminate.
      injection H as <-. right. exists f, msg. auto.
    + injection H as <-. now left.
  - left. destruct (current_pos st <? size - 1); now injection H as <-.
Qed.

End Array.

(** The numeral of an integer is one. *)
Lemma str_int_numeral (n : Z) : Session.is_numeral (str_int n) = true.
Proof.
  unfold str_int. destruct (n <? 0).
  - simpl. rewrite FormatMore.all_digits_digits.
    now rewrite (proj2 (truthy_true _) (FormatMore.digits_nonempty (- n))).
  - destruct (digits_head n) as (a & r & E & Ha).
    pose proof (FormatMore.all_digits_digits n) as Hd. rewrite E in *.
    unfold Session.is_numeral.
    destruct (Ascii.eqb_spec a "-") as [->|_]; [discriminate | exact Hd].
Qed.

(** What the default validator accepts in integer mode is formatted as a
    numeral. *)
Lemma accepted_integer_format (text f : string) (e : string) :
  ArrayInput.default_validator true text = Ok (true, e) ->
  ArrayInput.format_number text true = Ok f ->
  Session.is_numeral f = true.
Proof.
  rewrite FormatMore.numeric_format.
  unfold ArrayInput.default_validator, float_of_str.
  destruct (parse_float text) as [[neg m ex|neg|]|]; simpl; try discriminate.
  intros _ [= <-]. apply str_int_numeral.
Qed.

Section Integer.

Variable size : Z.
Variables rows cols : Z.

Local Abbreviation numeral_or_empty :=
  (fun c : string => c = EmptyString \/ Session.is_numeral c = true).

Lemma integer_array_stands (keys : list ascii) :
  Session.array_stands
    (fun s => Spec.array_inv size s /\ Forall numeral_or_empty (ArrayInput.array s))
    (ArrayInput.on_enter size true (ArrayInput.default_validator true))
    (ArrayInput.initial size)
    (ArrayInput.loop size true (ArrayInput.default_validator true)
       (ArrayInput.initial size) keys).
Proof.
  apply EndFacts.array_loop_stands.
  - intros st st' [Hinv HQ] H. split; [eapply array_inv_enter; eauto|].
    destruct Hinv as (_ & Hpos & _).
    apply array_enter_commit_inv in H as [->|(f & e & Hv & Hf & Hs)]; [exact HQ|].
    apply setitem_nonneg in Hs as [_ ->]; [|exact Hpos].
    apply update_forall; [exact HQ|]. right. eapply accepted_integer_format; eauto.
  - intros st [Hinv HQ]. split; [now apply array_inv_backspace|].
    unfold ArrayInput.on_backspace.
    destruct (truthy (ArrayInput.current_value st)); exact HQ.
  - intros d st [Hinv HQ]. split; [now apply array_inv_arrow|].
    unfold ArrayInput.on_arrow.
    repeat match goal with
           | |- context [if ?a then _ else _] => destruct a
           end; exact HQ.
  - intros c st _ [Hinv HQ]. split; [now apply array_inv_char | exact HQ].
  - split; [apply array_inv_initial|]. unfold ArrayInput.initial. simpl.
    apply Forall_forall. intros c Hc. apply repeat_spec in Hc. now left.
Qed.

Lemma integer_enter_keeps (st st' : MatrixInput.state)
    (r : result (option MatrixInput.grid)) :
  Spec.matrix_inv rows cols st ->
  Forall (Forall numeral_or_empty) (MatrixInput.matrix st) ->
  MatrixInput.on_enter rows cols true false (MatrixInput.default_validator true false)
    st = (r, st') ->
  Forall (Forall numeral_or_empty) (MatrixInput.matrix st') /\
  forall m, r = Ok (Some m) -> m = MatrixInput.matrix st'.
Proof.
  intros (Hm & Hrow & Hcol & _) HQ H.
  apply (matrix_enter_cases rows cols true false _ st st' r Hm Hrow Hcol) in H
    as [(_ & -> & ->)|[(_ & -> & _ & _ & _ & _ & [->|(e & -> & _)])
                      |(f & m' & e & Hv & _ & Hval & Hf & Hs & [Br Bc] & H)]];
    try (split; [exact HQ | discriminate]).
  assert (Hnum : Session.is_numeral f = true)
    by (eapply accepted_integer_format; eauto).
  destruct (set_cell_inside rows cols (MatrixInput.matrix st) _ _ f Hm Br Bc)
    as (r0 & Hn & E).
  rewrite E in Hs. injection Hs as <-.
  assert (HQ' : Forall (Forall numeral_or_empty)
                  (update (MatrixInput.matrix st)
                     (Z.to_nat (MatrixInput.current_row st))
                     (update r0 (Z.to_nat (MatrixInput.current_col st)) f))).
  { apply update_forall; [exact HQ|]. apply update_forall; [|now right].
    rewrite Forall_forall in HQ. apply HQ. eapply nth_error_In; eauto. }
  destruct (Spec.first_empty_after rows cols _ _) as [q|].
  { injection H as -> ->. split; [exact HQ' | discriminate]. }
  destruct (Spec.first_empty_before rows cols _ _) as [q|].
  { injection H as -> ->. split; [exact HQ' | discriminate]. }
  injection H as -> ->. split; [exact HQ'|]. now intros m [= <-].
Qed.

Lemma integer_matrix_stands (keys : list ascii) :
  Session.matrix_stands
    (fun s => Spec.matrix_inv rows cols s /\
              Forall (Forall numeral_or_empty) (MatrixInput.matrix s))
    (MatrixInput.on_enter rows cols true false (MatrixInput.default_validator true false))
    (MatrixInput.loop rows cols true false (MatrixInput.default_validator true false)
       (MatrixInput.initial rows cols) keys).
Proof.
  apply EndFacts.matrix_loop_stands.
  - intros st st' [Hinv HQ] H. split; [eapply matrix_inv_enter; eauto|].
    eapply integer_enter_keeps; eauto.
  - intros st [Hinv HQ]. split; [now apply matrix_inv_backspace|].
    unfold MatrixInput.on_backspace.
    destruct (truthy (MatrixInput.current_value st)); exact HQ.
  - intros d st [Hinv HQ]. split; [now apply matrix_inv_arrow|].
    unfold MatrixInput.on_arrow.
    repeat match goal with
           | |- context [if ?a then _ else _] => destruct a
           end; exact HQ.
  - intros c st _ [Hinv HQ]. split; [now apply matrix_inv_char | exact HQ].
  - split; [apply matrix_inv_initial|]. unfold MatrixInput.initial. simpl.
    apply Forall_forall. intros r Hr. apply repeat_spec in Hr. subst r.
    apply Forall_forall. intros c Hc. apply repeat_spec in Hc. now left.
Qed.

End Integer.

End FillFacts.

(** X19: typing [size] texts, each followed by Enter, returns their
    formatted texts in the order typed, provided each text is printable, not
    empty, accepted by the validator and can be formatted. *)
Theorem typed_texts_are_returned_in_order
    (size : Z) (as_int : bool) (v : option validator) (texts formatted : list string) :
  texts <> [] -> size = Z.of_nat (List.length texts) ->
  Forall2 (Session.accepted_as (fun _ => Ok tt) (Session.array_validator as_int v)
             (fun t => ArrayInput.format_number t as_int)) texts formatted ->
  ArrayInput.input_array size as_int v (Session.entered texts)
  = Returned (Some formatted).
Proof.
  intros Hne Hsize HF. unfold ArrayInput.input_array.
  apply (FillFacts.array_fill size as_int (Session.array_validator as_int v)
           texts formatted HF [] (ArrayInput.initial size)); auto.
  unfold ArrayInput.initial. simpl. f_equal. lia.
Qed.

(** The texts 3.50 and 7 in real mode. *)
Lemma typed_texts_are_returned_in_order_witness :
  ArrayInput.input_array 2 false None (Session.entered ["3.50"; "7"])
  = Returned (Some ["3.5"; "7"]).
Proof.
  apply (typed_texts_are_returned_in_order 2 false None ["3.50"; "7"] ["3.5"; "7"]).
  - discriminate.
  - reflexivity.
  - repeat constructor; try discriminate; now exists EmptyString.
Defined.

(** X20: in integer mode with the default validator every cell is empty or
    the decimal numeral of an integer while an editor waits, and every cell
    of what it returns is such a numeral. *)
Theorem integer_cells_are_numerals
    (size : Z) (keys : list ascii) (arr : list string) (ast : ArrayInput.state)
    (rows cols : Z) (keys' : list ascii) (m : MatrixInput.grid)
    (mst : MatrixInput.state) :
  (ArrayInput.input_array size true None keys = Returned (Some arr) ->
   Forall (fun c => Session.is_numeral c = true) arr) /\
  (ArrayInput.input_array size true None keys = Waiting ast ->
   Forall (fun c => c = EmptyString \/ Session.is_numeral c = true)
     (ArrayInput.array ast)) /\
  (MatrixInput.input_matrix rows cols true false None keys' = Returned (Some m) ->
   Forall (fun c => Session.is_numeral c = true) (Session.cells m)) /\
  (MatrixInput.input_matrix rows cols true false None keys' = Waiting mst ->
   Forall (fun c => c = EmptyString \/ Session.is_numeral c = true)
     (Session.cells (MatrixInput.matrix mst))).
Proof.
  unfold ArrayInput.input_array, MatrixInput.input_matrix.
  pose proof (FillFacts.integer_array_stands size keys) as HA.
  pose proof (FillFacts.integer_matrix_stands rows cols keys') as HM.
  split; [|split; [|split]]; intros E.
  - rewrite E in HA. destruct HA as (s & [Hinv HQ] & Hc & ->).
    apply GridFacts.all_nonempty in Hc. rewrite Forall_forall in *.
    intros c Hin. destruct (HQ c Hin) as [->|Hn]; [now destruct (Hc _ Hin) | exact Hn].
  - rewrite E in HA. apply HA.
  - rewrite E in HM. destruct HM as (s & s' & [Hinv HQ] & He).
    destruct (FillFacts.integer_enter_keeps rows cols s s' _ Hinv HQ He) as [HQ' Hm].
    rewrite (Hm m eq_refl).
    destruct (GridFacts.returned_grid rows cols true false _ s s' m Hinv He)
      as (_ & _ & _ & Hc).
    apply GridFacts.complete_cells in Hc. rewrite (Hm m eq_refl) in Hc.
    apply Forall_concat in HQ'. unfold Session.cells in *.
    rewrite Forall_forall in *. intros c Hin.
    destruct (HQ' c Hin) as [->|Hn]; [now destruct (Hc _ Hin) | exact Hn].
  - rewrite E in HM. destruct HM as [_ HQ]. now apply Forall_concat.
Qed.

Lemma integer_cells_are_numerals_witness :
  Forall (fun c => Session.is_numeral c = true) ["-7"; "12"] /\
  Forall (fun c => c = EmptyString \/ Session.is_numeral c = true) ["-7"; ""] /\
  Forall (fun c => Session.is_numeral c = true) (Session.cells [["-7"; "12"]]) /\
  Forall (fun c => c = EmptyString \/ Session.is_numeral c = true)
    (Session.cells [["-7"; ""]]).
Proof.
  destruct (integer_cells_are_numerals
              2 (Session.entered ["-7.9"; "12.3"]) ["-7"; "12"] (ArrayInput.initial 2)
              1 2 (Session.entered ["-7.9"; "12.3"]) [["-7"; "12"]]
              (MatrixInput.initial 1 2)) as (HA & _ & HM & _).
  destruct (integer_cells_are_numerals
              2 (Session.entered ["-7.9"]) []
              (ArrayInput.mkState ["-7"; ""] 1 "" "" ["-7.9"] [0])
              1 2 (Session.entered ["-7.9"]) []
              (MatrixInput.mkState [["-7"; ""]] 0 1 "" "" ["-7.9"] [(0, 0)]))
    as (_ & HA' & _ & HM').
  split; [apply HA; reflexivity|]. split; [apply HA'; reflexivity|].
  split; [apply HM; reflexivity | apply HM'; reflexivity].
Defined.

(** ** Filling a grid row after row *)

Module RowFacts.

Import PyFacts LoopFacts ScanFacts EnterFacts FormatFacts RunFacts GridFacts FillFacts.

Lemma update_app_l {A : Type} (l l' : list A) (j : nat) (v : A) :
  (j < List.length l)%nat -> update (l ++ l') j v = update l j v ++ l'.
Proof.
  revert j. induction l as [|a l IH]; intros [|j] H; simpl in *; try lia;
    [reflexivity|].
  rewrite IH by lia. reflexivity.
Qed.

Lemma update_app_r {A : Type} (l l' : list A) (k : nat) (v : A) :
  update (l ++ l') (List.length l + k) v = l ++ update l' k v.
Proof. induction l as [|a l IH]; simpl; [reflexivity | now rewrite IH]. Qed.

(** An assignment in a row, seen on the cells row after row. *)
Lemma concat_update {A : Type} (C : nat) (m : list (list A)) (i j : nat)
    (r : list A) (v : A) :
  Forall (fun r => List.length r = C) m -> nth_error m i = Some r -> (j < C)%nat ->
  List.concat (update m i (update r j v)) = update (List.concat m) (i * C + j) v.
Proof.
  intros Hm. revert i. induction Hm as [|x m Hx Hm IH]; intros i Hn Hj.
  - destruct i; discriminate.
  - destruct i as [|i]; simpl in Hn.
    + injection Hn as ->. simpl. rewrite update_app_l by lia. reflexivity.
    + cbn [update List.concat]. rewrite (IH i Hn Hj).
      replace (S i * C + j)%nat with (List.length x + (i * C + j))%nat by lia.
      now rewrite update_app_r.
Qed.

Lemma concat_nth {A : Type} (C : nat) (m : list (list A)) (i j : nat)
    (r : list A) (x : A) :
  Forall (fun r => List.length r = C) m ->
  nth_error m i = Some r -> nth_error r j = Some x ->
  nth_error (List.concat m) (i * C + j) = Some x.
Proof.
  intros Hm. revert i. induction Hm as [|y m Hy Hm IH]; intros i Hn Hj.
  - destruct i; discriminate.
  - assert (Hb : (j < List.length r)%nat) by (apply nth_error_Some; congruence).
    destruct i as [|i]; simpl in Hn.
    + injection Hn as ->. simpl. rewrite nth_error_app1 by lia. exact Hj.
    + cbn [List.concat]. rewrite nth_error_app2 by lia.
      replace (S i * C + j - List.length y)%nat with (i * C + j)%nat by lia.
      now apply IH.
Qed.

Lemma concat_length_rows {A : Type} (C : nat) (m : list (list A)) :
  Forall (fun r => List.length r = C) m ->
  List.length (List.concat m) = (List.length m * C)%nat.
Proof.
  induction 1 as [|x m Hx Hm IH]; simpl; [reflexivity|].
  rewrite length_app, IH, Hx. reflexivity.
Qed.

Section Matrix.

Import MatrixInput.

Variables rows cols : Z.
Variables as_int as_symbol : bool.
Variable validate : validator.

Local Abbreviation run := (loop rows cols as_int as_symbol validate).
Local Abbreviation enter := (on_enter rows cols as_int as_symbol validate).
Local Abbreviation accepted :=
  (Session.accepted_as (format_check as_int as_symbol) validate
     (fun t => format_number t as_int as_symbol)).
Local Abbreviation place i j := (Z.to_nat i * Z.to_nat cols + Z.to_nat j)%nat.

Lemma cells_set_cell (m m' : grid) (i j : Z) (v : string) :
  Spec.shaped rows cols m -> 0 <= i < rows -> 0 <= j < cols ->
  set_cell m i j v = Ok m' ->
  Session.cells m' = update (Session.cells m) (place i j) v.
Proof.
  intros Hm Hi Hj H.
  destruct (set_cell_inside rows cols m i j v Hm Hi Hj) as (r & Hn & E).
  rewrite E in H. injection H as <-. unfold Session.cells.
  apply concat_update; [apply Hm | exact Hn | lia].
Qed.

Lemma cells_empty_at (m : grid) (i j : Z) :
  Spec.shaped rows cols m -> 0 <= i < rows -> 0 <= j < cols ->
  nth_error (Session.cells m) (place i j) = Some EmptyString ->
  Spec.empty_at m (i, j) = true.
Proof.
  intros Hm Hi Hj H.
  destruct (cell_inside rows cols m i j Hm Hi Hj) as (r & c & Hr & Hc & E).
  unfold Spec.empty_at. simpl fst. simpl snd. rewrite E.
  unfold Session.cells in H.
  rewrite (concat_nth (Z.to_nat cols) m _ _ r c (proj2 Hm) Hr Hc) in H.
  injection H as ->. reflexivity.
Qed.

(** The cells the forward scan goes through. *)
Lemma first_empty_after_scan (m : grid) (row col : Z) :
  Spec.shaped rows cols m -> 0 <= row < rows -> 0 <= col < cols ->
  Spec.first_empty_after rows cols m (row, col)
  = find (Spec.empty_at m)
      (flat_map (fun i => map (pair i) (range (if i =? row then col + 1 else 0) cols))
         (range row rows)).
Proof.
  intros Hm Hr Hc.
  pose proof (find_next_empty_spec rows cols m row col Hm Hr Hc) as H.
  unfold find_next_empty in H. cbv zeta in H.
  rewrite (for_loop_nested (range row rows)
             (fun i => range (if i =? row then col + 1 else 0) cols)
             (fun i j => c <- cell m i j ;;
                Ok (if String.eqb c EmptyString then Return (i, j) else Next))
             (Spec.empty_at m)) in H.
  2:{ intros i j Hi Hj. apply in_range in Hi, Hj.
      apply (scan_body rows cols); auto; [lia|].
      destruct (i =? row); lia. }
  now injection H as <-.
Qed.

(** When the cell that follows the cursor row after row is empty, the
    forward scan stops there. *)
Lemma next_cell_found (m : grid) (row col : Z) :
  Spec.shaped rows cols m -> 0 <= row < rows -> 0 <= col < cols ->
  nth_error (Session.cells m) (S (place row col)) = Some EmptyString ->
  exists q, Spec.first_empty_after rows cols m (row, col) = Some q /\
            0 <= fst q < rows /\ 0 <= snd q < cols /\
            place (fst q) (snd q) = S (place row col).
Proof.
  intros Hm Hr Hc Hn.
  assert (Hlen : (S (place row col) < Z.to_nat rows * Z.to_nat cols)%nat).
  { destruct Hm as [Hl Hrows].
    rewrite <- Hl, <- (concat_length_rows _ _ Hrows).
    apply nth_error_Some. unfold Session.cells in Hn. congruence. }
  rewrite (first_empty_after_scan m row col Hm Hr Hc).
  rewrite (range_first row rows) by lia. cbn [flat_map]. rewrite Z.eqb_refl.
  rewrite find_append.
  destruct (Z.lt_ge_cases (col + 1) cols) as [Hlt|Hge].
  - rewrite (range_first (col + 1) cols) by lia. cbn [map find].
    assert (Hp : place row (col + 1) = S (place row col)) by lia.
    rewrite (cells_empty_at m row (col + 1) Hm Hr ltac:(lia)) by (now rewrite Hp).
    exists (row, col + 1). simpl. repeat split; auto; lia.
  - assert (Hrow : row + 1 < rows) by nia.
    unfold range at 1. replace (Z.to_nat (cols - (col + 1))) with 0%nat by lia.
    cbn [range_from map find].
    rewrite (range_first (row + 1) rows) by lia. cbn [flat_map].
    replace (row + 1 =? row) with false by lia.
    rewrite (range_first 0 cols) by lia. cbn [map app find].
    assert (Hp : place (row + 1) 0 = S (place row col)) by nia.
    rewrite (cells_empty_at m (row + 1) 0 Hm ltac:(lia) ltac:(lia)) by (now rewrite Hp).
    exists (row + 1, 0). simpl. repeat split; auto; lia.
Qed.

(** Typing the texts that are still missing, each followed by [Enter],
    fills the grid row after row from the cursor on and returns it. *)
Lemma matrix_fill (ts fs : list string) :
  Forall2 accepted ts fs ->
  forall (done : list string) (st : state),
    ts <> [] ->
    Spec.shaped rows cols (matrix st) ->
    Session.cells (matrix st) = done ++ repeat EmptyString (List.length ts) ->
    Forall (fun c => c <> EmptyString) done ->
    0 <= current_row st < rows -> 0 <= current_col st < cols ->
    place (current_row st) (current_col st) = List.length done ->
    current_value st = EmptyString ->
    exists m, run st (Session.entered ts) = Returned (Some m) /\
              Spec.shaped rows cols m /\ Session.cells m = done ++ fs.
Proof.
  induction 1 as [|t f ts fs Hacc HF IH];
    intros done st Hne Hm Hcells Hdone Br Bc Hplace Hval; [congruence|].
  destruct Hacc as (Ht & Hp & Hcheck & [e Hv] & Hf).
  rewrite entered_cons.
  rewrite (TypingFacts.matrix_typing rows cols as_int as_symbol validate t st _ Ht Hp).
  cbn [loop]. change (ord CR =? 27) with false. change (ord CR =? 13) with true.
  cbv iota.
  set (st1 := Session.matrix_typed st t).
  assert (Hv1 : current_value st1 = t).
  { unfold st1, Session.matrix_typed. simpl. now rewrite Hval. }
  destruct (set_cell_inside rows cols (matrix st) (current_row st) (current_col st) f
              Hm Br Bc) as (r0 & Hn0 & Hs).
  set (m' := update (matrix st) (Z.to_nat (current_row st))
               (update r0 (Z.to_nat (current_col st)) f)) in *.
  pose proof (set_cell_shaped rows cols _ _ _ _ _ Hm Br Bc Hs) as Hm'.
  assert (Hcells' : Session.cells m' = done ++ f :: repeat EmptyString (List.length ts)).
  { rewrite (cells_set_cell _ _ _ _ _ Hm Br Bc Hs), Hcells, Hplace. simpl repeat.
    apply update_app. }
  assert (Hfne : f <> EmptyString)
    by (eapply matrix_format_number_nonempty; eauto).
  assert (Hcell : cell m' (current_row st) (current_col st) = Ok f).
  { rewrite (set_cell_read rows cols _ _ _ _ _ _ _ Hm Br Bc Hs Br Bc).
    now rewrite !Z.eqb_refl. }
  assert (E : enter st1
              = match Spec.first_empty_after rows cols m'
                        (current_row st, current_col st) with
                | Some q => (Ok None, set_cursor q (after_commit st1 m'))
                | None =>
                    match Spec.first_empty_before rows cols m'
                            (current_row st, current_col st) with
                    | Some q => (Ok None, set_cursor q (after_commit st1 m'))
                    | None => (Ok (Some m'), after_commit st1 m')
                    end
                end).
  { apply (matrix_enter_commit rows cols as_int as_symbol validate st1 e f m');
      try (rewrite Hv1; assumption).
    - exact Hs.
    - apply (find_next_empty_spec rows cols m' _ _ Hm' Br Bc).
    - apply (find_prev_empty_spec rows cols m' _ _ Hm' Br Bc). }
  rewrite E. clear E.
  destruct ts as [|t' ts'].
  - inversion HF; subst fs.
    assert (Hc : is_matrix_complete m' = true).
    { apply complete_cells. rewrite Hcells'. apply Forall_app. split; [exact Hdone|].
      constructor; [exact Hfne | constructor]. }
    apply (scans_find_nothing rows cols m' _ _ f Hm' Br Bc Hcell Hfne) in Hc
      as [-> ->].
    exists m'. auto.
  - assert (Hnext : nth_error (Session.cells m')
                      (S (place (current_row st) (current_col st)))
                    = Some EmptyString).
    { rewrite Hcells', Hplace, nth_error_app2 by lia.
      replace (S (List.length done) - List.length done)%nat with 1%nat by lia.
      reflexivity. }
    destruct (next_cell_found m' _ _ Hm' Br Bc Hnext) as (q & -> & Bq & Bq' & Hq).
    destruct (IH (done ++ [f]) (set_cursor q (after_commit st1 m'))) as (m & Hrun & Hshape & Hm2).
    + discriminate.
    + exact Hm'.
    + cbn [matrix set_cursor after_commit]. rewrite Hcells', <- app_assoc. reflexivity.
    + apply Forall_app. split; [exact Hdone|]. constructor; [exact Hfne | constructor].
    + exact Bq.
    + exact Bq'.
    + cbn [current_row current_col set_cursor]. rewrite Hq, Hplace, length_app.
      simpl. lia.
    + reflexivity.
    + exists m. split; [exact Hrun|]. split; [exact Hshape|].
      rewrite Hm2, <- app_assoc. reflexivity.
Qed.

End Matrix.

End RowFacts.

(** X21: typing as many texts as the grid has cells, each followed by
    Enter, fills the grid row after row and returns it: its cells, read row
    after row, are the formatted texts in the order typed; provided each
    text is printable, not empty, passes the format check, is accepted by
    the validator and can be formatted. *)
Theorem typed_texts_fill_the_grid_row_after_row
    (rows cols : Z) (as_int as_symbol : bool) (v : option validator)
    (texts formatted : list string) :
  1 <= rows -> 1 <= cols -> Z.of_nat (List.length texts) = rows * cols ->
  Forall2 (Session.accepted_as (MatrixInput.format_check as_int as_symbol)
             (Session.matrix_validator as_int as_symbol v)
             (fun t => MatrixInput.format_number t as_int as_symbol))
    texts formatted ->
  exists m,
    MatrixInput.input_matrix rows cols as_int as_symbol v (Session.entered texts)
    = Returned (Some m) /\
    Spec.shaped rows cols m /\ Session.cells m = formatted.
Proof.
  intros Hr Hc Hlen HF. unfold MatrixInput.input_matrix.
  apply (RowFacts.matrix_fill rows cols as_int as_symbol
           (Session.matrix_validator as_int as_symbol v) texts formatted HF []
           (MatrixInput.initial rows cols)).
  - intros ->. simpl in Hlen. nia.
  - apply RunFacts.initial_shaped.
  - pose proof (RunFacts.initial_shaped rows cols) as [Hl Hrows].
    apply (nth_ext _ _ EmptyString EmptyString).
    + unfold Session.cells. rewrite (RowFacts.concat_length_rows _ _ Hrows), Hl.
      simpl. rewrite repeat_length. nia.
    + intros n Hn. simpl. unfold Session.cells, MatrixInput.initial. simpl.
      assert (Hall : Forall (fun c => c = EmptyString)
                       (List.concat (repeat (repeat EmptyString (Z.to_nat cols))
                                       (Z.to_nat rows)))).
      { apply Forall_concat, Forall_forall. intros r Hin.
        apply repeat_spec in Hin. subst r. apply Forall_forall.
        intros c Hin. now apply repeat_spec in Hin. }
      rewrite Forall_forall in Hall. rewrite (Hall (nth n _ EmptyString)).
      * symmetry. destruct (Nat.lt_ge_cases n (List.length texts)) as [Hlt|Hge].
        -- apply nth_error_nth with (d := EmptyString).
           now apply nth_error_repeat.
        -- apply nth_overflow. now rewrite repeat_length.
      * apply nth_In. exact Hn.
  - constructor.
  - simpl. lia.
  - simpl. lia.
  - reflexivity.
  - reflexivity.
Qed.

(** Four symbols typed into a grid of two rows and two columns. *)
Lemma typed_texts_fill_the_grid_row_after_row_witness :
  exists m,
    MatrixInput.input_matrix 2 2 false true None (Session.entered ["a"; "b"; "c"; "d"])
    = Returned (Some m) /\
    Spec.shaped 2 2 m /\ Session.cells m = ["a"; "b"; "c"; "d"].
Proof.
  apply (typed_texts_fill_the_grid_row_after_row 2 2 false true None
           ["a"; "b"; "c"; "d"] ["a"; "b"; "c"; "d"]).
  - lia.
  - lia.
  - reflexivity.
  - repeat constructor; try discriminate; now exists EmptyString.
Defined.

(** ** The messages of the default validators, and the example validators *)

Module ValidatorFacts.

Import PyFacts LoopFacts ScanFacts EnterFacts FormatFacts RunFacts GridFacts.

(** The messages of the default validators. *)
Lemma array_default_message (as_int : bool) (text msg : string) (b : bool) :
  ArrayInput.default_validator as_int text = Ok (b, msg) ->
  msg = EmptyString \/ msg = ArrayInput.invalid_number.
Proof.
  unfold ArrayInput.default_validator, float_of_str.
  destruct (parse_float text) as [[neg m ex|neg|]|]; destruct as_int; simpl;
    try discriminate; intros [= <- <-]; auto.
Qed.

Lemma matrix_default_message (as_int as_symbol : bool) (text msg : string) (b : bool) :
  MatrixInput.default_validator as_int as_symbol text = Ok (b, msg) ->
  msg = EmptyString \/ msg = MatrixInput.invalid_number \/
  (as_symbol = true /\ msg = MatrixInput.invalid_symbol).
Proof.
  unfold MatrixInput.default_validator, float_of_str. destruct as_symbol.
  - destruct (len text =? 1); intros [= <- <-]; auto.
  - destruct (parse_float text) as [[neg m ex|neg|]|]; destruct as_int; simpl;
      try discriminate; intros [= <- <-]; auto.
Qed.

(** The example validators return a verdict on every text. *)
Lemma array_custom_returns (text : string) :
  exists b msg, ArrayMain.custom_validator text = Ok (b, msg).
Proof.
  unfold ArrayMain.custom_validator, float_of_str.
  destruct (parse_float text) as [x|]; simpl; [|eauto].
  destruct (FloatOrder.int_le_float (-100) x && FloatOrder.float_le_int x 100);
    simpl; eauto.
Qed.

Lemma matrix_custom_returns (text : string) :
  exists b msg, MatrixMain.custom_validator text = Ok (b, msg).
Proof.
  unfold MatrixMain.custom_validator, float_of_str.
  destruct (parse_float text) as [x|]; simpl; [|eauto].
  destruct (FloatOrder.int_le_float (-100) x && FloatOrder.float_le_int x 100);
    simpl; eauto.
Qed.

(** What they accept is a finite number. *)
Lemma in_range_finite (x : float) :
  FloatOrder.int_le_float (-100) x && FloatOrder.float_le_int x 100 = true ->
  exists neg m e, x = Finite neg m e.
Proof.
  destruct x as [neg m e|neg|]; simpl.
  - intros _. now exists neg, m, e.
  - destruct neg; discriminate.
  - discriminate.
Qed.

Lemma array_custom_accepts (text msg : string) :
  ArrayMain.custom_validator text = Ok (true, msg) ->
  (exists neg m e, parse_float text = Some (Finite neg m e)) /\
  ArrayInput.default_validator false text = Ok (true, EmptyString).
Proof.
  unfold ArrayMain.custom_validator, ArrayInput.default_validator, float_of_str.
  destruct (parse_float text) as [x|]; simpl; [|discriminate].
  destruct (FloatOrder.int_le_float (-100) x && FloatOrder.float_le_int x 100) eqn:E;
    simpl; [|discriminate].
  intros _. split; [|reflexivity].
  destruct (in_range_finite x E) as (neg & m & e & ->). now exists neg, m, e.
Qed.

Lemma matrix_custom_accepts (text msg : string) :
  MatrixMain.custom_validator text = Ok (true, msg) ->
  (exists neg m e, parse_float text = Some (Finite neg m e)) /\
  MatrixInput.default_validator false false text = Ok (true, EmptyString).
Proof.
  unfold MatrixMain.custom_validator, MatrixInput.default_validator, float_of_str.
  destruct (parse_float text) as [x|]; simpl; [|discriminate].
  destruct (FloatOrder.int_le_float (-100) x && FloatOrder.float_le_int x 100) eqn:E;
    simpl; [|discriminate].
  intros _. split; [|reflexivity].
  destruct (in_range_finite x E) as (neg & m & e & ->). now exists neg, m, e.
Qed.

Section Array.

Import ArrayInput.

Variable size : Z.
Variable as_int : bool.
Variable validate : validator.

(** Where an exception that leaves [Enter] comes from. *)
Lemma array_enter_raise (st : state) (e : exn) :
  1 <= size -> Spec.array_inv size st ->
  on_enter size as_int validate st = Raise e ->
  validate (current_value st) = Raise e \/
  format_number (current_value st) as_int = Raise e.
Proof.
  intros Hs (Hlen & Hpos & Hup & _). unfold on_enter.
  destruct (truthy (current_value st)).
  - destruct (validate (current_value st)) as [[[|] msg]|e0]; simpl.
    + destruct (format_number (current_value st) as_int) as [f|e0]; simpl.
      * rewrite setitem_inside by lia. discriminate.
      * intros [= <-]. now right.
    + discriminate.
    + intros [= <-]. now left.
  - destruct (current_pos st <? size - 1); discriminate.
Qed.

(** The messages the array editor shows with its default validator. *)
Lemma array_default_messages (keys : list ascii) (st : state) :
  loop size as_int (default_validator as_int) (initial size) keys = Waiting st ->
  error_message st = EmptyString \/ error_message st = invalid_number.
Proof.
  apply (array_loop_invariant size as_int (default_validator as_int)
           (fun s => error_message s = EmptyString \/
                     error_message s = invalid_number)).
  - intros s s' HP. unfold on_enter.
    destruct (truthy (current_value s)).
    + destruct (default_validator as_int (current_value s)) as [[[|] msg]|e0] eqn:Hv;
        simpl; try discriminate.
      * destruct (format_number (current_value s) as_int) as [f|e0]; simpl;
          try discriminate.
        destruct (setitem (array s) (current_pos s) f) as [arr|e0]; simpl;
          try discriminate.
        intros [= <-]. now left.
      * intros [= <-]. simpl. eapply array_default_message; eauto.
    + destruct (current_pos s <? size - 1); intros [= <-]; exact HP.
  - intros s HP. unfold on_backspace.
    destruct (truthy (current_value s)); [now left | exact HP].
  - intros d s HP. unfold on_arrow.
    destruct (Ascii.eqb d "D" && (0 <? current_pos s)); [now left|].
    destruct (Ascii.eqb d "C" && (current_pos s <? size - 1)); [now left | exact HP].
  - intros c s HP. now left.
  - now left.
Qed.

End Array.

Section Matrix.

Import MatrixInput.

Variables rows cols : Z.
Variables as_int as_symbol : bool.
Variable validate : validator.

Local Abbreviation enter := (on_enter rows cols as_int as_symbol validate).

(** Where an exception that leaves [Enter] comes from. *)
Lemma matrix_enter_raise (st st' : state) (e : exn) :
  Spec.shaped rows cols (matrix st) -> Spec.on_grid rows cols st ->
  enter st = (Raise e, st') ->
  e <> ValueError /\
  (format_check as_int as_symbol (current_value st) = Raise e \/
   validate (current_value st) = Raise e \/
   format_number (current_value st) as_int as_symbol = Raise e).
Proof.
  intros Hm [Br Bc] H.
  destruct (String.eqb_spec (current_value st) EmptyString) as [Hv|Hv].
  { rewrite StepFacts.matrix_enter_empty in H by exact Hv. discriminate. }
  pose proof (proj2 (truthy_true _) Hv) as Ht.
  destruct (format_check as_int as_symbol (current_value st)) as [[]|e0] eqn:Hc.
  2:{ revert H. unfold on_enter. unfold_monad. rewrite Ht, Hc.
      destruct e0; try discriminate; intros [= <- _];
        (split; [discriminate | now left]). }
  destruct (validate (current_value st)) as [[[|] msg]|e0] eqn:Hval.
  2:{ rewrite (matrix_enter_rejected _ _ _ _ _ _ _ Hv Hc Hval) in H. discriminate. }
  2:{ revert H. unfold on_enter. unfold_monad. rewrite Ht, Hc. simpl.
      rewrite Hval. destruct e0; try discriminate; intros [= <- _];
        (split; [discriminate | right; now left]). }
  destruct (format_number (current_value st) as_int as_symbol) as [f|e0] eqn:Hf.
  2:{ revert H. unfold on_enter. unfold_monad. rewrite Ht, Hc. simpl.
      rewrite Hval, Hf. destruct e0; try discriminate; intros [= <- _];
        (split; [discriminate | right; now right]). }
  destruct (set_cell_inside rows cols (matrix st) _ _ f Hm Br Bc) as (r0 & _ & Hs).
  pose proof (set_cell_shaped rows cols _ _ _ _ _ Hm Br Bc Hs) as Hm'.
  rewrite (matrix_enter_commit rows cols as_int as_symbol _ st msg f _ _ _
             Hv Hc Hval Hf Hs
             (find_next_empty_spec rows cols _ _ _ Hm' Br Bc)
             (find_prev_empty_spec rows cols _ _ _ Hm' Br Bc)) in H.
  destruct (Spec.first_empty_after rows cols _ _); [discriminate|].
  destruct (Spec.first_empty_before rows cols _ _); discriminate.
Qed.

End Matrix.

Section Messages.

Import MatrixInput.

Variables rows cols : Z.
Variables as_int as_symbol : bool.

(** The messages the matrix editor shows with its default validator. *)
Lemma matrix_default_messages (keys : list ascii) (st : state) :
  loop rows cols as_int as_symbol (default_validator as_int as_symbol)
    (initial rows cols) keys = Waiting st ->
  error_message st = EmptyString \/ error_message st = invalid_number \/
  (as_symbol = true /\ error_message st = invalid_symbol).
Proof.
  intros H.
  apply (matrix_loop_invariant rows cols as_int as_symbol
           (default_validator as_int as_symbol)
           (fun s => Spec.matrix_inv rows cols s /\
                     (error_message s = EmptyString \/
                      error_message s = invalid_number \/
                      (as_symbol = true /\ error_message s = invalid_symbol))))
    in H; [apply H| | | | |].
  - intros s s' [Hinv HP] E. split; [eapply matrix_inv_enter; eauto|].
    destruct Hinv as (Hm & Hrow & Hcol & _).
    apply (MessageFacts.matrix_enter_message _ _ _ _ _ s s' Hm Hrow Hcol) in E
      as [(Hv & ->)|[Hm'|(Hv & [[Hc ->]|(msg & -> & [Hval | ->])])]]; simpl; auto.
    eapply matrix_default_message; eauto.
  - intros s [Hinv HP]. split; [now apply matrix_inv_backspace|].
    unfold on_backspace.
    destruct (truthy (current_value s)); [now left | exact HP].
  - intros d s [Hinv HP]. split; [now apply matrix_inv_arrow|].
    unfold on_arrow.
    repeat match goal with
           | |- context [if ?a then _ else _] => destruct a
           end; try exact HP; now left.
  - intros c s [Hinv HP]. split; [now apply matrix_inv_char | now left].
  - split; [apply matrix_inv_initial | now left].
Qed.

End Messages.

End ValidatorFacts.

(** X22: with the default validator an editor shows no message but its
    own: the one asking for a valid number and, in symbol mode, the one
    asking for a single character. *)
Theorem default_editors_show_their_own_messages
    (size : Z) (as_int : bool) (keys : list ascii) (ast : ArrayInput.state)
    (rows cols : Z) (as_int' as_symbol : bool) (keys' : list ascii)
    (mst : MatrixInput.state) :
  (ArrayInput.input_array size as_int None keys = Waiting ast ->
   ArrayInput.error_message ast = EmptyString \/
   ArrayInput.error_message ast = ArrayInput.invalid_number) /\
  (MatrixInput.input_matrix rows cols as_int' as_symbol None keys' = Waiting mst ->
   MatrixInput.error_message mst = EmptyString \/
   MatrixInput.error_message mst = MatrixInput.invalid_number \/
   (as_symbol = true /\
    MatrixInput.error_message mst = MatrixInput.invalid_symbol)).
Proof.
  split.
  - apply ValidatorFacts.array_default_messages.
  - apply ValidatorFacts.matrix_default_messages.
Qed.

(** The text abc in the array editor, the text xy in symbol mode. *)
Lemma default_editors_show_their_own_messages_witness :
  (ArrayInput.invalid_number = EmptyString \/
   ArrayInput.invalid_number = ArrayInput.invalid_number) /\
  (MatrixInput.invalid_symbol = EmptyString \/
   MatrixInput.invalid_symbol = MatrixInput.invalid_number \/
   (true = true /\ MatrixInput.invalid_symbol = MatrixInput.invalid_symbol)).
Proof.
  destruct (default_editors_show_their_own_messages
              2 false (Spec.keys_of "abc" ++ [CR])
              (ArrayInput.mkState [""; ""] 0 "abc" ArrayInput.invalid_number ["abc"] [])
              1 2 false true (Spec.keys_of "xy" ++ [CR])
              (MatrixInput.mkState [[""; ""]] 0 0 "xy" MatrixInput.invalid_symbol
                 ["xy"] [])) as [HA HM].
  split; [apply HA | apply HM]; reflexivity.
Defined.

(** X23: the example validators under [__main__] return a verdict on every
    text; a text they accept parses as a finite number and is accepted by
    the default validator of real mode; and the sessions the examples start,
    the array editor in real mode and the matrix editor in real mode on a
    grid with a cell, never raise with them. *)
Theorem example_validators_never_raise
    (text msg : string) (e : exn)
    (size : Z) (keys : list ascii) (rows cols : Z) (keys' : list ascii) :
  (exists b m, ArrayMain.custom_validator text = Ok (b, m)) /\
  (exists b m, MatrixMain.custom_validator text = Ok (b, m)) /\
  (ArrayMain.custom_validator text = Ok (true, msg) ->
   (exists neg m ex, parse_float text = Some (Finite neg m ex)) /\
   ArrayInput.default_validator false text = Ok (true, EmptyString)) /\
  (MatrixMain.custom_validator text = Ok (true, msg) ->
   (exists neg m ex, parse_float text = Some (Finite neg m ex)) /\
   MatrixInput.default_validator false false text = Ok (true, EmptyString)) /\
  ArrayInput.input_array size false (Some ArrayMain.custom_validator) keys
  <> Raised e /\
  (1 <= rows -> 1 <= cols ->
   MatrixInput.input_matrix rows cols false false (Some MatrixMain.custom_validator)
     keys' <> Raised e).
Proof.
  split; [apply ValidatorFacts.array_custom_returns|].
  split; [apply ValidatorFacts.matrix_custom_returns|].
  split; [apply ValidatorFacts.array_custom_accepts|].
  split; [apply ValidatorFacts.matrix_custom_accepts|].
  split.
  - unfold ArrayInput.input_array. intros E.
    destruct (Z.le_gt_cases size 0) as [Hs|Hs].
    + now apply DefaultFacts.empty_array_never_raises in E.
    + pose proof (GridFacts.array_session_stands size false
                    ArrayMain.custom_validator keys) as H.
      rewrite E in H. destruct H as (s & Hinv & He).
      apply (ValidatorFacts.array_enter_raise size false _ s e) in He
        as [He|He]; [| |lia|exact Hinv].
      * destruct (ValidatorFacts.array_custom_returns (ArrayInput.current_value s))
          as (b & m & Hb). congruence.
      * apply DefaultFacts.array_format_raise in He as [He _]. discriminate.
  - unfold MatrixInput.input_matrix. intros Hr Hc E.
    pose proof (GridFacts.matrix_session_stands rows cols false false
                  MatrixMain.custom_validator keys') as H.
    rewrite E in H. destruct H as (s & s' & [Hinv _] & He).
    destruct Hinv as (Hm & _ & _ & Hgrid & _).
    apply (ValidatorFacts.matrix_enter_raise rows cols false false _ s s' e Hm
             (Hgrid Hr Hc)) in He as [Hne [He|[He|He]]].
    + apply DefaultFacts.format_check_raise in He as [->|[He _]];
        [congruence | discriminate].
    + destruct (ValidatorFacts.matrix_custom_returns (MatrixInput.current_value s))
        as (b & m & Hb). congruence.
    + rewrite FormatMore.matrix_numeric_format in He.
      apply DefaultFacts.array_format_raise in He as [He _]. discriminate.
Qed.

(** The text 99.5 is accepted; the text 150 is rejected, so that the
    matrix session goes on. *)
Lemma example_validators_never_raise_witness :
  ((exists neg m ex, parse_float "99.5" = Some (Finite neg m ex)) /\
   ArrayInput.default_validator false "99.5" = Ok (true, EmptyString)) /\
  MatrixInput.input_matrix 1 2 false false (Some MatrixMain.custom_validator)
    (Session.entered ["150"]) <> Raised IndexError.
Proof.
  destruct (example_validators_never_raise "99.5" EmptyString IndexError
              2 [] 1 2 (Session.entered ["150"])) as (_ & _ & HA & _ & _ & HM).
  split; [apply HA; reflexivity | apply HM; lia].
Defined.

(** ** The texts a validator is called on *)

Module CallFacts.

Import PyFacts LoopFacts ScanFacts EnterFacts FormatFacts RunFacts GridFacts.

Lemma printable_snoc (s : string) (c : ascii) :
  Session.printable s -> isprintable c = true -> Session.printable (snoc s c).
Proof.
  unfold Session.printable, snoc, Spec.keys_of. intros Hs Hc.
  induction s as [|a r IH]; simpl.
  - constructor; [exact Hc | constructor].
  - inversion Hs; subst. constructor; auto.
Qed.

Lemma printable_drop_last (s : string) :
  Session.printable s -> Session.printable (drop_last s).
Proof.
  unfold Session.printable, Spec.keys_of.
  induction s as [|a r IH]; intros Hs; [exact Hs|].
  inversion Hs as [|? ? Ha Hr]; subst.
  destruct r as [|b t]; [constructor|].
  change (drop_last (String a (String b t))) with (String a (drop_last (String b t))).
  simpl. constructor; [exact Ha | now apply IH].
Qed.

Lemma printable_empty : Session.printable EmptyString.
Proof. constructor. Qed.

Section Array.

Import ArrayInput.

Variable size : Z.
Variable as_int : bool.
Variable validate : validator.

(** The buffer and the record of the validator's calls after [Enter]. *)
Lemma array_enter_calls (st st' : state) :
  on_enter size as_int validate st = Ok st' ->
  (current_value st' = current_value st \/ current_value st' = EmptyString) /\
  (validated st' = validated st \/
   current_value st <> EmptyString /\
   validated st' = current_value st :: validated st).
Proof.
  unfold on_enter. intros H.
  destruct (truthy (current_value st)) eqn:Ht.
  - apply truthy_true in Ht.
    destruct (validate (current_value st)) as [[[|] msg]|e0]; simpl in H;
      try discriminate.
    + destruct (format_number (current_value st) as_int) as [f|e0];
        simpl in H; try discriminate.
      destruct (setitem (array st) (current_pos st) f) as [arr|e0];
        simpl in H; try discriminate.
      injection H as <-. simpl. auto.
    + injection H as <-. simpl. auto.
  - destruct (current_pos st <? size - 1); injection H as <-; simpl; auto.
Qed.

Lemma array_calls_run (keys : list ascii) (st : state) :
  loop size as_int validate (initial size) keys = Waiting st ->
  Forall (fun t => t <> EmptyString /\ Session.printable t) (validated st).
Proof.
  intros H.
  pose proof (EndFacts.array_loop_stands size as_int validate
                (fun s => Session.printable (current_value s) /\
                          Forall (fun t => t <> EmptyString /\ Session.printable t)
                            (validated s))) as L.
  specialize (fun He Hb Ha Hc HP => L He Hb Ha Hc keys (initial size) HP).
  rewrite H in L. apply L.
  - intros s s' [Hb Hl] E. apply array_enter_calls in E as [Hv Hc]. split.
    + destruct Hv as [->| ->]; [exact Hb | apply printable_empty].
    + destruct Hc as [->|[Hne ->]]; [exact Hl|]. constructor; auto.
  - intros s [Hb Hl]. unfold on_backspace.
    destruct (truthy (current_value s)); [|now split].
    split; [now apply printable_drop_last | exact Hl].
  - intros d s [Hb Hl]. unfold on_arrow.
    repeat match goal with
           | |- context [if ?a then _ else _] => destruct a
           end; split; try assumption; apply printable_empty.
  - intros c s Hc [Hb Hl]. split; [|exact Hl]. now apply printable_snoc.
  - split; [apply printable_empty | constructor].
Qed.

End Array.

Section Matrix.

Import MatrixInput.

Variables rows cols : Z.
Variables as_int as_symbol : bool.
Variable validate : validator.

Lemma matrix_calls_run (keys : list ascii) (st : state) :
  loop rows cols as_int as_symbol validate (initial rows cols) keys = Waiting st ->
  Forall (fun t => t <> EmptyString /\ Session.printable t /\
                   format_check as_int as_symbol t = Ok tt) (validated st).
Proof.
  intros H.
  pose proof (EndFacts.matrix_loop_stands rows cols as_int as_symbol validate
                (fun s => Spec.matrix_inv rows cols s /\
                          Session.printable (current_value s) /\
                          Forall (fun t => t <> EmptyString /\ Session.printable t /\
                                           format_check as_int as_symbol t = Ok tt)
                            (validated s))) as L.
  specialize (fun He Hb Ha Hc HP => L He Hb Ha Hc keys (initial rows cols) HP).
  rewrite H in L. apply L.
  - intros s s' (Hinv & Hb & Hl) E. split; [eapply matrix_inv_enter; eauto|].
    destruct Hinv as (Hm & Hrow & Hcol & _). split.
    + pose proof E as E'.
      apply (matrix_enter_cases rows cols as_int as_symbol validate s s' _
               Hm Hrow Hcol) in E'
        as [(_ & _ & ->)|[(_ & _ & _ & _ & -> & _)
                         |(f & m' & e & _ & _ & _ & _ & _ & _ & E')]];
        [exact Hb | exact Hb |].
      destruct (Spec.first_empty_after rows cols _ _);
        [injection E' as ->; apply printable_empty|].
      destruct (Spec.first_empty_before rows cols _ _);
        [injection E' as ->; apply printable_empty | discriminate].
    + apply StepFacts.matrix_enter_validated in E as [->|(-> & Hne & Hc)];
        [exact Hl|]. constructor; auto.
  - intros s (Hinv & Hb & Hl). split; [now apply matrix_inv_backspace|].
    unfold on_backspace.
    destruct (truthy (current_value s)); [|now split].
    split; [now apply printable_drop_last | exact Hl].
  - intros d s (Hinv & Hb & Hl). split; [now apply matrix_inv_arrow|].
    unfold on_arrow.
    repeat match goal with
           | |- context [if ?a then _ else _] => destruct a
           end; split; try assumption; apply printable_empty.
  - intros c s Hc (Hinv & Hb & Hl). split; [now apply matrix_inv_char|].
    split; [|exact Hl]. now apply printable_snoc.
  - split; [apply matrix_inv_initial|]. split; [apply printable_empty | constructor].
Qed.

End Matrix.

End CallFacts.

(** X24: whenever an editor waits for a key, every text its validator has
    been called on was not empty and made of printable characters only; in
    the matrix editor every such text had passed the format check. *)
Theorem validator_sees_typed_texts_only
    (size : Z) (as_int : bool) (v : option validator) (keys : list ascii)
    (ast : ArrayInput.state)
    (rows cols : Z) (as_int' as_symbol : bool) (v' : option validator)
    (keys' : list ascii) (mst : MatrixInput.state) :
  (ArrayInput.input_array size as_int v keys = Waiting ast ->
   Forall (fun t => t <> EmptyString /\ Session.printable t)
     (ArrayInput.validated ast)) /\
  (MatrixInput.input_matrix rows cols as_int' as_symbol v' keys' = Waiting mst ->
   Forall (fun t => t <> EmptyString /\ Session.printable t /\
                    MatrixInput.format_check as_int' as_symbol t = Ok tt)
     (MatrixInput.validated mst)).
Proof.
  split.
  - apply CallFacts.array_calls_run.
  - apply CallFacts.matrix_calls_run.
Qed.

(** The texts abc and 7 in the array editor, 7 alone in the matrix editor. *)
Lemma validator_sees_typed_texts_only_witness :
  Forall (fun t => t <> EmptyString /\ Session.printable t) ["7"; "abc"] /\
  Forall (fun t => t <> EmptyString /\ Session.printable t /\
                   MatrixInput.format_check false false t = Ok tt) ["7"].
Proof.
  destruct (validator_sees_typed_texts_only
              2 false None
              (Spec.keys_of "abc" ++ [CR; DEL; DEL; DEL] ++ Spec.keys_of "7" ++ [CR])
              (ArrayInput.mkState ["7"; ""] 1 "" "" ["7"; "abc"] [0])
              1 2 false false None
              (Spec.keys_of "abc" ++ [CR; DEL; DEL; DEL] ++ Spec.keys_of "7" ++ [CR])
              (MatrixInput.mkState [["7"; ""]] 0 1 "" "" ["7"] [(0, 0)]))
    as [HA HM].
  split; [apply HA | apply HM]; reflexivity.
Defined.
